(** * PhishShield front end: the scan controller of [frontend/script.js]

    A shallow embedding of the client-side controller (validation, the
    check lifecycle, session history, statistics, notifications and the
    start-up sequence) and the properties of it that the specification
    states, with the two widgets the same callback sets up after it, the
    FAQ accordion and the testimonials.

    Conventions.
    - A JavaScript string is its sequence of UTF-16 code units.
    - The page is a set of elements that may be missing: the script itself
      guards [announcementBanner] and [closeBannerButton] against [null];
      a property write through a missing element raises [TypeError].
    - Synchronous code lives in a state-and-exception monad [M]; an [async]
      function is cut at its [await]s into the synchronous segments the
      engine runs, the suspended invocation being a first-order [task].
    - Clock readings are integers (milliseconds). *)

From Stdlib Require Import List ZArith NArith Bool Lia String Ascii.
From Stdlib Require Import DecimalString.
Import ListNotations.

Open Scope Z_scope.

(** ** Strings *)

Definition jsstring := list N.

Definition js (s : string) : jsstring :=
  map N_of_ascii (list_ascii_of_string s).

Arguments js : simpl never.

Fixpoint str_eqb (a b : jsstring) : bool :=
  match a, b with
  | [], [] => true
  | x :: a', y :: b' => N.eqb x y && str_eqb a' b'
  | _, _ => false
  end.

Definition is_empty (s : jsstring) : bool :=
  match s with [] => true | _ => false end.

Definition code (c : string) : N :=
  match c with String a _ => N_of_ascii a | EmptyString => 0%N end.

Section CodeUnits.
Local Open Scope N_scope.

(** ECMAScript [WhiteSpace] and [LineTerminator] code points, the set
    [String.prototype.trim] removes. *)
Definition is_white_space (c : N) : bool :=
  existsb (N.eqb c)
    [9; 10; 11; 12; 13; 32; 160; 5760; 8232; 8233; 8239; 8287; 12288; 65279]
  || ((8192 <=? c) && (c <=? 8202)).

Definition is_upper (c : N) : bool := (65 <=? c) && (c <=? 90).
Definition is_alpha (c : N) : bool := is_upper c || ((97 <=? c) && (c <=? 122)).
Definition is_digit (c : N) : bool := (48 <=? c) && (c <=? 57).
Definition to_lower (c : N) : N := if is_upper c then c + 32 else c.

(** URL Standard: "C0 control or space" and "ASCII tab or newline". *)
Definition is_c0_or_space (c : N) : bool := c <=? 32.
Definition is_tab_or_newline (c : N) : bool :=
  (c =? 9) || (c =? 10) || (c =? 13).

End CodeUnits.

Fixpoint drop_while (p : N -> bool) (s : jsstring) : jsstring :=
  match s with
  | c :: r => if p c then drop_while p r else s
  | [] => []
  end.

Fixpoint take_while (p : N -> bool) (s : jsstring) : jsstring :=
  match s with
  | c :: r => if p c then c :: take_while p r else []
  | [] => []
  end.

Definition strip (p : N -> bool) (s : jsstring) : jsstring :=
  rev (drop_while p (rev (drop_while p s))).

(** [String.prototype.trim]. *)
Definition trim (s : jsstring) : jsstring := strip is_white_space s.

(** ** The [URL] constructor

    [new URL(string)] runs the URL Standard's basic URL parser with no base
    URL and throws when the parser returns failure.  Only failure matters
    to [isValidUrl]; the states that cannot fail (path, opaque path, query,
    fragment) are therefore collapsed to "accepted".  The host parser
    (domain to ASCII, IPv4, IPv6, opaque hosts) is a parameter of the
    development. *)

Section Platform.

(** The URL Standard's host parser: [host_parser isOpaque input] is [true]
    when parsing yields a host and [false] when it yields failure. *)
Variable host_parser : bool -> jsstring -> bool.

Section UrlStates.
Local Open Scope N_scope.

Definition is_scheme_char (c : N) : bool :=
  is_alpha c || is_digit c || (c =? code "+") || (c =? code "-")
  || (c =? code ".").

(** Scheme state: collects the lower-cased scheme up to [":"]; any other
    code point, or the end of input, leads to the no-scheme state, which
    fails without a base URL. *)
Fixpoint scheme_state (buffer input : jsstring) : option (jsstring * jsstring) :=
  match input with
  | [] => None
  | c :: rest =>
      if is_scheme_char c then scheme_state (buffer ++ [to_lower c]) rest
      else if c =? code ":" then Some (buffer, rest)
      else None
  end.

(** Scheme start state. *)
Definition scheme_start_state (input : jsstring) : option (jsstring * jsstring) :=
  match input with
  | c :: rest => if is_alpha c then scheme_state [to_lower c] rest else None
  | [] => None
  end.

Definition is_special (scheme : jsstring) : bool :=
  existsb (str_eqb scheme)
    [js "ftp"; js "file"; js "http"; js "https"; js "ws"; js "wss"].

Definition is_slash (c : N) : bool := (c =? code "/") || (c =? 92).

(** The code points that end the authority: ["/"], ["?"], ["#"] and, for a
    special scheme, the backslash. *)
Definition ends_authority (special : bool) (c : N) : bool :=
  (c =? code "/") || (c =? code "?") || (c =? code "#")
  || (special && (c =? 92)).

Definition decimal_value (digits : jsstring) : N :=
  fold_left (fun acc c => 10 * acc + (c - 48)) digits 0.

(** Port state, on the text between [":"] and the end of the authority. *)
Definition port_state (input : jsstring) : bool :=
  forallb is_digit input && (decimal_value input <=? 65535).

(** Host state, on the text between the credentials and the end of the
    authority. *)
Fixpoint host_state (special insideBrackets : bool) (buffer input : jsstring)
  : bool :=
  match input with
  | [] =>
      if special && is_empty buffer then false
      else host_parser (negb special) buffer
  | c :: rest =>
      if (c =? code ":") && negb insideBrackets then
        if is_empty buffer then false
        else host_parser (negb special) buffer && port_state rest
      else
        host_state special
          (if c =? code "[" then true
           else if c =? code "]" then false else insideBrackets)
          (buffer ++ [c]) rest
  end.

(** The text after the last ["@"] of the authority, with whether an ["@"]
    was seen. *)
Fixpoint after_last_at (seen : bool) (buffer input : jsstring)
  : bool * jsstring :=
  match input with
  | [] => (seen, buffer)
  | c :: rest =>
      if c =? code "@" then after_last_at true [] rest
      else after_last_at seen (buffer ++ [c]) rest
  end.

(** Authority state followed by the host state. *)
Definition authority_state (special : bool) (input : jsstring) : bool :=
  let authority := take_while (fun c => negb (ends_authority special c)) input in
  let '(atSignSeen, buffer) := after_last_at false [] authority in
  if atSignSeen && is_empty buffer then false
  else host_state special false [] buffer.

Definition is_windows_drive_letter (buffer : jsstring) : bool :=
  match buffer with
  | [a; b] => is_alpha a && ((b =? code ":") || (b =? code "|"))
  | _ => false
  end.

(** File host state, on the input after the two slashes. *)
Definition file_host_state (input : jsstring) : bool :=
  let buffer :=
    take_while (fun c => negb (is_slash c || (c =? code "?") || (c =? code "#")))
      input in
  if is_windows_drive_letter buffer then true
  else if is_empty buffer then true
  else host_parser false buffer.

(** File state and file slash state. *)
Definition file_state (input : jsstring) : bool :=
  match input with
  | c1 :: c2 :: rest =>
      if is_slash c1 && is_slash c2 then file_host_state rest else true
  | _ => true
  end.

(** The basic URL parser with no base URL: [true] unless it returns
    failure. *)
Definition basic_url_parser (input : jsstring) : bool :=
  let input :=
    filter (fun c => negb (is_tab_or_newline c)) (strip is_c0_or_space input) in
  match scheme_start_state input with
  | None => false
  | Some (scheme, rest) =>
      if str_eqb scheme (js "file") then file_state rest
      else if is_special scheme then
        authority_state true (drop_while is_slash rest)
      else
        match rest with
        | c1 :: c2 :: rest' =>
            if (c1 =? code "/") && (c2 =? code "/")
            then authority_state false rest' else true
        | _ => true
        end
  end.

End UrlStates.

(** [isValidUrl] (script.js, 396-403): [new URL(string)] inside
    [try]/[catch]. *)
Definition isValidUrl (string : jsstring) : bool := basic_url_parser string.

(** ** Validation (script.js, 128-137)

    The two early returns of [checkUrl], named as the specification names
    them. *)

Inductive ValidationError := EmptyInputError | InvalidFormatError.

Definition validate (raw : jsstring) : ValidationError + jsstring :=
  let url := trim raw in
  if is_empty url then inl EmptyInputError
  else if negb (isValidUrl url) then inl InvalidFormatError
  else inr url.


(** The grammar the specification names, "scheme + authority, e.g.
    [https://host/path]", read as RFC 3986 does: a scheme, ["://"], a
    non-empty authority, then whatever follows. *)
Definition spec_scheme_authority (s : jsstring) : bool :=
  match s with
  | c :: r =>
      is_alpha c &&
      match drop_while is_scheme_char r with
      | 58%N :: 47%N :: 47%N :: a :: _ => negb (ends_authority false a)
      | _ => false
      end
  | [] => false
  end.

(** ** Values

    What [response.json()] can yield.  Numbers are the integers that print
    in plain decimal (safe integers); fractions and exponents are outside
    the model. *)

#[warnings="-register-all"]
Inductive value :=
| VUndefined
| VNull
| VBool (b : bool)
| VNumber (n : Z)
| VString (s : jsstring)
| VArray (items : list value)
| VObject (fields : list (jsstring * value)).

(** [ToBoolean]. *)
Definition truthy (v : value) : bool :=
  match v with
  | VUndefined | VNull => false
  | VBool b => b
  | VNumber n => negb (Z.eqb n 0)
  | VString s => negb (is_empty s)
  | VArray _ | VObject _ => true
  end.

Fixpoint join (sep : jsstring) (parts : list jsstring) : jsstring :=
  match parts with
  | [] => []
  | [p] => p
  | p :: rest => p ++ sep ++ join sep rest
  end.

(** [ToString]; an array prints as [Array.prototype.join] does. *)
Fixpoint to_string (v : value) : jsstring :=
  match v with
  | VUndefined => js "undefined"
  | VNull => js "null"
  | VBool true => js "true"
  | VBool false => js "false"
  | VNumber n => js (NilZero.string_of_int (Z.to_int n))
  | VString s => s
  | VArray items =>
      join (js ",")
        (map (fun x => match x with
                       | VUndefined | VNull => []
                       | _ => to_string x
                       end) items)
  | VObject _ => js "[object Object]"
  end.

(** Exceptions: every value thrown in the controller is an [Error] object;
    only its [message] is ever read.  The message of an error that the
    engine raises is engine-specific; a short fixed text stands for it. *)
Inductive error_kind :=
  Error | TypeError | SyntaxError | SecurityError | URIError.

Record exn := Exn { kind : error_kind; message : jsstring }.

(** A settled promise: rejected with an exception or fulfilled. *)
Definition settled (A : Type) : Type := (exn + A)%type.

(** [object.key] for a key that no prototype defines ([detail],
    [isPhishing]): the last own property of that name in a parsed object,
    [undefined] on other values, [TypeError] on [null] and [undefined]. *)
Definition own_property (key : jsstring) (fields : list (jsstring * value))
  : value :=
  fold_left (fun found kv => if str_eqb (fst kv) key then snd kv else found)
    fields VUndefined.

Definition get_property (object : value) (key : jsstring) : settled value :=
  match object with
  | VUndefined | VNull =>
      inl (Exn TypeError (js "Cannot read properties of null"))
  | VObject fields => inr (own_property key fields)
  | _ => inr VUndefined
  end.

(** ** The page and the controller state *)

Inductive elem :=
| urlInput | checkButton | resultContainer | loadingIndicator
| errorContainer | errorMessage | statusIcon | resultTitle
| resultDescription | scanTime | reportButton | historyContainer
| historyList | clearHistoryButton | announcementBanner | closeBannerButton
| totalScansElement | safeUrlsElement | phishingUrlsElement.

Scheme Equality for elem.

Record Statistics := {
  totalScans : Z;
  safeUrls : Z;
  phishingUrls : Z
}.

(** An entry of [sessionHistory] (199-203); the clock reading stands for
    the ISO text of [new Date().toISOString()]. *)
Record HistoryItem := {
  url : jsstring;
  isPhishing : value;
  timestamp : Z
}.

(** The style triple (colour, border, background) of a message or icon. *)
Inductive tone := Danger | Success.

(** One rendered history entry: the operands of [truncateUrl], of the
    [Phishing]/[Safe] label and of [formatTime]. *)
Record row := {
  row_url : jsstring;
  row_phishing : bool;
  row_time : Z
}.

Inductive content :=
| Html (markup : jsstring)
| Text (text : jsstring)
| Elapsed (ms : Z)
| Rows (rows : list row).

Record node := {
  field_value : jsstring;
  disabled : bool;
  hidden : bool;
  body : content;
  colour : option tone
}.

(** A property write on an element. *)
Inductive mutation :=
| SetDisabled (b : bool)
| SetHidden (b : bool)
| SetContent (c : content)
| SetColour (t : tone)
| AppendRow (r : row)
| SetValue (text : jsstring).

Definition mutate (m : mutation) (n : node) : node :=
  match m with
  | SetDisabled b =>
      {| field_value := field_value n; disabled := b; hidden := hidden n;
         body := body n; colour := colour n |}
  | SetHidden b =>
      {| field_value := field_value n; disabled := disabled n; hidden := b;
         body := body n; colour := colour n |}
  | SetContent c =>
      {| field_value := field_value n; disabled := disabled n;
         hidden := hidden n; body := c; colour := colour n |}
  | SetColour t =>
      {| field_value := field_value n; disabled := disabled n;
         hidden := hidden n; body := body n; colour := Some t |}
  | SetValue text =>
      {| field_value := text; disabled := disabled n; hidden := hidden n;
         body := body n; colour := colour n |}
  | AppendRow r =>
      {| field_value := field_value n; disabled := disabled n;
         hidden := hidden n;
         body := match body n with
                 | Rows l => Rows (l ++ [r])
                 | _ => Rows [r]
                 end;
         colour := colour n |}
  end.

(** The listeners the script registers (script.js, 87-96). *)
Inductive listener :=
| OnClickCheckUrl
| OnKeypressEnter
| OnClickReportUrl
| OnClickClearHistory
| OnClickCloseAnnouncement.

(** What the controller does to the world outside its variables, in the
    order it does it. *)
Inductive effect :=
| Dom (e : elem) (m : mutation)
| Stats (s : Statistics)
| History (h : list HistoryItem)
| Request (endpoint body : jsstring)
| Timeout (due : Z)
| Stored (key v : jsstring)
| Logged (label : jsstring)
| Opened (target : jsstring).

Record State := {
  page : elem -> bool;
  dom : elem -> node;
  statistics : Statistics;
  sessionHistory : list HistoryItem;
  localStorage : option (list (jsstring * jsstring));
  clock : Z;
  timers : list Z;
  listeners : list (elem * listener);
  trace : list effect
}.

Definition with_dom (d : elem -> node) (s : State) : State :=
  {| page := page s; dom := d; statistics := statistics s;
     sessionHistory := sessionHistory s; localStorage := localStorage s;
     clock := clock s; timers := timers s; listeners := listeners s;
     trace := trace s |}.

Definition with_statistics (st : Statistics) (s : State) : State :=
  {| page := page s; dom := dom s; statistics := st;
     sessionHistory := sessionHistory s; localStorage := localStorage s;
     clock := clock s; timers := timers s; listeners := listeners s;
     trace := trace s |}.

Definition with_sessionHistory (h : list HistoryItem) (s : State) : State :=
  {| page := page s; dom := dom s; statistics := statistics s;
     sessionHistory := h; localStorage := localStorage s;
     clock := clock s; timers := timers s; listeners := listeners s;
     trace := trace s |}.

Definition with_localStorage (l : option (list (jsstring * jsstring)))
  (s : State) : State :=
  {| page := page s; dom := dom s; statistics := statistics s;
     sessionHistory := sessionHistory s; localStorage := l;
     clock := clock s; timers := timers s; listeners := listeners s;
     trace := trace s |}.

Definition with_clock (t : Z) (s : State) : State :=
  {| page := page s; dom := dom s; statistics := statistics s;
     sessionHistory := sessionHistory s; localStorage := localStorage s;
     clock := t; timers := timers s; listeners := listeners s;
     trace := trace s |}.

Definition with_timers (l : list Z) (s : State) : State :=
  {| page := page s; dom := dom s; statistics := statistics s;
     sessionHistory := sessionHistory s; localStorage := localStorage s;
     clock := clock s; timers := l; listeners := listeners s;
     trace := trace s |}.

Definition with_listeners (l : list (elem * listener)) (s : State) : State :=
  {| page := page s; dom := dom s; statistics := statistics s;
     sessionHistory := sessionHistory s; localStorage := localStorage s;
     clock := clock s; timers := timers s; listeners := l;
     trace := trace s |}.

Definition with_trace (l : list effect) (s : State) : State :=
  {| page := page s; dom := dom s; statistics := statistics s;
     sessionHistory := sessionHistory s; localStorage := localStorage s;
     clock := clock s; timers := timers s; listeners := listeners s;
     trace := l |}.

Arguments with_dom d !s /.
Arguments with_statistics st !s /.
Arguments with_sessionHistory h !s /.
Arguments with_localStorage l !s /.
Arguments with_clock t !s /.
Arguments with_timers l !s /.
Arguments with_listeners l !s /.
Arguments with_trace l !s /.

(** ** The monad of synchronous code *)

Inductive outcome (A : Type) :=
| Normal (a : A)
| Throw (e : exn).

#[global] Arguments Normal {A} a.
#[global] Arguments Throw {A} e.

Definition M (A : Type) : Type := State -> outcome A * State.

Definition ret {A} (a : A) : M A := fun s => (Normal a, s).

Definition throw {A} (e : exn) : M A := fun s => (Throw e, s).

Definition bind {A B} (m : M A) (k : A -> M B) : M B :=
  fun s =>
    match m s with
    | (Normal a, s') => k a s'
    | (Throw e, s') => (Throw e, s')
    end.

Notation "x <- m ;; k" := (bind m (fun x => k))
  (at level 61, m at next level, right associativity).
Notation "m ;; k" := (bind m (fun _ => k))
  (at level 61, right associativity).

(** [try { m } catch (error) { handler error }]. *)
Definition try_catch {A} (m : M A) (handler : exn -> M A) : M A :=
  fun s =>
    match m s with
    | (Normal a, s') => (Normal a, s')
    | (Throw e, s') => handler e s'
    end.


Definition lift {A} (r : settled A) : M A :=
  match r with
  | inl e => throw e
  | inr a => ret a
  end.

(** Reading a variable of the script or a fact about the document. *)
Definition gets {A} (f : State -> A) : M A := fun s => (Normal (f s), s).

Definition emit (ev : effect) : M unit :=
  fun s => (Normal tt, with_trace (trace s ++ [ev]) s).

Fixpoint for_each {A} (l : list A) (f : A -> M unit) : M unit :=
  match l with
  | [] => ret tt
  | x :: rest => f x ;; for_each rest f
  end.

(** *** Elements *)

Definition update (e : elem) (n : node) (d : elem -> node) : elem -> node :=
  fun e' => if elem_beq e e' then n else d e'.

(** [element.property = ...]: [TypeError] when the lookup gave [null]. *)
Definition set (e : elem) (m : mutation) : M unit :=
  fun s =>
    if page s e then
      (Normal tt,
       with_trace (trace s ++ [Dom e m])
         (with_dom (update e (mutate m (dom s e)) (dom s)) s))
    else (Throw (Exn TypeError (js "Cannot set properties of null")), s).

(** [element.value]. *)
Definition get_value (e : elem) : M jsstring :=
  fun s =>
    if page s e then (Normal (field_value (dom s e)), s)
    else (Throw (Exn TypeError (js "Cannot read properties of null")), s).

(** [element.addEventListener(...)]. *)
Definition addEventListener (e : elem) (l : listener) : M unit :=
  fun s =>
    if page s e then
      (Normal tt, with_listeners (listeners s ++ [(e, l)]) s)
    else (Throw (Exn TypeError (js "Cannot read properties of null")), s).

(** [performance.now()] and [new Date()]. *)
Definition now : M Z := gets clock.

(** Assignments to [statistics] and [sessionHistory]. *)
Definition assign_statistics (st : Statistics) : M unit :=
  fun s => (Normal tt, with_trace (trace s ++ [Stats st]) (with_statistics st s)).

Definition assign_sessionHistory (history : list HistoryItem) : M unit :=
  fun s =>
    (Normal tt,
     with_trace (trace s ++ [History history]) (with_sessionHistory history s)).

(** [setTimeout(() => hideError(), delay)]: the only callback ever
    scheduled. *)
Definition setTimeout_hideError (delay : Z) : M unit :=
  fun s =>
    (Normal tt,
     with_trace (trace s ++ [Timeout (clock s + delay)])
       (with_timers (timers s ++ [clock s + delay]) s)).

(** [localStorage.getItem] and [setItem]; both raise when the browser
    denies access to storage. *)
Definition getItem (key : jsstring) : M (option jsstring) :=
  fun s =>
    match localStorage s with
    | None => (Throw (Exn SecurityError (js "The operation is insecure.")), s)
    | Some items =>
        (Normal (option_map snd
                   (find (fun kv => str_eqb (fst kv) key) items)), s)
    end.

Definition setItem (key v : jsstring) : M unit :=
  fun s =>
    match localStorage s with
    | None => (Throw (Exn SecurityError (js "The operation is insecure.")), s)
    | Some items =>
        (Normal tt,
         with_trace (trace s ++ [Stored key v])
           (with_localStorage
              (Some ((key, v)
                     :: filter (fun kv => negb (str_eqb (fst kv) key)) items))
              s))
    end.

(** ** The controller (script.js)

    Markup literals are written with single quotes. *)

Definition PREDICT_URL : jsstring :=
  js "https://backend-website-6rsa.onrender.com/predict_url".

Definition ANNOUNCEMENT_CLOSED : jsstring :=
  js "phishShield_announcement_closed".

Definition checking_label : jsstring :=
  js "<i class='fas fa-spinner fa-spin'></i> Checking...".

Definition default_label : jsstring :=
  js "<i class='fas fa-shield-alt'></i> Check URL".

(** [showLoading] (282-288). *)
Definition showLoading : M unit :=
  set loadingIndicator (SetHidden false) ;;
  set loadingIndicator
    (SetContent (Html (js "<div class='spinner'></div><p>Analyzing URL...</p>"))).

(** [hideLoading] (293-296). *)
Definition hideLoading : M unit :=
  set loadingIndicator (SetHidden true) ;;
  set loadingIndicator (SetContent (Html [])).

(** [hideResult] (308-310). *)
Definition hideResult : M unit := set resultContainer (SetHidden true).

(** [hideError] (344-346). *)
Definition hideError : M unit := set errorContainer (SetHidden true).

(** [showError] (317-339); [type] is [Success] for ['success'] and [Danger]
    for anything else, the default ['error'] included.  [errorMessage] is
    the element [document.querySelector('.error-message')] finds. *)
Definition showError (message : jsstring) (type : tone) : M unit :=
  set errorContainer (SetHidden false) ;;
  set errorMessage (SetContent (Text message)) ;;
  set errorMessage (SetColour type) ;;
  match type with
  | Success => setTimeout_hideError 3000
  | Danger => ret tt
  end.

(** [displayHistory] (233-254). *)
Definition row_of (item : HistoryItem) : row :=
  {| row_url := url item;
     row_phishing := truthy (isPhishing item);
     row_time := timestamp item |}.

Definition displayHistory (history : list HistoryItem) : M unit :=
  if (List.length history =? 0)%nat then set historyContainer (SetHidden true)
  else
    set historyList (SetContent (Rows [])) ;;
    for_each history (fun item => set historyList (AppendRow (row_of item))) ;;
    set historyContainer (SetHidden false).

(** The array update of [addToSessionHistory] (206-211): [unshift], then
    [slice(0, 10)] when the length exceeds 10. *)
Definition push (historyItem : HistoryItem) (history : list HistoryItem)
  : list HistoryItem :=
  let history := historyItem :: history in
  if (10 <? List.length history)%nat then firstn 10 history else history.

(** [addToSessionHistory] (197-215). *)
Definition addToSessionHistory (url : jsstring) (isPhishing : value) : M unit :=
  timestamp <- now ;;
  let historyItem :=
    {| url := url; isPhishing := isPhishing; timestamp := timestamp |} in
  history <- gets sessionHistory ;;
  assign_sessionHistory (push historyItem history) ;;
  history <- gets sessionHistory ;;
  displayHistory history.

(** [loadHistory] (221-227). *)
Definition loadHistory : M unit :=
  try_catch (history <- gets sessionHistory ;; displayHistory history)
    (fun error => emit (Logged (js "Error loading history:"))).

(** [displayResult] (261-277). *)
Definition displayResult (data : value) (processingTime : Z) : M unit :=
  set resultContainer (SetHidden false) ;;
  verdict <- lift (get_property data (js "isPhishing")) ;;
  (if truthy verdict then
     set statusIcon
       (SetContent (Html (js "<i class='fas fa-exclamation-triangle'></i>"))) ;;
     set statusIcon (SetColour Danger) ;;
     set resultTitle (SetContent (Text (js "Phishing URL Detected!"))) ;;
     set resultDescription
       (SetContent (Text (js "This URL has been identified as a potential phishing attempt. Please exercise caution.")))
   else
     set statusIcon (SetContent (Html (js "<i class='fas fa-shield-alt'></i>"))) ;;
     set statusIcon (SetColour Success) ;;
     set resultTitle (SetContent (Text (js "Safe URL"))) ;;
     set resultDescription
       (SetContent (Text (js "This URL appears to be safe. However, always remain vigilant when browsing.")))) ;;
  set scanTime (SetContent (Elapsed processingTime)).

(** One [statistics.counter++]. *)
Definition increment (f : Statistics -> Statistics) : M unit :=
  st <- gets statistics ;; assign_statistics (f st).

Definition number_text (n : Z) : content := Text (to_string (VNumber n)).

(** [updateStatistics] (352-363). *)
Definition updateStatistics (isPhishing : value) : M unit :=
  increment (fun st =>
    {| totalScans := totalScans st + 1; safeUrls := safeUrls st;
       phishingUrls := phishingUrls st |}) ;;
  (if truthy isPhishing then
     increment (fun st =>
       {| totalScans := totalScans st; safeUrls := safeUrls st;
          phishingUrls := phishingUrls st + 1 |})
   else
     increment (fun st =>
       {| totalScans := totalScans st; safeUrls := safeUrls st + 1;
          phishingUrls := phishingUrls st |})) ;;
  st <- gets statistics ;;
  set totalScansElement (SetContent (number_text (totalScans st))) ;;
  st <- gets statistics ;;
  set safeUrlsElement (SetContent (number_text (safeUrls st))) ;;
  st <- gets statistics ;;
  set phishingUrlsElement (SetContent (number_text (phishingUrls st))).

(** [encodeURIComponent] raises [URIError] on a lone surrogate. *)
Fixpoint isWellFormed (s : jsstring) : bool :=
  match s with
  | [] => true
  | c :: r =>
      if ((55296 <=? c) && (c <=? 56319))%N then
        match r with
        | d :: r' => ((56320 <=? d) && (d <=? 57343))%N && isWellFormed r'
        | [] => false
        end
      else if ((56320 <=? c) && (c <=? 57343))%N then false
      else isWellFormed r
  end.

(** [reportUrl] (368-373). *)
Definition reportUrl : M unit :=
  raw <- get_value urlInput ;;
  let url := trim raw in
  if negb (is_empty url) then
    if isWellFormed url then emit (Opened url)
    else throw (Exn URIError (js "URI malformed"))
  else ret tt.

(** [clearHistory] (379-389). *)
Definition clearHistory : M unit :=
  try_catch
    (assign_sessionHistory [] ;;
     set historyList (SetContent (Rows [])) ;;
     set historyContainer (SetHidden true) ;;
     showError (js "History cleared successfully") Success)
    (fun error =>
       emit (Logged (js "Error clearing history:")) ;;
       showError (js "Failed to clear history") Danger).

(** [closeAnnouncement] (432-435). *)
Definition closeAnnouncement : M unit :=
  banner <- gets (fun s => page s announcementBanner) ;;
  (if banner then set announcementBanner (SetHidden true) else ret tt) ;;
  setItem ANNOUNCEMENT_CLOSED (js "true").

(** [checkAnnouncementBanner] (440-445). *)
Definition checkAnnouncementBanner : M unit :=
  isClosed <- getItem ANNOUNCEMENT_CLOSED ;;
  banner <- gets (fun s => page s announcementBanner) ;;
  if match isClosed with Some v => negb (is_empty v) | None => false end
     && banner
  then set announcementBanner (SetHidden true)
  else ret tt.

(** The array literal handed to [Promise.all] in [initializePage]
    (113-117): the three calls, evaluated left to right; none of them is
    still pending when the array is complete. *)
Definition startup_tasks : M unit :=
  loadHistory ;;
  updateStatistics VUndefined ;;
  checkAnnouncementBanner.

(** [initializePage] (105-121). *)
Definition initializePage : M unit :=
  try_catch
    (hideLoading ;;
     hideError ;;
     hideResult ;;
     startup_tasks)
    (fun error => emit (Logged (js "Error initializing page:"))).

(** *** The check lifecycle (127-190)

    A suspended invocation of [checkUrl]: the [await] it stopped at, and
    the locals it still needs. *)
Inductive task :=
| AwaitFetch (url : jsstring) (startTime : Z)
| AwaitErrorBody (url : jsstring) (startTime : Z)
| AwaitData (url : jsstring) (startTime : Z).

(** The [catch] block (180-183). *)
Definition checkUrl_catch (error : exn) : M unit :=
  hideLoading ;;
  showError
    (if is_empty (message error)
     then js "An error occurred while checking the URL"
     else message error)
    Danger ;;
  emit (Logged (js "Error:")).

(** The [finally] block (184-189). *)
Definition checkUrl_finally : M unit :=
  set urlInput (SetDisabled false) ;;
  set checkButton (SetDisabled false) ;;
  set checkButton (SetContent (Html default_label)).

(** A segment of the [try] block: a segment that stops at an [await]
    leaves the statement suspended; one that completes or throws runs the
    [catch] block if it threw, then the [finally] block, whose own
    exception replaces the completion reached so far. *)
Definition unless_suspended (cleanup : M unit) (m : M (option task))
  : M (option task) :=
  fun s =>
    match m s with
    | (Normal (Some t), s') => (Normal (Some t), s')
    | (r, s') =>
        match cleanup s' with
        | (Normal _, s'') => (r, s'')
        | (Throw e, s'') => (Throw e, s'')
        end
    end.

Definition in_try (segment : M (option task)) : M (option task) :=
  unless_suspended checkUrl_finally
    (try_catch segment (fun error => checkUrl_catch error ;; ret None)).

(** From the call to the [await fetch(...)] (128-159). *)
Definition checkUrl : M (option task) :=
  raw <- get_value urlInput ;;
  match validate raw with
  | inl EmptyInputError =>
      showError (js "Please enter a URL to check") Danger ;; ret None
  | inl InvalidFormatError =>
      showError (js "Please enter a valid URL") Danger ;; ret None
  | inr url =>
      in_try
        (set urlInput (SetDisabled true) ;;
         set checkButton (SetDisabled true) ;;
         set checkButton (SetContent (Html checking_label)) ;;
         showLoading ;;
         hideError ;;
         hideResult ;;
         startTime <- now ;;
         emit (Request PREDICT_URL url) ;;
         ret (Some (AwaitFetch url startTime)))
  end.

(** From the settling of [fetch] to the [await response.json()] of either
    branch (161-166). *)
Definition after_fetch (url : jsstring) (startTime : Z) (response : settled bool)
  : M (option task) :=
  in_try
    (ok <- lift response ;;
     if negb ok then ret (Some (AwaitErrorBody url startTime))
     else ret (Some (AwaitData url startTime))).

(** The error branch once the body is read (162-163). *)
Definition after_error_body (body : settled value) : M (option task) :=
  in_try
    (errorData <- lift body ;;
     detail <- lift (get_property errorData (js "detail")) ;;
     throw (Exn Error
              (to_string
                 (if truthy detail then detail
                  else VString (js "Failed to check URL"))))).

(** The success branch once the body is read (166-178).  The promises
    given to [Promise.all] are settled when it is called, so nothing but
    the [finally] block runs after that [await]. *)
Definition after_data (url : jsstring) (startTime : Z) (body : settled value)
  : M (option task) :=
  in_try
    (data <- lift body ;;
     endTime <- now ;;
     hideLoading ;;
     displayResult data (endTime - startTime) ;;
     verdict <- lift (get_property data (js "isPhishing")) ;;
     addToSessionHistory url verdict ;;
     verdict <- lift (get_property data (js "isPhishing")) ;;
     updateStatistics verdict ;;
     loadHistory ;;
     ret None).

(** ** The event loop

    The script's own top-level code, the events the browser delivers and
    what each of them runs. *)

(** The listeners (87-96); [closeBannerButton?.addEventListener] is
    skipped when the page has no such button. *)
Definition register_listeners : M unit :=
  addEventListener checkButton OnClickCheckUrl ;;
  addEventListener urlInput OnKeypressEnter ;;
  addEventListener reportButton OnClickReportUrl ;;
  addEventListener clearHistoryButton OnClickClearHistory ;;
  closeBanner <- gets (fun s => page s closeBannerButton) ;;
  if closeBanner
  then addEventListener closeBannerButton OnClickCloseAnnouncement
  else ret tt.

(** The [DOMContentLoaded] callback as far as the controller goes
    (87-99): the listeners, then [initializePage()].  The set-up of the
    animation libraries that precedes them (47-74) touches none of the
    controller's state and is taken to return. *)
Definition main : M unit :=
  register_listeners ;;
  initializePage.

(** The variables as declared (77-84), over a document [doc] that has the
    elements [pg]. *)
Definition fresh (pg : elem -> bool) (doc : elem -> node)
  (stored : option (list (jsstring * jsstring))) (t : Z) : State :=
  {| page := pg; dom := doc;
     statistics := {| totalScans := 0; safeUrls := 0; phishingUrls := 0 |};
     sessionHistory := [];
     localStorage := stored; clock := t; timers := [];
     listeners := []; trace := [] |}.

Record World := {
  heap : State;
  tasks : list task
}.

Definition load (pg : elem -> bool) (doc : elem -> node)
  (stored : option (list (jsstring * jsstring))) (t : Z) : World :=
  {| heap := snd (main (fresh pg doc stored t)); tasks := [] |}.

(** A call of an [async] function from the event loop: what it returns or
    throws is dropped, a suspended invocation joins the pending tasks. *)
Definition call (m : M (option task)) (w : World) : World :=
  match m (heap w) with
  | (Normal (Some t), s') => {| heap := s'; tasks := tasks w ++ [t] |}
  | (_, s') => {| heap := s'; tasks := tasks w |}
  end.

Definition is_click (l : listener) : bool :=
  match l with
  | OnKeypressEnter => false
  | _ => true
  end.

(** The listener bodies (87-96). *)
Definition listener_body (l : listener) (key : jsstring) : M (option task) :=
  match l with
  | OnClickCheckUrl => checkUrl
  | OnKeypressEnter =>
      if str_eqb key (js "Enter") then checkUrl else ret None
  | OnClickReportUrl => reportUrl ;; ret None
  | OnClickClearHistory => clearHistory ;; ret None
  | OnClickCloseAnnouncement => closeAnnouncement ;; ret None
  end.

(** A user event on a control: a control that is missing or disabled
    receives none. *)
Definition listeners_on (e : elem) (click : bool) (ls : list (elem * listener))
  : list listener :=
  map snd
    (filter (fun el => elem_beq (fst el) e
                       && Bool.eqb (is_click (snd el)) click) ls).

Definition dispatch (e : elem) (click : bool) (key : jsstring) (w : World)
  : World :=
  if page (heap w) e && negb (disabled (dom (heap w) e)) then
    fold_left (fun w l => call (listener_body l key) w)
      (listeners_on e click (listeners (heap w))) w
  else w.

(** What the network hands back to a suspended invocation. *)
Inductive reply :=
| Fetched (response : settled bool)
| Body (body : settled value).

Definition continuation (t : task) (r : reply) : option (M (option task)) :=
  match t, r with
  | AwaitFetch url startTime, Fetched response =>
      Some (after_fetch url startTime response)
  | AwaitErrorBody _ _, Body body => Some (after_error_body body)
  | AwaitData url startTime, Body body => Some (after_data url startTime body)
  | _, _ => None
  end.

Definition settle (i : nat) (r : reply) (w : World) : World :=
  match nth_error (tasks w) i with
  | Some t =>
      match continuation t r with
      | Some m =>
          call m {| heap := heap w;
                    tasks := firstn i (tasks w) ++ skipn (S i) (tasks w) |}
      | None => w
      end
  | None => w
  end.

(** The clock reaches [t]: every timer due by then runs its callback,
    [hideError]. *)
Definition advance (t : Z) (s : State) : State :=
  let s := with_clock (Z.max (clock s) t) s in
  let due := filter (fun d => d <=? clock s) (timers s) in
  fold_left (fun s _ => snd (hideError s)) due
    (with_timers (filter (fun d => negb (d <=? clock s)) (timers s)) s).

Inductive event :=
| Typed (text : jsstring)
| Clicked (e : elem)
| KeyPressed (key : jsstring)
| Settled (i : nat) (r : reply)
| TimePassed (t : Z).

Definition step (w : World) (ev : event) : World :=
  match ev with
  | Typed text =>
      let s := heap w in
      if page s urlInput && negb (disabled (dom s urlInput)) then
        {| heap := with_dom (update urlInput (mutate (SetValue text)
                                                (dom s urlInput)) (dom s)) s;
           tasks := tasks w |}
      else w
  | Clicked e => dispatch e true [] w
  | KeyPressed key => dispatch urlInput false key w
  | Settled i r => settle i r w
  | TimePassed t => {| heap := advance t (heap w); tasks := tasks w |}
  end.

Definition run (w : World) (evs : list event) : World := fold_left step evs w.

(** One check from the call to its return, with nothing else in between:
    the replies are consumed as the invocation asks for them. *)
Definition resume (response : settled bool) (body : settled value)
  (r : outcome (option task) * State) : outcome (option task) * State :=
  match r with
  | (Normal (Some (AwaitFetch url startTime)), s) =>
      after_fetch url startTime response s
  | (Normal (Some (AwaitErrorBody _ _)), s) => after_error_body body s
  | (Normal (Some (AwaitData url startTime)), s) =>
      after_data url startTime body s
  | _ => r
  end.

Definition lifecycle (response : settled bool) (body : settled value)
  (s : State) : outcome (option task) * State :=
  resume response body (resume response body (checkUrl s)).

(** ** Reading a trace

    The trace determines the controller's variables and the document:
    replaying the effects of a run on the state it started from gives the
    state it ended in. *)

Definition apply_effect (e : elem) (n : node) (ev : effect) : node :=
  match ev with
  | Dom e' m => if elem_beq e' e then mutate m n else n
  | _ => n
  end.

Definition replay_dom (e : elem) (evs : list effect) (n : node) : node :=
  fold_left (apply_effect e) evs n.

Definition replay_statistics (evs : list effect) (st : Statistics)
  : Statistics :=
  fold_left (fun st ev => match ev with Stats st' => st' | _ => st end) evs st.

Definition replay_history (evs : list effect) (h : list HistoryItem)
  : list HistoryItem :=
  fold_left (fun h ev => match ev with History h' => h' | _ => h end) evs h.

(** [s'] is [s] after the effects [evs], all of which satisfy [P]. *)
Definition extends (P : effect -> bool) (s s' : State) (evs : list effect)
  : Prop :=
  trace s' = trace s ++ evs /\
  forallb P evs = true /\
  page s' = page s /\
  listeners s' = listeners s /\
  (forall e, dom s' e = replay_dom e evs (dom s e)) /\
  statistics s' = replay_statistics evs (statistics s) /\
  sessionHistory s' = replay_history evs (sessionHistory s).

Definition obeys {A} (P : effect -> bool) (m : M A) : Prop :=
  forall s, exists evs, extends P s (snd (m s)) evs.

(** The three writes of the [finally] block of [checkUrl]. *)
Definition cleanup : list effect :=
  [Dom urlInput (SetDisabled false);
   Dom checkButton (SetDisabled false);
   Dom checkButton (SetContent (Html default_label))].

Definition is_cleanup (ev : effect) : bool :=
  match ev with
  | Dom urlInput (SetDisabled false) => true
  | Dom checkButton (SetDisabled false) => true
  | Dom checkButton (SetContent (Html l)) => str_eqb l default_label
  | _ => false
  end.

Definition not_cleanup (ev : effect) : bool := negb (is_cleanup ev).

(** The input field and the trigger are usable and the trigger shows its
    default label. *)
Definition unlocked (s : State) : Prop :=
  disabled (dom s urlInput) = false /\
  disabled (dom s checkButton) = false /\
  body (dom s checkButton) = Html default_label.

Definition suspended {A} (r : outcome (option task) * A) : bool :=
  match r with
  | (Normal (Some _), _) => true
  | _ => false
  end.

(** What a synchronous block may return. *)
Definition returns {A} (Q : A -> Prop) (m : M A) : Prop :=
  forall s, match fst (m s) with Normal a => Q a | Throw _ => True end.

(** The [await]s of [checkUrl] in the order it reaches them. *)
Definition at_fetch (o : option task) : Prop :=
  match o with
  | None | Some (AwaitFetch _ _) => True
  | _ => False
  end.

Definition at_body (o : option task) : Prop :=
  match o with
  | None | Some (AwaitErrorBody _ _) | Some (AwaitData _ _) => True
  | _ => False
  end.

Definition at_end (o : option task) : Prop :=
  match o with
  | None => True
  | _ => False
  end.

(** Effects that are not assignments to [sessionHistory], and effects
    that are not assignments to [statistics]. *)
Definition not_history (ev : effect) : bool :=
  match ev with History _ => false | _ => true end.

Definition not_stats (ev : effect) : bool :=
  match ev with Stats _ => false | _ => true end.

(** The listeners in the order [main] registers them. *)
Definition installed : list (elem * listener) :=
  [(checkButton, OnClickCheckUrl); (urlInput, OnKeypressEnter);
   (reportButton, OnClickReportUrl);
   (clearHistoryButton, OnClickClearHistory);
   (closeBannerButton, OnClickCloseAnnouncement)].


Definition locked (s : State) : Prop :=
  disabled (dom s urlInput) = true /\ disabled (dom s checkButton) = true.



(** What the script can do at all: it never writes the text of the input
    field. *)
Definition scripted (ev : effect) : bool :=
  match ev with
  | Dom _ (SetValue _) => false
  | _ => true
  end.

(** A page with every element the script looks up. *)
Definition complete (s : State) : Prop := forall e, page s e = true.

(** The milestones of a check: the verdict written to the result title,
    and the assignments to the history and to the statistics. *)
Definition is_milestone (ev : effect) : bool :=
  match ev with
  | Dom resultTitle (SetContent _) => true
  | History _ | Stats _ => true
  | _ => false
  end.

(** The effects on the message area. *)
Definition is_message (ev : effect) : bool :=
  match ev with
  | Dom errorContainer _ | Dom errorMessage _ => true
  | _ => false
  end.

(** Scripted effects that a filter [mark] does not select. *)
Definition quiet (mark : effect -> bool) (ev : effect) : bool :=
  scripted ev && negb (mark ev).

(** [m] run in [s] returns [a] and ends in [s'], and the effects it had
    that [mark] selects are [ms], in this order. *)
Definition result_on {A} (mark : effect -> bool) (s : State) (m : M A) (a : A)
  (ms : list effect) (s' : State) : Prop :=
  m s = (Normal a, s') /\
  exists evs, extends scripted s s' evs /\ filter mark evs = ms.

(** [m] obeys [P] and, on a complete page, does not throw. *)
Definition succeeds {A} (P : effect -> bool) (m : M A) : Prop :=
  obeys P m /\ forall s, complete s -> exists a, fst (m s) = Normal a.

(** The title that [displayResult] writes for a verdict. *)
Definition verdict_title (verdict : value) : jsstring :=
  if truthy verdict then js "Phishing URL Detected!" else js "Safe URL".

(** [updateStatistics] on the counters. *)
Definition count_scan (verdict : value) (st : Statistics) : Statistics :=
  {| totalScans := totalScans st + 1;
     safeUrls := if truthy verdict then safeUrls st else safeUrls st + 1;
     phishingUrls :=
       if truthy verdict then phishingUrls st + 1 else phishingUrls st |}.

(** The checks of a session, each answered with a success response
    carrying the given object, with no other event. *)
Definition successes (bodies : list (list (jsstring * value))) (s : State)
  : State :=
  fold_left
    (fun s fields => snd (lifecycle (inr true) (inr (VObject fields)) s))
    bodies s.

(** The message the [catch] block displays for the [detail] of an error
    body (163, 182). *)
Definition error_text (detail : value) : jsstring :=
  let message :=
    to_string (if truthy detail then detail
               else VString (js "Failed to check URL")) in
  if is_empty message then js "An error occurred while checking the URL"
  else message.

(** The outbound classification requests of a trace. *)
Definition is_request (ev : effect) : bool :=
  match ev with Request _ _ => true | _ => false end.

Definition requests (s : State) : nat :=
  List.length (filter is_request (trace s)).

(** Effects that assign neither the statistics nor the history. *)
Definition not_update (ev : effect) : bool := not_stats ev && not_history ev.

(** ** Sample inputs *)

(** A stand-in for the host parser: it accepts every non-empty host. *)
Definition sample_host_parser (isOpaque : bool) (input : jsstring) : bool :=
  negb (is_empty input).

Definition every_element (e : elem) : bool := true.

Definition every_element_but (missing : elem) (e : elem) : bool :=
  negb (elem_beq e missing).

Definition blank : node :=
  {| field_value := []; disabled := false; hidden := false;
     body := Html []; colour := None |}.

(** A document whose input field holds [text]. *)
Definition document_with (text : jsstring) (e : elem) : node :=
  match e with
  | urlInput => mutate (SetValue text) blank
  | _ => blank
  end.

(** A complete page, loaded, with a URL typed in. *)
Definition sample_loaded : State :=
  heap (load every_element (document_with (js "https://example.com"))
          (Some []) 0).

(** A page with no [totalScans] element, on which the announcement was
    closed in an earlier visit. *)
Definition sample_broken : State :=
  fresh (every_element_but totalScansElement) (document_with [])
    (Some [(ANNOUNCEMENT_CLOSED, js "true")]) 0.

Definition sample_records : list HistoryItem :=
  map (fun t => {| url := js "https://example.com";
                   isPhishing := VBool false; timestamp := t |})
    [1; 2; 3; 4; 5; 6; 7; 8; 9; 10; 11].

(** The effects a run had, given the state it started from. *)
Definition effects_since (s s' : State) : list effect :=
  skipn (List.length (trace s)) (trace s').

Fixpoint first_index (p : effect -> bool) (l : list effect) : option nat :=
  match l with
  | [] => None
  | ev :: rest =>
      if p ev then Some 0%nat else option_map S (first_index p rest)
  end.

Definition is_verdict (ev : effect) : bool :=
  match ev with
  | Dom resultTitle (SetContent _) => true
  | _ => false
  end.

Definition is_update (ev : effect) : bool :=
  match ev with
  | Stats _ | History _ => true
  | _ => false
  end.

(** ** Reading a run

    A relation between the state a block starts in and the state it
    leaves, whether it returns, throws or suspends. *)

Definition relates {A} (R : State -> State -> Prop) (m : M A) : Prop :=
  forall s, R s (snd (m s)).

(** The two variables of the script that outlive a check. *)
Definition memory (s : State) : Statistics * list HistoryItem :=
  (statistics s, sessionHistory s).

Definition remembers
  (Q : Statistics * list HistoryItem -> Statistics * list HistoryItem -> Prop)
  (s s' : State) : Prop :=
  Q (memory s) (memory s').

(** What [checkUrl] lets through (128-137): a trimmed, non-empty string
    that [new URL] accepts. *)
Definition checked (u : jsstring) : Prop :=
  trim u = u /\ u <> [] /\ isValidUrl u = true.

Definition task_url (t : task) : jsstring :=
  match t with
  | AwaitFetch u _ | AwaitErrorBody u _ | AwaitData u _ => u
  end.

(** The counters add up and none is negative. *)
Definition counted (st : Statistics) : Prop :=
  totalScans st = safeUrls st + phishingUrls st /\
  0 <= safeUrls st /\ 0 <= phishingUrls st.

(** No counter of [st'] is below its value in [st]. *)
Definition no_less (st st' : Statistics) : Prop :=
  totalScans st <= totalScans st' /\
  safeUrls st <= safeUrls st' /\
  phishingUrls st <= phishingUrls st'.

(** Every suspended invocation carries a URL that passed validation. *)
Definition tasks_checked (w : World) : Prop :=
  Forall (fun t => checked (task_url t)) (tasks w).

(** Every entry of a history is for a URL that passed validation, and
    there are at most 10 of them. *)
Definition history_checked (h : list HistoryItem) : Prop :=
  Forall (fun item => checked (url item)) h /\ (List.length h <= 10)%nat.

(** The text [checkUrl] shows for each of its two early returns (130,
    135). *)
Definition validation_message (e : ValidationError) : jsstring :=
  match e with
  | EmptyInputError => js "Please enter a URL to check"
  | InvalidFormatError => js "Please enter a valid URL"
  end.

(** The text the [catch] block of [checkUrl] shows for what it caught
    (182). *)
Definition caught_text (error : exn) : jsstring :=
  if is_empty (message error)
  then js "An error occurred while checking the URL"
  else message error.

(** The effects of the [catch] block (181-183) followed by those of the
    [finally] block (186-188), on a page that has every element. *)
Definition recovery (error : exn) : list effect :=
  [Dom loadingIndicator (SetHidden true);
   Dom loadingIndicator (SetContent (Html []));
   Dom errorContainer (SetHidden false);
   Dom errorMessage (SetContent (Text (caught_text error)));
   Dom errorMessage (SetColour Danger);
   Logged (js "Error:")] ++ cleanup.

(** The effects of [checkUrl] up to its request (141-159), for the URL
    [u]. *)
Definition departure (u : jsstring) : list effect :=
  [Dom urlInput (SetDisabled true);
   Dom checkButton (SetDisabled true);
   Dom checkButton (SetContent (Html checking_label));
   Dom loadingIndicator (SetHidden false);
   Dom loadingIndicator
     (SetContent (Html (js "<div class='spinner'></div><p>Analyzing URL...</p>")));
   Dom errorContainer (SetHidden true);
   Dom resultContainer (SetHidden true);
   Request PREDICT_URL u].

(** A promise of the lifecycle that rejects: [fetch] itself, or
    [response.json()] whatever the status was. *)
Definition rejection (response : settled bool) (body : settled value)
  : option exn :=
  match response, body with
  | inl e, _ => Some e
  | inr _, inl e => Some e
  | inr _, inr _ => None
  end.

(** Every effect. *)
Definition every (ev : effect) : bool := true.

(** The loading indicator is out of sight and empty. *)
Definition loading_cleared (s : State) : Prop :=
  hidden (dom s loadingIndicator) = true /\
  body (dom s loadingIndicator) = Html [].

(** Effects other than writes to the loading indicator. *)
Definition not_loading (ev : effect) : bool :=
  match ev with
  | Dom loadingIndicator _ => false
  | _ => true
  end.

(** The four elements that [displayResult] writes a verdict to
    (265-276). *)
Definition carries_verdict (e : elem) : bool :=
  match e with
  | statusIcon | resultTitle | resultDescription | scanTime => true
  | _ => false
  end.

Arguments every ev /.

(** What the engine throws at [data.isPhishing] when [data] is [null]. *)
Definition null_read : exn :=
  Exn TypeError (js "Cannot read properties of null").

(** The effects of the success branch up to that exception (170, 262). *)
Definition arrival_of_null : list effect :=
  [Dom loadingIndicator (SetHidden true);
   Dom loadingIndicator (SetContent (Html []));
   Dom resultContainer (SetHidden false)].

(** What a block leaves alone when it neither stores anything nor writes
    to the announcement banner. *)
Definition keeps_banner (s s' : State) : Prop :=
  localStorage s' = localStorage s /\
  dom s' announcementBanner = dom s announcementBanner /\
  page s' = page s.

(** Whether the announcement was closed on an earlier visit, as
    [checkAnnouncementBanner] reads it from storage (441-442). *)
Definition announcement_closed (items : list (jsstring * jsstring)) : bool :=
  match find (fun kv => str_eqb (fst kv) ANNOUNCEMENT_CLOSED) items with
  | Some kv => negb (is_empty (snd kv))
  | None => false
  end.

(** The controls whose listeners are registered without a guard
    (87-95). *)
Definition required : list elem :=
  [checkButton; urlInput; reportButton; clearHistoryButton].

(** The listeners a page with the required controls ends up with. *)
Definition registered (pg : elem -> bool) : list (elem * listener) :=
  if pg closeBannerButton then installed else firstn 4 installed.

(** Effects other than writes to the three buttons the script only
    listens to. *)
Definition not_button (ev : effect) : bool :=
  match ev with
  | Dom reportButton _ | Dom clearHistoryButton _ | Dom closeBannerButton _ =>
      false
  | _ => true
  end.




(** ** Reading a URL

    What the basic URL parser removes from its input before it looks at
    it: leading and trailing C0 controls and spaces, and every tab and
    newline. *)
Definition url_input (input : jsstring) : jsstring :=
  filter (fun c => negb (is_tab_or_newline c)) (strip is_c0_or_space input).

(** The scheme of a string as RFC 3986 writes it, a letter followed by
    letters, digits, ["+"], ["-"] and ["."] up to a [":"]: the scheme in
    lower case and the text after the colon. *)
Definition scheme_of (input : jsstring) : option (jsstring * jsstring) :=
  match input with
  | c :: r =>
      if is_alpha c then
        match drop_while is_scheme_char r with
        | d :: rest =>
            if N.eqb d (code ":")
            then Some (map to_lower (c :: take_while is_scheme_char r), rest)
            else None
        | [] => None
        end
      else None
  | [] => None
  end.

(** The text after the scheme starts with two slashes. *)
Definition starts_authority (rest : jsstring) : bool :=
  match rest with
  | c1 :: c2 :: _ => N.eqb c1 (code "/") && N.eqb c2 (code "/")
  | _ => false
  end.

(** The code points of an authority with no credentials: none that ends
    the authority and no ["@"]; and those of a host with no port in it
    and no brackets. *)
Definition is_authority_char (c : N) : bool :=
  negb (ends_authority true c) && negb (N.eqb c (code "@")).

Definition is_host_char (c : N) : bool :=
  is_authority_char c
  && negb (N.eqb c (code ":") || N.eqb c (code "[") || N.eqb c (code "]")).

(** An authority made of a host and, after a colon, a port. *)
Definition authority_text (host : jsstring) (port : option jsstring)
  : jsstring :=
  host ++ match port with Some p => code ":" :: p | None => [] end.

(** What follows an authority: nothing, or a code point that ends it. *)
Definition after_authority (tail : jsstring) : bool :=
  match tail with
  | [] => true
  | c :: _ => ends_authority true c
  end.

(** ** Reading the start-up tasks

    The elements [updateStatistics] displays the counters in
    (360-362). *)
Definition is_counter (e : elem) : bool :=
  match e with
  | totalScansElement | safeUrlsElement | phishingUrlsElement => true
  | _ => false
  end.

(** The page has the three of them. *)
Definition counters_on (pg : elem -> bool) : bool :=
  pg totalScansElement && pg safeUrlsElement && pg phishingUrlsElement.

Definition is_banner (e : elem) : bool :=
  match e with announcementBanner => true | _ => false end.

(** A block that writes to no element outside [touched], and leaves the
    storage alone. *)
Definition writes_only (touched : elem -> bool) (s s' : State) : Prop :=
  page s' = page s /\ localStorage s' = localStorage s /\
  forall e, touched e = false -> dom s' e = dom s e.

(** The label [initializePage] logs what it catches under (119), and the
    label [loadHistory] logs under (225). *)
Definition initializing_error : effect :=
  Logged (js "Error initializing page:").

Definition history_error : effect := Logged (js "Error loading history:").

(** Effects other than the log entry of [initializePage]. *)
Definition not_initializing_error (ev : effect) : bool :=
  match ev with
  | Logged label => negb (str_eqb label (js "Error initializing page:"))
  | _ => true
  end.

(** ** The FAQ accordion (script.js, 491-513)

    [faqItems] is the static list that [querySelectorAll] returned for
    the class of the items.  For each item the script looks up its first
    descendant with the class of a question and its first descendant
    with the class of an answer; either may be missing, and two items
    find the same element when one item lies inside another, so an item
    refers to these elements by number.  The accordion shares no variable
    with the controller: its state is a record of its own. *)

Record FaqItem := {
  faq_question : option nat;
  faq_answer : option nat
}.

(** What the accordion reads and writes: the class [active] of each item,
    by the index of the item in [faqItems], and the inline [max-height]
    of each answer, in pixels; [None] stands for what the document gives
    an answer that the script has not written to. *)
Record Accordion := {
  active : nat -> bool;
  maxHeight : nat -> option Z
}.

Definition set_active (index : nat) (b : bool) (s : Accordion) : Accordion :=
  {| active := fun j => if (j =? index)%nat then b else active s j;
     maxHeight := maxHeight s |}.

(** [answer.style.maxHeight = h + 'px'], a [TypeError] when the answer
    is [null]. *)
Definition set_maxHeight (answer : option nat) (h : Z) (s : Accordion)
  : outcome unit * Accordion :=
  match answer with
  | Some a =>
      (Normal tt,
       {| active := active s;
          maxHeight := fun b => if (b =? a)%nat then Some h else maxHeight s b |})
  | None => (Throw null_read, s)
  end.

(** The inner [forEach] of the click handler of the item number [item]
    (498-503), from the item number [index] on. *)
Fixpoint close_others (item index : nat) (others : list FaqItem)
  (s : Accordion) : outcome unit * Accordion :=
  match others with
  | [] => (Normal tt, s)
  | otherItem :: rest =>
      if negb (index =? item)%nat && active s index then
        match set_maxHeight (faq_answer otherItem) 0
                (set_active index false s) with
        | (Normal _, s') => close_others item (S index) rest s'
        | (Throw e, s') => (Throw e, s')
        end
      else close_others item (S index) rest s
  end.

(** The click handler of the item number [item], whose answer is
    [answer] (496-511).  [scrollHeight] is the height of the content of
    each answer at the time of the click. *)
Definition faq_toggle (faqItems : list FaqItem) (scrollHeight : nat -> Z)
  (item : nat) (answer : option nat) (s : Accordion)
  : outcome unit * Accordion :=
  match close_others item 0 faqItems s with
  | (Normal _, s1) =>
      let s2 := set_active item (negb (active s1 item)) s1 in
      if active s2 item
      then set_maxHeight answer
             (match answer with Some a => scrollHeight a | None => 0 end) s2
      else set_maxHeight answer 0 s2
  | (Throw e, s1) => (Throw e, s1)
  end.

(** A listener of the accordion: the question it is registered on, and
    the item and the answer its handler has closed over. *)
Record FaqListener := {
  on_question : nat;
  of_item : nat;
  of_answer : option nat
}.

(** The outer [forEach] (492-513), from the item number [index] on: the
    listeners it registers, in order, until an item has no question. *)
Fixpoint faq_register (index : nat) (items : list FaqItem)
  : outcome unit * list FaqListener :=
  match items with
  | [] => (Normal tt, [])
  | item :: rest =>
      match faq_question item with
      | Some q =>
          let (o, ls) := faq_register (S index) rest in
          (o, {| on_question := q; of_item := index;
                 of_answer := faq_answer item |} :: ls)
      | None => (Throw null_read, [])
      end
  end.

(** What a click on the question [q] does with one listener: its
    handler runs when it is registered on [q], and what it throws goes
    to the console. *)
Definition faq_dispatch (faqItems : list FaqItem) (scrollHeight : nat -> Z)
  (q : nat) (s : Accordion) (l : FaqListener) : Accordion :=
  if (on_question l =? q)%nat
  then snd (faq_toggle faqItems scrollHeight (of_item l) (of_answer l) s)
  else s.

(** The listeners of the accordion after start-up.  The set-up (492) is
    a statement of the callback that follows [main] (87-99), with only
    function declarations in between: it runs when [main] has returned,
    and not at all when one of the unguarded registrations of [main]
    threw.  [start] is the state the callback starts in. *)
Definition faq_listeners (start : State) (faqItems : list FaqItem)
  : list FaqListener :=
  match fst (main start) with
  | Normal _ => snd (faq_register 0 faqItems)
  | Throw _ => []
  end.

(** A click on the question [q]: the handlers registered on it run in
    the order of their registration, and one that throws does not keep
    the next from running.  Questions are taken not to lie inside one
    another, so that a click reaches the listeners of one question. *)
Definition faq_click (start : State) (faqItems : list FaqItem)
  (scrollHeight : nat -> Z) (q : nat) (s : Accordion) : Accordion :=
  fold_left (faq_dispatch faqItems scrollHeight q)
    (faq_listeners start faqItems) s.

(** A sequence of clicks, each with the heights of the answers at its
    time. *)
Definition faq_session (start : State) (faqItems : list FaqItem)
  (clicks : list (nat * (nat -> Z))) (s : Accordion) : Accordion :=
  fold_left (fun s c => faq_click start faqItems (snd c) (fst c) s) clicks s.

(** Every element of the list was found, and no two are the same. *)
Fixpoint distinct (found : list (option nat)) : bool :=
  match found with
  | [] => true
  | None :: _ => false
  | Some x :: rest =>
      negb (existsb (fun y => match y with
                              | Some z => (z =? x)%nat
                              | None => false
                              end) rest)
      && distinct rest
  end.

(** Every item has a question and an answer of its own. *)
Definition separate (faqItems : list FaqItem) : Prop :=
  distinct (map faq_question faqItems) = true /\
  distinct (map faq_answer faqItems) = true.

(** ** The testimonials (script.js, 613-635)

    The inline [display] of a card, [None] while the script has not
    written it. *)
Inductive display := Block | Unshown.

(** [testimonials] is a static list, so the cards are the positions of
    [cards]; [currentTestimonial] is a number, [None] for [NaN]. *)
Record Carousel := {
  cards : list (option display);
  currentTestimonial : option nat
}.

(** The [forEach] of [rotateTestimonials] (621-627), from the card
    number [index] on. *)
Fixpoint show_cards (innerWidth : Z) (current : option nat) (index : nat)
  (shown : list (option display)) : list (option display) :=
  match shown with
  | [] => []
  | _ :: rest =>
      Some (if innerWidth <? 768
            then match current with
                 | Some c => if (index =? c)%nat then Block else Unshown
                 | None => Unshown
                 end
            else Block)
      :: show_cards innerWidth current (S index) rest
  end.

(** [rotateTestimonials] (620-629), for the width of the window at the
    time of the call.  The remainder by a length of zero is [NaN], and
    so is every number computed from [NaN]. *)
Definition rotateTestimonials (innerWidth : Z) (s : Carousel) : Carousel :=
  {| cards := show_cards innerWidth (currentTestimonial s) 0 (cards s);
     currentTestimonial :=
       match currentTestimonial s with
       | Some c =>
           match List.length (cards s) with
           | O => None
           | S _ => Some ((c + 1) mod List.length (cards s))%nat
           end
       | None => None
       end |}.

(** The controls of the screenshot overlay, in the order the callback
    registers their listeners (540, 554, 559, 567, 602), none behind a
    guard. *)
Inductive share_control :=
| shareResult | closeScreenshot | downloadScreenshot | shareScreenshot
| screenshotOverlay.

Definition share_controls : list share_control :=
  [shareResult; closeScreenshot; downloadScreenshot; shareScreenshot;
   screenshotOverlay].

(** Whether the callback gets as far as the testimonials (632): [main]
    (87-99), the set-up of the accordion (492-513) and the registrations
    on the screenshot controls (540-606) all have to return; the script
    element appended to the head in between (609-611) cannot fail.
    [controls] tells which of these controls the document has. *)
Definition reaches_testimonials (start : State) (faqItems : list FaqItem)
  (controls : share_control -> bool) : bool :=
  match fst (main start), fst (faq_register 0 faqItems) with
  | Normal _, Normal _ => forallb controls share_controls
  | _, _ => false
  end.

(** The cards of the document, with the counter as declared (615). *)
Definition testimonials_start (shown : list (option display)) : Carousel :=
  {| cards := shown; currentTestimonial := Some 0%nat |}.

(** What start-up does with the cards (632-635) when it gets there: on a
    narrow window one rotation at once and one at every tick of the
    interval, and nothing on a wide one.  [ticks] has the width of the
    window at each tick. *)
Definition testimonials_run (start : State) (faqItems : list FaqItem)
  (controls : share_control -> bool) (innerWidth : Z) (ticks : list Z)
  (shown : list (option display)) : Carousel :=
  if reaches_testimonials start faqItems controls && (innerWidth <? 768)
  then fold_left (fun s w => rotateTestimonials w s) (innerWidth :: ticks)
         (testimonials_start shown)
  else testimonials_start shown.

(** The card that alone is on display, if there is one. *)
Definition only_card (n k : nat) : list (option display) :=
  map (fun index => Some (if (index =? k)%nat then Block else Unshown))
    (seq 0 n).

(** No two items of the accordion are open. *)
Definition one_open (faqItems : list FaqItem) (s : Accordion) : Prop :=
  forall i j, (i < List.length faqItems)%nat -> (j < List.length faqItems)%nat ->
              active s i = true -> active s j = true -> i = j.

(** ** More sample inputs *)

(** A complete page, loaded, with a string that is no URL typed in. *)
Definition sample_mistyped : State :=
  heap (load every_element (document_with (js "not a url")) (Some []) 0).

(** What [fetch] rejects with when the network is down. *)
Definition failed_to_fetch : exn := Exn TypeError (js "Failed to fetch").

(** Three FAQ items, each with a question and an answer of its own, and a
    document that has the first two open. *)
Definition sample_faq : list FaqItem :=
  [{| faq_question := Some 0%nat; faq_answer := Some 10%nat |};
   {| faq_question := Some 1%nat; faq_answer := Some 11%nat |};
   {| faq_question := Some 2%nat; faq_answer := Some 12%nat |}].

Definition sample_accordion : Accordion :=
  {| active := fun j => (j <? 2)%nat; maxHeight := fun _ => None |}.

Definition sample_heights (answer : nat) : Z := 120.

(** The state the callback starts in on a complete page, and a document
    with every control of the screenshot overlay. *)
Definition sample_start : State :=
  fresh every_element (document_with []) (Some []) 0.

Definition every_control (c : share_control) : bool := true.

(** Three cards that the document does not style. *)
Definition sample_cards : list (option display) := [None; None; None].

(** ** Properties *)

Lemma elem_beq_true (a b : elem) : elem_beq a b = true -> a = b.
Proof. destruct a, b; simpl; congruence. Qed.

Lemma extends_refl P s : extends P s s [].
Proof.
  unfold extends; simpl. rewrite app_nil_r. repeat split; reflexivity.
Qed.

Lemma extends_trans P s1 s2 s3 evs1 evs2 :
  extends P s1 s2 evs1 -> extends P s2 s3 evs2 ->
  extends P s1 s3 (evs1 ++ evs2).
Proof.
  intros (T1 & F1 & P1 & L1 & D1 & S1 & H1) (T2 & F2 & P2 & L2 & D2 & S2 & H2).
  unfold extends, replay_dom, replay_statistics, replay_history in *.
  repeat split.
  - rewrite T2, T1, app_assoc. reflexivity.
  - rewrite forallb_app, F1, F2. reflexivity.
  - congruence.
  - congruence.
  - intros e. rewrite fold_left_app, D2, D1. reflexivity.
  - rewrite fold_left_app, S2, S1. reflexivity.
  - rewrite fold_left_app, H2, H1. reflexivity.
Qed.

Lemma extends_one P s s' ev :
  trace s' = trace s ++ [ev] -> P ev = true ->
  page s' = page s -> listeners s' = listeners s ->
  (forall e, dom s' e = replay_dom e [ev] (dom s e)) ->
  statistics s' = replay_statistics [ev] (statistics s) ->
  sessionHistory s' = replay_history [ev] (sessionHistory s) ->
  extends P s s' [ev].
Proof.
  intros. unfold extends; simpl. rewrite H0. repeat split; assumption.
Qed.

Section Obeys.
Variable P : effect -> bool.

Lemma obeys_ret A (a : A) : obeys P (ret a).
Proof. intros s. exists []. apply extends_refl. Qed.

Lemma obeys_throw A (e : exn) : obeys P (@throw A e).
Proof. intros s. exists []. apply extends_refl. Qed.

Lemma obeys_gets A (f : State -> A) : obeys P (gets f).
Proof. intros s. exists []. apply extends_refl. Qed.

Lemma obeys_lift A (r : settled A) : obeys P (lift r).
Proof. destruct r; [apply obeys_throw | apply obeys_ret]. Qed.

Lemma obeys_bind A B (m : M A) (k : A -> M B) :
  obeys P m -> (forall a, obeys P (k a)) -> obeys P (bind m k).
Proof.
  intros Hm Hk s. unfold bind. destruct (Hm s) as [evs1 E1].
  destruct (m s) as [[a|e] s1]; simpl in *.
  - destruct (Hk a s1) as [evs2 E2]. exists (evs1 ++ evs2).
    eapply extends_trans; eassumption.
  - exists evs1. exact E1.
Qed.

Lemma obeys_try_catch A (m : M A) (h : exn -> M A) :
  obeys P m -> (forall e, obeys P (h e)) -> obeys P (try_catch m h).
Proof.
  intros Hm Hh s. unfold try_catch. destruct (Hm s) as [evs1 E1].
  destruct (m s) as [[a|e] s1]; simpl in *.
  - exists evs1. exact E1.
  - destruct (Hh e s1) as [evs2 E2]. exists (evs1 ++ evs2).
    eapply extends_trans; eassumption.
Qed.

Lemma obeys_emit ev : P ev = true ->
  match ev with
  | Dom _ _ | Stats _ | History _ => False
  | _ => True
  end -> obeys P (emit ev).
Proof.
  intros HP Hk s. exists [ev].
  apply extends_one; simpl; auto; destruct ev; try contradiction; auto.
Qed.

Lemma obeys_set e m : P (Dom e m) = true -> obeys P (set e m).
Proof.
  intros HP s. unfold set. destruct (page s e).
  - exists [Dom e m]. apply extends_one; simpl; auto.
    intros e'. unfold update. destruct (elem_beq e e') eqn:E; auto.
    apply elem_beq_true in E. subst e'. reflexivity.
  - exists []. apply extends_refl.
Qed.

Lemma obeys_get_value e : obeys P (get_value e).
Proof.
  intros s. unfold get_value. exists [].
  destruct (page s e); apply extends_refl.
Qed.

Lemma obeys_assign_statistics st :
  P (Stats st) = true -> obeys P (assign_statistics st).
Proof. intros HP s. exists [Stats st]. apply extends_one; simpl; auto. Qed.

Lemma obeys_assign_sessionHistory h :
  P (History h) = true -> obeys P (assign_sessionHistory h).
Proof. intros HP s. exists [History h]. apply extends_one; simpl; auto. Qed.

Lemma obeys_setTimeout delay :
  (forall due, P (Timeout due) = true) -> obeys P (setTimeout_hideError delay).
Proof.
  intros HP s. exists [Timeout (clock s + delay)].
  apply extends_one; simpl; auto.
Qed.

Lemma obeys_getItem key : obeys P (getItem key).
Proof.
  intros s. unfold getItem. exists [].
  destruct (localStorage s); apply extends_refl.
Qed.

Lemma obeys_setItem key v : P (Stored key v) = true -> obeys P (setItem key v).
Proof.
  intros HP s. unfold setItem. destruct (localStorage s).
  - exists [Stored key v]. apply extends_one; simpl; auto.
  - exists []. apply extends_refl.
Qed.

Lemma obeys_for_each A (l : list A) (f : A -> M unit) :
  (forall a, obeys P (f a)) -> obeys P (for_each l f).
Proof.
  intros Hf. induction l as [|a l IH]; simpl.
  - apply obeys_ret.
  - apply obeys_bind; auto.
Qed.

End Obeys.

Lemma obeys_unless_suspended P cleanup m :
  obeys P cleanup -> obeys P m -> obeys P (unless_suspended cleanup m).
Proof.
  intros Hc Hm s. unfold unless_suspended. destruct (Hm s) as [evs1 E1].
  destruct (m s) as [o s1]; simpl in *.
  destruct (Hc s1) as [evs2 E2].
  destruct o as [[t|]|e]; simpl.
  - exists evs1. exact E1.
  - exists (evs1 ++ evs2).
    destruct (cleanup s1) as [[[]|e'] s2]; simpl in *;
      eapply extends_trans; eassumption.
  - exists (evs1 ++ evs2).
    destruct (cleanup s1) as [[[]|e'] s2]; simpl in *;
      eapply extends_trans; eassumption.
Qed.

Lemma obeys_in_try P segment :
  (forall e, obeys P (checkUrl_catch e)) -> obeys P checkUrl_finally ->
  obeys P segment -> obeys P (in_try segment).
Proof.
  intros Hc Hf Hs. unfold in_try. apply obeys_unless_suspended; auto.
  apply obeys_try_catch; auto. intros e. apply obeys_bind; auto.
  intros _. apply obeys_ret.
Qed.

Create HintDb controller.

#[local] Hint Unfold showLoading hideLoading hideResult hideError showError
  displayHistory addToSessionHistory loadHistory displayResult increment
  updateStatistics reportUrl clearHistory closeAnnouncement
  checkAnnouncementBanner startup_tasks initializePage checkUrl_catch
  checkUrl_finally now : controller.

Ltac obey_step :=
  first
    [ apply obeys_ret | apply obeys_throw | apply obeys_gets | apply obeys_lift
    | apply obeys_get_value | apply obeys_getItem
    | apply obeys_bind; [ | intros ? ]
    | apply obeys_try_catch; [ | intros ? ]
    | apply obeys_in_try; [ intros ? | | ]
    | apply obeys_for_each; intros ?
    | apply obeys_set; reflexivity
    | apply obeys_emit; [ reflexivity | exact I ]
    | apply obeys_assign_statistics; reflexivity
    | apply obeys_assign_sessionHistory; reflexivity
    | apply obeys_setTimeout; intros ?; reflexivity
    | apply obeys_setItem; reflexivity
    | match goal with
      | |- obeys _ (if ?b then _ else _) => destruct b
      | |- obeys _ (match ?x with _ => _ end) => destruct x
      end
    | progress autounfold with controller ].

Ltac obey := repeat obey_step.

Lemma returns_ret A (Q : A -> Prop) (a : A) : Q a -> returns Q (ret a).
Proof. intros H s. exact H. Qed.

Lemma returns_throw A (Q : A -> Prop) (e : exn) : returns Q (throw e).
Proof. intros s. exact I. Qed.

Lemma returns_bind A B (Q : B -> Prop) (m : M A) (k : A -> M B) :
  (forall a, returns Q (k a)) -> returns Q (bind m k).
Proof.
  intros Hk s. unfold bind. destruct (m s) as [[a|e] s1]; simpl; auto.
  apply Hk.
Qed.

Lemma returns_try_catch A (Q : A -> Prop) (m : M A) (h : exn -> M A) :
  returns Q m -> (forall e, returns Q (h e)) -> returns Q (try_catch m h).
Proof.
  intros Hm Hh s. unfold try_catch. specialize (Hm s).
  destruct (m s) as [[a|e] s1]; simpl in *; auto. apply Hh.
Qed.

Lemma returns_in_try (Q : option task -> Prop) (segment : M (option task)) :
  Q None -> returns Q segment -> returns Q (in_try segment).
Proof.
  intros HN Hs s. unfold in_try, unless_suspended.
  assert (HX : returns Q
                 (try_catch segment (fun error => checkUrl_catch error ;; ret None))).
  { apply returns_try_catch; auto. intros e. apply returns_bind.
    intros _. apply returns_ret. exact HN. }
  specialize (HX s).
  destruct (try_catch _ _ s) as [[[t|]|e] s1]; simpl in *; auto;
    destruct (checkUrl_finally s1) as [[[]|e'] s2]; simpl; auto.
Qed.

Ltac returning :=
  repeat first
    [ apply returns_in_try; [ exact I | ]
    | apply returns_bind; intros ?
    | apply returns_ret; exact I
    | apply returns_throw
    | match goal with
      | |- returns _ (if ?b then _ else _) => destruct b
      | |- returns _ (match ?x with _ => _ end) => destruct x
      end ].

Lemma checkUrl_catch_obeys e : obeys not_cleanup (checkUrl_catch e).
Proof. obey. Qed.

(** The [finally] block on a page that has the two controls. *)
Lemma checkUrl_finally_spec s :
  page s urlInput = true -> page s checkButton = true ->
  exists s', checkUrl_finally s = (Normal tt, s') /\
    trace s' = trace s ++ cleanup /\ page s' = page s /\ unlocked s'.
Proof.
  intros Hu Hc. unfold checkUrl_finally, bind, set; simpl.
  rewrite Hu; simpl. rewrite Hc; simpl. rewrite Hc; simpl.
  eexists; split; [reflexivity|]. simpl.
  rewrite <- !app_assoc. repeat split.
Qed.

(** A segment of the [try] statement either leaves the invocation
    suspended, having written no cleanup, or ends it with the cleanup as
    its last three writes. *)
Lemma in_try_spec (segment : M (option task)) s :
  obeys not_cleanup segment ->
  page s urlInput = true -> page s checkButton = true ->
  exists evs, forallb not_cleanup evs = true /\
    page (snd (in_try segment s)) = page s /\
    if suspended (in_try segment s)
    then trace (snd (in_try segment s)) = trace s ++ evs
    else trace (snd (in_try segment s)) = trace s ++ evs ++ cleanup /\
         unlocked (snd (in_try segment s)).
Proof.
  intros Hseg Hu Hc. unfold in_try, unless_suspended.
  assert (HX : obeys not_cleanup
                 (try_catch segment (fun error => checkUrl_catch error ;; ret None))).
  { apply obeys_try_catch; auto. intros e. apply obeys_bind.
    - apply checkUrl_catch_obeys.
    - intros _. apply obeys_ret. }
  destruct (HX s) as (evs & T & F & Pg & _).
  destruct (try_catch _ _ s) as [o s1]; simpl in *.
  destruct (checkUrl_finally_spec s1) as (s2 & E & T2 & P2 & U2);
    [congruence | congruence |].
  exists evs. split; [exact F|].
  destruct o as [[t|]|e]; simpl.
  - auto.
  - rewrite E; simpl. rewrite T2, T, P2, Pg, <- app_assoc. auto.
  - rewrite E; simpl. rewrite T2, T, P2, Pg, <- app_assoc. auto.
Qed.

Lemma checkUrl_valid s url :
  page s urlInput = true ->
  validate (field_value (dom s urlInput)) = inr url ->
  checkUrl s =
  in_try
    (set urlInput (SetDisabled true) ;;
     set checkButton (SetDisabled true) ;;
     set checkButton (SetContent (Html checking_label)) ;;
     showLoading ;;
     hideError ;;
     hideResult ;;
     startTime <- now ;;
     emit (Request PREDICT_URL url) ;;
     ret (Some (AwaitFetch url startTime))) s.
Proof.
  intros Hu Hv. unfold checkUrl at 1, bind at 1, get_value.
  rewrite Hu, Hv. reflexivity.
Qed.

Lemma checkUrl_returns : returns at_fetch checkUrl.
Proof.
  unfold checkUrl. apply returns_bind; intros raw.
  destruct (validate raw) as [[]|url]; returning.
Qed.

Lemma after_fetch_returns url t0 response :
  returns at_body (after_fetch url t0 response).
Proof. unfold after_fetch. returning. Qed.

Lemma after_error_body_returns body : returns at_end (after_error_body body).
Proof. unfold after_error_body. returning. Qed.

Lemma after_data_returns url t0 body : returns at_end (after_data url t0 body).
Proof. unfold after_data. returning. Qed.

Lemma after_fetch_spec url t0 response s :
  page s urlInput = true -> page s checkButton = true ->
  exists evs, forallb not_cleanup evs = true /\
    page (snd (after_fetch url t0 response s)) = page s /\
    if suspended (after_fetch url t0 response s)
    then trace (snd (after_fetch url t0 response s)) = trace s ++ evs
    else trace (snd (after_fetch url t0 response s)) = trace s ++ evs ++ cleanup /\
         unlocked (snd (after_fetch url t0 response s)).
Proof. intros. unfold after_fetch. apply in_try_spec; auto. obey. Qed.

Lemma after_error_body_spec body s :
  page s urlInput = true -> page s checkButton = true ->
  exists evs, forallb not_cleanup evs = true /\
    trace (snd (after_error_body body s)) = trace s ++ evs ++ cleanup /\
    unlocked (snd (after_error_body body s)) /\
    suspended (after_error_body body s) = false.
Proof.
  intros Hu Hc. pose proof (after_error_body_returns body s) as R.
  unfold after_error_body in *.
  match goal with
  | |- context [in_try ?seg s] =>
      destruct (in_try_spec seg s) as (evs & F & _ & H); auto; [obey|];
      destruct (in_try seg s) as [[[t|]|e] s1]
  end; simpl in *; try contradiction; exists evs; tauto.
Qed.

Lemma after_data_spec url t0 body s :
  page s urlInput = true -> page s checkButton = true ->
  exists evs, forallb not_cleanup evs = true /\
    trace (snd (after_data url t0 body s)) = trace s ++ evs ++ cleanup /\
    unlocked (snd (after_data url t0 body s)) /\
    suspended (after_data url t0 body s) = false.
Proof.
  intros Hu Hc. pose proof (after_data_returns url t0 body s) as R.
  unfold after_data in *.
  match goal with
  | |- context [in_try ?seg s] =>
      destruct (in_try_spec seg s) as (evs & F & _ & H); auto; [obey|];
      destruct (in_try seg s) as [[[t|]|e] s1]
  end; simpl in *; try contradiction; exists evs; tauto.
Qed.

(** C2. Every execution of [checkUrl] that passes validation, whatever the
    network answers and whichever step throws, ends with the input field
    and the trigger enabled and the trigger's default label restored; the
    three cleanup writes are the last effects of the invocation and occur
    nowhere else in it. *)
Theorem checkUrl_cleanup_exactly_once :
  forall (s : State) (url : jsstring) (response : settled bool)
         (body : settled value),
    page s urlInput = true ->
    page s checkButton = true ->
    validate (field_value (dom s urlInput)) = inr url ->
    suspended (lifecycle response body s) = false /\
    unlocked (snd (lifecycle response body s)) /\
    exists evs,
      trace (snd (lifecycle response body s)) = trace s ++ evs ++ cleanup /\
      forallb not_cleanup evs = true.
Proof.
  intros s url response body Hu Hc Hv. unfold lifecycle.
  pose proof (checkUrl_returns s) as R1.
  rewrite (checkUrl_valid s url Hu Hv) in *.
  match goal with
  | |- context [in_try ?seg s] =>
      destruct (in_try_spec seg s) as (evs1 & F1 & P1 & H1); auto; [obey|];
      destruct (in_try seg s) as [[[t1|]|e1] s1]
  end; simpl in *; try (destruct H1; eauto; fail).
  destruct t1 as [u t0|u t0|u t0]; try contradiction. simpl.
  pose proof (after_fetch_returns u t0 response s1) as R2.
  destruct (after_fetch_spec u t0 response s1) as (evs2 & F2 & P2 & H2);
    try congruence.
  destruct (after_fetch u t0 response s1) as [[[t2|]|e2] s2]; simpl in *.
  - assert (Hu2 : page s2 urlInput = true) by congruence.
    assert (Hc2 : page s2 checkButton = true) by congruence.
    destruct t2 as [u' t0'|u' t0'|u' t0']; try contradiction.
    + destruct (after_error_body_spec body s2 Hu2 Hc2) as (evs3 & F3 & T3 & U3 & S3).
      split; [exact S3|]. split; [exact U3|]. exists (evs1 ++ evs2 ++ evs3).
      rewrite T3, H2, H1, !forallb_app, F1, F2, F3, <- !app_assoc. auto.
    + destruct (after_data_spec u' t0' body s2 Hu2 Hc2) as (evs3 & F3 & T3 & U3 & S3).
      split; [exact S3|]. split; [exact U3|]. exists (evs1 ++ evs2 ++ evs3).
      rewrite T3, H2, H1, !forallb_app, F1, F2, F3, <- !app_assoc. auto.
  - destruct H2 as [T2 U2]. split; [reflexivity|]. split; [exact U2|].
    exists (evs1 ++ evs2). rewrite T2, H1, forallb_app, F1, F2, <- !app_assoc. auto.
  - destruct H2 as [T2 U2]. split; [reflexivity|]. split; [exact U2|].
    exists (evs1 ++ evs2). rewrite T2, H1, forallb_app, F1, F2, <- !app_assoc. auto.
Qed.

(** *** The history buffer *)

Lemma firstn_all_le A (l : list A) n : (List.length l <= n)%nat -> firstn n l = l.
Proof.
  revert n; induction l as [|x l IH]; intros [|n] H; simpl in *;
    try reflexivity; try lia.
  f_equal. apply IH. lia.
Qed.

Lemma push_firstn item h : push item h = firstn 10 (item :: h).
Proof.
  unfold push. destruct (10 <? List.length (item :: h))%nat eqn:E; auto.
  apply Nat.ltb_ge in E. symmetry. apply firstn_all_le. exact E.
Qed.

Lemma firstn_app_firstn A (a b : list A) n m :
  (n <= m)%nat -> firstn n (a ++ firstn m b) = firstn n (a ++ b).
Proof.
  revert n; induction a as [|x a IH]; intros n H; simpl.
  - rewrite firstn_firstn. f_equal. lia.
  - destruct n; simpl; auto. f_equal. apply IH. lia.
Qed.

Lemma push_all r rs h :
  fold_left (fun h r => push r h) (r :: rs) h = firstn 10 (rev (r :: rs) ++ h).
Proof.
  revert r h; induction rs as [|r' rs IH]; intros r h.
  - simpl. apply push_firstn.
  - change (fold_left (fun h r => push r h) (r :: r' :: rs) h)
      with (fold_left (fun h r => push r h) (r' :: rs) (push r h)).
    rewrite IH, push_firstn.
    change (rev (r :: r' :: rs)) with (rev (r' :: rs) ++ [r]).
    rewrite <- (app_assoc _ [r] h). simpl ([r] ++ h).
    apply firstn_app_firstn. lia.
Qed.

Lemma replay_history_frame evs h :
  forallb not_history evs = true -> replay_history evs h = h.
Proof.
  revert h; induction evs as [|ev evs IH]; intros h H; simpl in *; auto.
  apply andb_true_iff in H. destruct H as [H1 H2].
  destruct ev; simpl in *; try discriminate; apply IH; auto.
Qed.

Lemma replay_statistics_frame evs st :
  forallb not_stats evs = true -> replay_statistics evs st = st.
Proof.
  revert st; induction evs as [|ev evs IH]; intros st H; simpl in *; auto.
  apply andb_true_iff in H. destruct H as [H1 H2].
  destruct ev; simpl in *; try discriminate; apply IH; auto.
Qed.

Lemma displayHistory_obeys P h :
  (forall e m, P (Dom e m) = true) -> obeys P (displayHistory h).
Proof.
  intros HP. unfold displayHistory. destruct (List.length h =? 0)%nat.
  - apply obeys_set, HP.
  - apply obeys_bind; [apply obeys_set, HP|intros _].
    apply obeys_bind; [|intros _; apply obeys_set, HP].
    apply obeys_for_each. intros item. apply obeys_set, HP.
Qed.

(** C4. [push] puts the record at the front and never leaves more than 10
    records; [addToSessionHistory] stores exactly [push] of the new
    record; and 11 records pushed in sequence, on any buffer, leave
    exactly the 10 most recent ones, newest first, the first-pushed one
    being gone. *)
Theorem history_newest_first_at_most_10 :
  forall (h : list HistoryItem) (item : HistoryItem),
    hd_error (push item h) = Some item /\
    (List.length (push item h) <= 10)%nat /\
    (forall s u v,
        sessionHistory (snd (addToSessionHistory u v s)) =
        push {| url := u; isPhishing := v; timestamp := clock s |}
          (sessionHistory s)) /\
    (forall rs : list HistoryItem,
        List.length rs = 11%nat ->
        fold_left (fun h r => push r h) rs h = rev (tl rs) /\
        List.length (fold_left (fun h r => push r h) rs h) = 10%nat /\
        (NoDup rs ->
         ~ In (hd item rs) (fold_left (fun h r => push r h) rs h))).
Proof.
  intros h item. split; [|split; [|split]].
  - rewrite push_firstn. reflexivity.
  - rewrite push_firstn. apply firstn_le_length.
  - intros s u v. unfold addToSessionHistory, now, bind at 1 2 3, gets,
      assign_sessionHistory. simpl.
    match goal with
    | |- context [bind ?m ?k ?s0] =>
        assert (O : obeys not_history (bind m k));
        [ apply obeys_bind;
          [ apply obeys_gets
          | intros; apply displayHistory_obeys; reflexivity ]
        | destruct (O s0) as (evs & _ & F & _ & _ & _ & _ & H) ]
    end.
    rewrite H. apply replay_history_frame. exact F.
  - intros rs Hlen.
    destruct rs as [|r rs]; [discriminate|].
    assert (E : fold_left (fun h r => push r h) (r :: rs) h = rev rs).
    { rewrite push_all. simpl rev. rewrite <- app_assoc.
      assert (L : List.length (rev rs) = 10%nat)
        by (rewrite length_rev; simpl in Hlen; lia).
      rewrite firstn_app, L, firstn_all_le by lia. simpl. apply app_nil_r. }
    rewrite E. simpl tl. simpl hd. split; [reflexivity|]. split.
    + rewrite length_rev. simpl in Hlen. lia.
    + intros ND Hin. apply in_rev in Hin. inversion ND; auto.
Qed.

(** *** Clearing the history *)

(** Symbolic execution on a state given by its fields: [pg] is the page. *)
Ltac on_page pg :=
  repeat (cbn;
          match goal with
          | |- context [pg ?e] => destruct (pg e) eqn:?
          end);
  cbn.

Lemma clearHistory_effect s :
  sessionHistory (snd (clearHistory s)) = [] /\
  statistics (snd (clearHistory s)) = statistics s /\
  page (snd (clearHistory s)) = page s /\
  (page s historyList = true ->
   body (dom (snd (clearHistory s)) historyList) = Rows []).
Proof.
  destruct s as [pg d st h ls ck tm ln tr].
  unfold clearHistory, showError, try_catch, bind, emit, set,
    assign_sessionHistory, setTimeout_hideError, ret.
  on_page pg; repeat split; intros; try reflexivity; try discriminate.
Qed.

Lemma loadHistory_empty s :
  sessionHistory s = [] ->
  sessionHistory (snd (loadHistory s)) = [] /\
  statistics (snd (loadHistory s)) = statistics s /\
  dom (snd (loadHistory s)) historyList = dom s historyList /\
  (page s historyContainer = true ->
   hidden (dom (snd (loadHistory s)) historyContainer) = true).
Proof.
  destruct s as [pg d st h ls ck tm ln tr]. simpl. intros ->.
  unfold loadHistory, displayHistory, try_catch, bind, emit, set, gets.
  on_page pg; repeat split; intros; try reflexivity; try discriminate.
Qed.

(** C10. [clearHistory] empties the buffer and leaves the statistics as
    they were; the list element, when the page has one, shows no entry;
    a later [loadHistory] shows none either and hides the history
    container. *)
Theorem clearHistory_empties_history_only :
  forall s : State,
    sessionHistory (snd (clearHistory s)) = [] /\
    statistics (snd (clearHistory s)) = statistics s /\
    (page s historyList = true ->
     body (dom (snd (clearHistory s)) historyList) = Rows []) /\
    sessionHistory (snd (loadHistory (snd (clearHistory s)))) = [] /\
    statistics (snd (loadHistory (snd (clearHistory s)))) = statistics s /\
    (page s historyList = true ->
     body (dom (snd (loadHistory (snd (clearHistory s)))) historyList)
     = Rows []) /\
    (page s historyContainer = true ->
     hidden (dom (snd (loadHistory (snd (clearHistory s)))) historyContainer)
     = true).
Proof.
  intros s. destruct (clearHistory_effect s) as (H & S & Pg & L).
  destruct (loadHistory_empty (snd (clearHistory s)) H) as (H' & S' & L' & C').
  rewrite S', L', Pg in *. tauto.
Qed.

(** *** Validation *)

Lemma In_drop_while p c s : In c (drop_while p s) -> In c s.
Proof.
  induction s as [|x s IH]; simpl; auto.
  destruct (p x); simpl; auto.
Qed.

Lemma In_strip p c s : In c (strip p s) -> In c s.
Proof.
  unfold strip. intros H.
  apply in_rev, In_drop_while, in_rev, In_drop_while in H. exact H.
Qed.

Lemma scheme_state_needs_colon buffer input :
  ~ In 58%N input -> scheme_state buffer input = None.
Proof.
  revert buffer; induction input as [|c rest IH]; intros buffer H; simpl; auto.
  destruct (is_scheme_char c).
  - apply IH. intros Hin. apply H. right. exact Hin.
  - destruct (N.eqb_spec c 58) as [->|]; [|reflexivity].
    exfalso. apply H. left. reflexivity.
Qed.

Lemma basic_url_parser_needs_colon input :
  ~ In 58%N input -> basic_url_parser input = false.
Proof.
  intros H. unfold basic_url_parser, scheme_start_state.
  destruct (filter _ _) as [|c rest] eqn:E; auto.
  destruct (is_alpha c); auto.
  rewrite scheme_state_needs_colon; auto.
  intros Hin. apply H.
  assert (Hc : In 58%N (c :: rest)) by (right; exact Hin).
  rewrite <- E in Hc. apply filter_In in Hc. destruct Hc as [Hc _].
  apply In_strip in Hc. exact Hc.
Qed.

(** *** One request in flight *)




Lemma in_try_suspended segment s t s' :
  in_try segment s = (Normal (Some t), s') ->
  segment s = (Normal (Some t), s').
Proof.
  unfold in_try, unless_suspended, try_catch, bind, ret.
  destruct (segment s) as [[[t1|]|e] s1]; simpl; auto.
  - destruct (checkUrl_finally s1) as [[[]|e'] s2]; discriminate.
  - destruct (checkUrl_catch e s1) as [[[]|e1] s2]; simpl;
      destruct (checkUrl_finally s2) as [[[]|e'] s3]; discriminate.
Qed.

Lemma suspended_eq (r : outcome (option task) * State) :
  suspended r = true -> exists t, r = (Normal (Some t), snd r).
Proof.
  destruct r as [[[t|]|e] s]; simpl; try discriminate. eauto.
Qed.



Lemma after_fetch_suspended_same u t0 r s :
  suspended (after_fetch u t0 r s) = true -> snd (after_fetch u t0 r s) = s.
Proof.
  intros H. apply suspended_eq in H. destruct H as [t H].
  destruct (after_fetch u t0 r s) as [o s'] eqn:E. simpl in *.
  injection H as Ho. subst o. unfold after_fetch in E.
  apply in_try_suspended in E. revert E. unfold bind, lift, ret, throw.
  destruct r as [e|[|]]; simpl; intros E; try discriminate E;
    injection E as _ <-; reflexivity.
Qed.



















(** *** A successful check on a complete page *)

Section Succeeds.
Variable P : effect -> bool.

Lemma succeeds_ret A (a : A) : succeeds P (ret a).
Proof. split; [apply obeys_ret|]. intros s _. exists a. reflexivity. Qed.

Lemma succeeds_gets A (f : State -> A) : succeeds P (gets f).
Proof. split; [apply obeys_gets|]. intros s _. exists (f s). reflexivity. Qed.

Lemma succeeds_bind A B (m : M A) (k : A -> M B) :
  succeeds P m -> (forall a, succeeds P (k a)) -> succeeds P (bind m k).
Proof.
  intros [Om Sm] Hk. split.
  - apply obeys_bind; auto. intros a. apply Hk.
  - intros s C. unfold bind. destruct (Sm s C) as [a Ha].
    destruct (Om s) as (evs & _ & _ & Pg & _).
    destruct (m s) as [o s1]; simpl in *. subst o.
    apply (proj2 (Hk a)). intros e. rewrite Pg. apply C.
Qed.

Lemma succeeds_try_catch A (m : M A) (h : exn -> M A) :
  succeeds P m -> (forall e, obeys P (h e)) -> succeeds P (try_catch m h).
Proof.
  intros [Om Sm] Hh. split.
  - apply obeys_try_catch; auto.
  - intros s C. unfold try_catch. destruct (Sm s C) as [a Ha].
    destruct (m s) as [o s1]; simpl in *. subst o. exists a. reflexivity.
Qed.

Lemma succeeds_set e m : P (Dom e m) = true -> succeeds P (set e m).
Proof.
  intros HP. split; [apply obeys_set, HP|].
  intros s C. unfold set. rewrite C. exists tt. reflexivity.
Qed.

Lemma succeeds_emit ev : P ev = true ->
  match ev with
  | Dom _ _ | Stats _ | History _ => False
  | _ => True
  end -> succeeds P (emit ev).
Proof.
  intros HP K. split; [apply obeys_emit; assumption|].
  intros s _. exists tt. reflexivity.
Qed.

Lemma succeeds_for_each A (l : list A) (f : A -> M unit) :
  (forall a, succeeds P (f a)) -> succeeds P (for_each l f).
Proof.
  intros Hf. induction l as [|a l IH]; simpl.
  - apply succeeds_ret.
  - apply succeeds_bind; auto.
Qed.

End Succeeds.

Ltac succeed :=
  repeat first
    [ apply succeeds_ret | apply succeeds_gets
    | apply succeeds_bind; [ | intros ? ]
    | apply succeeds_try_catch; [ | intros ?; obey ]
    | apply succeeds_for_each; intros ?
    | apply succeeds_set; reflexivity
    | apply succeeds_emit; [ reflexivity | exact I ]
    | match goal with
      | |- succeeds _ (if ?b then _ else _) => destruct b
      end
    | progress autounfold with controller ].

Section Marked.
Variable mark : effect -> bool.

Lemma quiet_no_milestone evs :
  forallb (quiet mark) evs = true ->
  forallb scripted evs = true /\ filter mark evs = [].
Proof.
  induction evs as [|ev evs IH]; simpl; auto.
  unfold quiet at 1. rewrite !andb_true_iff. intros [[S N] H].
  destruct (IH H) as [IS IF]. rewrite S, IS.
  destruct (mark ev); [discriminate|]. auto.
Qed.

Lemma result_on_complete {A s} {m : M A} {a ms s'} :
  result_on mark s m a ms s' -> complete s -> complete s'.
Proof.
  intros (_ & evs & (_ & _ & Pg & _) & _) C e. rewrite Pg. apply C.
Qed.

Lemma succeeds_result {A} {m : M A} {s} :
  succeeds (quiet mark) m -> complete s ->
  exists a s', result_on mark s m a [] s'.
Proof.
  intros [O S] C. destruct (S s C) as [a Ha].
  destruct (O s) as (evs & T & F & R).
  destruct (m s) as [o s'] eqn:E; simpl in *. subst o.
  exists a, s'. split; [exact E|].
  destruct (quiet_no_milestone evs F) as [FS FM].
  exists evs. split; [|exact FM]. split; [exact T|]. split; assumption.
Qed.

Lemma result_on_bind {A B s} {m : M A} {k : A -> M B} {a ms1 s1 b ms2 s2} :
  result_on mark s m a ms1 s1 -> result_on mark s1 (k a) b ms2 s2 ->
  result_on mark s (bind m k) b (ms1 ++ ms2) s2.
Proof.
  intros (E1 & evs1 & X1 & F1) (E2 & evs2 & X2 & F2). split.
  - unfold bind. rewrite E1. exact E2.
  - exists (evs1 ++ evs2). split.
    + eapply extends_trans; eassumption.
    + rewrite filter_app, F1, F2. reflexivity.
Qed.

Lemma result_on_intro A (m : M A) s a s' evs ms :
  obeys scripted m -> m s = (Normal a, s') ->
  trace s' = trace s ++ evs -> filter mark evs = ms ->
  result_on mark s m a ms s'.
Proof.
  intros O E T F. split; [exact E|].
  destruct (O s) as (evs' & X). rewrite E in X. simpl in X.
  assert (evs' = evs) as ->.
  { destruct X as (T' & _). rewrite T in T'. apply app_inv_head in T'.
    congruence. }
  exists evs. auto.
Qed.

Lemma replay_dom_value e evs n :
  forallb scripted evs = true ->
  field_value (replay_dom e evs n) = field_value n.
Proof.
  revert n; induction evs as [|ev evs IH]; intros n H; simpl in *; auto.
  apply andb_true_iff in H. destruct H as [H1 H2].
  unfold replay_dom in *. rewrite IH; auto.
  destruct ev as [e' []| | | | | | |]; simpl in *; auto;
    destruct (elem_beq e' e); auto; discriminate.
Qed.

Lemma result_on_ret {A} s (a : A) : result_on mark s (ret a) a [] s.
Proof.
  split; [reflexivity|]. exists []. split; [apply extends_refl|reflexivity].
Qed.

Lemma result_on_gets {A} s (f : State -> A) : result_on mark s (gets f) (f s) [] s.
Proof.
  split; [reflexivity|]. exists []. split; [apply extends_refl|reflexivity].
Qed.

Lemma result_on_bind_ex {A B s} {m : M A} {k : A -> M B} {a ms1 s1 b ms2} :
  result_on mark s m a ms1 s1 ->
  (exists s2, result_on mark s1 (k a) b ms2 s2) ->
  exists s2, result_on mark s (bind m k) b (ms1 ++ ms2) s2.
Proof.
  intros R1 [s2 R2]. exists s2. eapply result_on_bind; eassumption.
Qed.

Lemma result_on_set s e m :
  complete s -> scripted (Dom e m) = true ->
  result_on mark s (set e m) tt (filter mark [Dom e m]) (snd (set e m s)).
Proof.
  intros C S.
  apply result_on_intro with (evs := [Dom e m]);
    [ apply obeys_set; exact S | | | reflexivity ];
    unfold set; rewrite C; reflexivity.
Qed.

End Marked.

Arguments result_on_complete {mark A s m a ms s'}.
Arguments succeeds_result {mark A m s}.
Arguments result_on_bind {mark A B s m k a ms1 s1 b ms2 s2}.
Arguments result_on_bind_ex {mark A B s m k a ms1 s1 b ms2}.

Lemma replay_statistics_milestones evs st :
  replay_statistics (filter is_milestone evs) st = replay_statistics evs st.
Proof.
  revert st; induction evs as [|ev evs IH]; intros st; simpl; auto.
  destruct ev as [[] []| | | | | | |]; simpl; auto.
Qed.

Lemma replay_history_milestones evs h :
  replay_history (filter is_milestone evs) h = replay_history evs h.
Proof.
  revert h; induction evs as [|ev evs IH]; intros h; simpl; auto.
  destruct ev as [[] []| | | | | | |]; simpl; auto.
Qed.

(** What a run with milestones [ms] leaves in the variables and in the
    input field. *)
Lemma result_on_state {A s} {m : M A} {a ms s'} :
  result_on is_milestone s m a ms s' ->
  statistics s' = replay_statistics ms (statistics s) /\
  sessionHistory s' = replay_history ms (sessionHistory s) /\
  field_value (dom s' urlInput) = field_value (dom s urlInput).
Proof.
  intros (_ & evs & (_ & F & _ & _ & D & S & H) & <-).
  rewrite replay_statistics_milestones, replay_history_milestones, D.
  rewrite replay_dom_value; auto.
Qed.

Lemma result_on_assign_sessionHistory s h :
  result_on is_milestone s (assign_sessionHistory h) tt [History h]
    (snd (assign_sessionHistory h s)).
Proof.
  eapply result_on_intro; [obey|reflexivity|reflexivity|reflexivity].
Qed.

Lemma displayHistory_succeeds h : succeeds (quiet is_milestone) (displayHistory h).
Proof.
  unfold displayHistory. destruct (List.length h =? 0)%nat; succeed.
Qed.

Lemma result_on_assign_statistics s st :
  result_on is_milestone s (assign_statistics st) tt [Stats st]
    (snd (assign_statistics st s)).
Proof.
  eapply result_on_intro; [obey|reflexivity|reflexivity|reflexivity].
Qed.

(** One step of a sequence on a complete page [C]: [after R C] when the
    first statement has the result [R], [quiet_then C] when it is a block
    without milestones. *)
Ltac after R C :=
  let C1 := fresh "C" in
  pose proof (result_on_complete R C) as C1;
  eapply (result_on_bind_ex R);
  clear C; rename C1 into C.

Ltac quiet_then C :=
  match goal with
  | |- exists s2, result_on ?mark ?s (bind ?m ?k) ?b ?ms s2 =>
      let s1 := fresh "s" in
      let R := fresh "R" in
      let S := fresh "S" in
      assert (S : succeeds (quiet mark) m) by succeed;
      destruct (succeeds_result S C) as ([] & s1 & R);
      clear S; after R C
  end.

Ltac quiet_end C :=
  match goal with
  | |- exists s2, result_on ?mark ?s ?m ?b ?ms s2 =>
      let S := fresh "S" in
      assert (S : succeeds (quiet mark) m) by succeed;
      destruct (succeeds_result S C) as ([] & ? & ?);
      eexists; eassumption
  end.

Ltac set_then C :=
  match goal with
  | |- exists s2, result_on ?mark ?s (bind (set ?e ?m) ?k) _ _ s2 =>
      let R := fresh "R" in
      pose proof (result_on_set mark s e m C eq_refl) as R;
      simpl filter in R; after R C
  end.

Ltac gets_then C :=
  match goal with
  | |- exists s2, result_on ?mark ?s (bind (gets ?f) ?k) _ _ s2 =>
      let R := fresh "R" in
      pose proof (result_on_gets mark s f) as R; after R C
  end.

Lemma displayResult_result s fields t :
  complete s ->
  exists s',
    result_on is_milestone s (displayResult (VObject fields) t) tt
      [Dom resultTitle
         (SetContent
            (Text (verdict_title (own_property (js "isPhishing") fields))))]
      s'.
Proof.
  intros C. unfold displayResult, verdict_title.
  quiet_then C.
  pose proof (result_on_ret is_milestone s0
                (own_property (js "isPhishing") fields)) as R0.
  after R0 C. cbv beta.
  destruct (truthy (own_property (js "isPhishing") fields)).
  - match goal with
    | |- exists s2, result_on is_milestone _ (bind ?m _) _ _ s2 =>
        assert (X : exists s', result_on is_milestone s0 m tt
                      [Dom resultTitle
                         (SetContent (Text (js "Phishing URL Detected!")))] s')
    end.
    { quiet_then C. quiet_then C. set_then C. quiet_end C. }
    destruct X as [s1 X]. after X C. quiet_end C.
  - match goal with
    | |- exists s2, result_on is_milestone _ (bind ?m _) _ _ s2 =>
        assert (X : exists s', result_on is_milestone s0 m tt
                      [Dom resultTitle (SetContent (Text (js "Safe URL")))] s')
    end.
    { quiet_then C. quiet_then C. set_then C. quiet_end C. }
    destruct X as [s1 X]. after X C. quiet_end C.
Qed.

Lemma addToSessionHistory_result s u v :
  complete s ->
  exists s',
    result_on is_milestone s (addToSessionHistory u v) tt
      [History (push {| url := u; isPhishing := v; timestamp := clock s |}
                  (sessionHistory s))]
      s'.
Proof.
  intros C. unfold addToSessionHistory, now.
  gets_then C. gets_then C.
  match goal with
  | |- exists s2, result_on is_milestone ?s0 (bind (assign_sessionHistory ?h) _) _ _ s2 =>
      pose proof (result_on_assign_sessionHistory s0 h) as A1
  end.
  after A1 C. gets_then C.
  match goal with
  | |- exists s2, result_on is_milestone _ (displayHistory ?h) _ _ s2 =>
      destruct (succeeds_result (displayHistory_succeeds h) C) as ([] & sd & RD)
  end.
  exists sd. exact RD.
Qed.

Lemma increment_result s f :
  result_on is_milestone s (increment f) tt [Stats (f (statistics s))]
    (snd (assign_statistics (f (statistics s)) s)).
Proof.
  unfold increment.
  change [Stats (f (statistics s))] with ([] ++ [Stats (f (statistics s))]).
  eapply result_on_bind; [apply result_on_gets|].
  apply result_on_assign_statistics.
Qed.

Lemma updateStatistics_result s v :
  complete s ->
  exists s',
    result_on is_milestone s (updateStatistics v) tt
      [Stats {| totalScans := totalScans (statistics s) + 1;
                safeUrls := safeUrls (statistics s);
                phishingUrls := phishingUrls (statistics s) |};
       Stats (count_scan v (statistics s))]
      s'.
Proof.
  intros C. unfold updateStatistics, count_scan.
  match goal with
  | |- exists s2, result_on is_milestone ?s0 (bind (increment ?f) _) _ _ s2 =>
      pose proof (increment_result s0 f) as I1
  end.
  after I1 C. cbv beta.
  destruct (truthy v).
  - match goal with
    | |- exists s2, result_on is_milestone ?s0 (bind (increment ?f) _) _ _ s2 =>
        pose proof (increment_result s0 f) as I2
    end.
    after I2 C. quiet_end C.
  - match goal with
    | |- exists s2, result_on is_milestone ?s0 (bind (increment ?f) _) _ _ s2 =>
        pose proof (increment_result s0 f) as I2
    end.
    after I2 C. quiet_end C.
Qed.

Lemma in_try_suspends segment s t s1 :
  segment s = (Normal (Some t), s1) ->
  in_try segment s = (Normal (Some t), s1).
Proof.
  intros E. unfold in_try, unless_suspended, try_catch. rewrite E. reflexivity.
Qed.

Lemma in_try_result {segment s ms s2} :
  complete s -> result_on is_milestone s segment None ms s2 ->
  exists s3, result_on is_milestone s (in_try segment) None ms s3.
Proof.
  intros C R. pose proof (result_on_complete R C) as C2.
  assert (S : succeeds (quiet is_milestone) checkUrl_finally) by succeed.
  destruct (succeeds_result S C2) as ([] & s3 & R3).
  exists s3. destruct R as (E & evs & X & F). destruct R3 as (E3 & evs3 & X3 & F3).
  split.
  - unfold in_try, unless_suspended, try_catch. rewrite E, E3. reflexivity.
  - exists (evs ++ evs3). split.
    + eapply extends_trans; eassumption.
    + rewrite filter_app, F, F3. apply app_nil_r.
Qed.

Lemma checkUrl_result s url :
  complete s ->
  validate (field_value (dom s urlInput)) = inr url ->
  exists t0 s1, result_on is_milestone s checkUrl (Some (AwaitFetch url t0)) [] s1.
Proof.
  intros C Hv. unfold result_on. rewrite (checkUrl_valid s url (C urlInput) Hv).
  match goal with
  | |- context [in_try ?seg s] =>
      assert (S : succeeds (quiet is_milestone) seg) by succeed;
      assert (Q : returns (fun o => exists t0, o = Some (AwaitFetch url t0)) seg)
  end.
  { repeat (apply returns_bind; intros ?). apply returns_ret. eauto. }
  destruct (succeeds_result S C) as (a & s1 & E & X).
  specialize (Q s). rewrite E in Q. destruct Q as [t0 ->].
  exists t0, s1. split; [|exact X]. apply in_try_suspends. exact E.
Qed.

Lemma after_fetch_ok u t0 s :
  after_fetch u t0 (inr true) s = (Normal (Some (AwaitData u t0)), s).
Proof. reflexivity. Qed.

Lemma after_fetch_not_ok u t0 s :
  after_fetch u t0 (inr false) s = (Normal (Some (AwaitErrorBody u t0)), s).
Proof. reflexivity. Qed.

(** The success segment on a complete page: the verdict is written, then
    the history is assigned, then the statistics. *)
Lemma after_data_result s u t0 fields :
  complete s ->
  exists item s',
    url item = u /\
    isPhishing item = own_property (js "isPhishing") fields /\
    result_on is_milestone s (after_data u t0 (inr (VObject fields))) None
      [Dom resultTitle
         (SetContent
            (Text (verdict_title (own_property (js "isPhishing") fields))));
       History (push item (sessionHistory s));
       Stats {| totalScans := totalScans (statistics s) + 1;
                safeUrls := safeUrls (statistics s);
                phishingUrls := phishingUrls (statistics s) |};
       Stats (count_scan (own_property (js "isPhishing") fields) (statistics s))]
      s'.
Proof.
  intros C. set (v := own_property (js "isPhishing") fields).
  assert (SH : succeeds (quiet is_milestone) hideLoading) by succeed.
  destruct (succeeds_result SH C) as ([] & s1 & R1).
  pose proof (result_on_complete R1 C) as C1.
  destruct (displayResult_result s1 fields (clock s - t0) C1) as (s2 & R2).
  pose proof (result_on_complete R2 C1) as C2.
  destruct (addToSessionHistory_result s2 u v C2) as (s3 & R3).
  pose proof (result_on_complete R3 C2) as C3.
  destruct (updateStatistics_result s3 v C3) as (s4 & R4).
  pose proof (result_on_complete R4 C3) as C4.
  assert (SL : succeeds (quiet is_milestone) loadHistory) by
    (unfold loadHistory; apply succeeds_try_catch;
     [apply succeeds_bind; [apply succeeds_gets|intros; apply displayHistory_succeeds]
     |intros; obey]).
  destruct (succeeds_result SL C4) as ([] & s5 & R5).
  destruct (result_on_state R1) as (St1 & Hi1 & _).
  destruct (result_on_state R2) as (St2 & Hi2 & _).
  destruct (result_on_state R3) as (St3 & Hi3 & _).
  simpl in St1, Hi1, St2, Hi2, St3, Hi3.
  rewrite St3, St2, St1 in R4. rewrite Hi2, Hi1 in R3.
  exists {| url := u; isPhishing := v; timestamp := clock s2 |}.
  unfold after_data.
  match goal with
  | |- context [in_try ?seg] =>
      assert (Rseg : result_on is_milestone s seg None
                [Dom resultTitle (SetContent (Text (verdict_title v)));
                 History (push {| url := u; isPhishing := v;
                                  timestamp := clock s2 |} (sessionHistory s));
                 Stats {| totalScans := totalScans (statistics s) + 1;
                          safeUrls := safeUrls (statistics s);
                          phishingUrls := phishingUrls (statistics s) |};
                 Stats (count_scan v (statistics s))] s5)
  end.
  { eapply (result_on_bind (result_on_ret is_milestone s (VObject fields))).
    eapply (result_on_bind (result_on_gets is_milestone s clock)).
    eapply (result_on_bind R1).
    eapply (result_on_bind R2).
    eapply (result_on_bind (result_on_ret is_milestone s2 v)).
    eapply (result_on_bind R3).
    eapply (result_on_bind (result_on_ret is_milestone s3 v)).
    eapply (result_on_bind R4).
    eapply (result_on_bind R5).
    apply result_on_ret. }
  destruct (in_try_result C Rseg) as [s6 X].
  exists s6. split; [reflexivity|]. split; [reflexivity|]. exact X.
Qed.

(** A whole successful check on a complete page. *)
Lemma lifecycle_success s u fields :
  complete s ->
  validate (field_value (dom s urlInput)) = inr u ->
  exists t0 item s1 s',
    url item = u /\
    result_on is_milestone s checkUrl (Some (AwaitFetch u t0)) [] s1 /\
    result_on is_milestone s1 (after_data u t0 (inr (VObject fields))) None
      [Dom resultTitle
         (SetContent
            (Text (verdict_title (own_property (js "isPhishing") fields))));
       History (push item (sessionHistory s));
       Stats {| totalScans := totalScans (statistics s) + 1;
                safeUrls := safeUrls (statistics s);
                phishingUrls := phishingUrls (statistics s) |};
       Stats (count_scan (own_property (js "isPhishing") fields) (statistics s))]
      s' /\
    lifecycle (inr true) (inr (VObject fields)) s = (Normal None, s').
Proof.
  intros C Hv. destruct (checkUrl_result s u C Hv) as (t0 & s1 & R1).
  pose proof (result_on_complete R1 C) as C1.
  destruct (after_data_result s1 u t0 fields C1) as (item & s' & U & _ & R2).
  destruct (result_on_state R1) as (St & Hi & _). simpl in St, Hi.
  rewrite St, Hi in R2.
  exists t0, item, s1, s'. repeat split; try assumption.
  - apply R1.
  - apply R1.
  - apply R2.
  - apply R2.
  - unfold lifecycle. destruct R1 as (E1 & _). rewrite E1.
    cbv beta iota delta [resume]. rewrite after_fetch_ok. apply R2.
Qed.

(** C5, as the code has it.  In a successful check on a complete page,
    nothing is rendered or updated before the response body has settled;
    the segment that runs then first writes the verdict to the result
    title, next assigns the history (the new record in front), and only
    then the statistics; no other event can run in between, the three
    being in one synchronous segment. *)
Theorem verdict_rendered_then_history_then_statistics :
  forall (s : State) (u : jsstring) (fields : list (jsstring * value)),
    complete s ->
    validate (field_value (dom s urlInput)) = inr u ->
    exists (before after : list effect) (item : HistoryItem) (t0 : Z),
      trace (snd (checkUrl s)) = trace s ++ before /\
      filter is_milestone before = [] /\
      lifecycle (inr true) (inr (VObject fields)) s
      = after_data u t0 (inr (VObject fields)) (snd (checkUrl s)) /\
      trace (snd (lifecycle (inr true) (inr (VObject fields)) s))
      = trace s ++ before ++ after /\
      url item = u /\
      filter is_milestone after =
      [Dom resultTitle
         (SetContent
            (Text (verdict_title (own_property (js "isPhishing") fields))));
       History (push item (sessionHistory s));
       Stats {| totalScans := totalScans (statistics s) + 1;
                safeUrls := safeUrls (statistics s);
                phishingUrls := phishingUrls (statistics s) |};
       Stats (count_scan (own_property (js "isPhishing") fields) (statistics s))].
Proof.
  intros s u fields C Hv.
  destruct (lifecycle_success s u fields C Hv)
    as (t0 & item & s1 & s' & U & R1 & R2 & L).
  destruct R1 as (E1 & evs1 & (T1 & _) & F1).
  destruct R2 as (E2 & evs2 & (T2 & _) & F2).
  exists evs1, evs2, item, t0. rewrite L, E1. simpl.
  repeat split; auto.
  rewrite T2, T1, app_assoc. reflexivity.
Qed.

(** *** Statistics *)

Lemma register_listeners_complete s :
  complete s ->
  exists s', register_listeners s = (Normal tt, s') /\
    page s' = page s /\ dom s' = dom s /\ statistics s' = statistics s.
Proof.
  intros C. destruct s as [pg d st h ls ck tm ln tr].
  unfold complete in C. simpl in C.
  unfold register_listeners, bind, addEventListener, gets, ret.
  repeat (progress (cbn; rewrite ?C)). eexists. repeat split.
Qed.

Lemma not_stats_keeps_statistics {A} (m : M A) s :
  obeys not_stats m -> statistics (snd (m s)) = statistics s.
Proof.
  intros O. destruct (O s) as (evs & _ & F & _ & _ & _ & S & _).
  rewrite S. apply replay_statistics_frame. exact F.
Qed.

Lemma loadHistory_succeeds : succeeds (quiet is_milestone) loadHistory.
Proof.
  unfold loadHistory. apply succeeds_try_catch; [|intros; obey].
  apply succeeds_bind; [apply succeeds_gets|intros; apply displayHistory_succeeds].
Qed.

Lemma initializePage_complete s :
  complete s ->
  statistics (snd (initializePage s)) = count_scan VUndefined (statistics s) /\
  complete (snd (initializePage s)) /\
  field_value (dom (snd (initializePage s)) urlInput)
  = field_value (dom s urlInput).
Proof.
  intros C.
  assert (O : obeys scripted initializePage) by obey.
  destruct (O s) as (evs & _ & F & Pg & _ & D & _).
  split; [|split].
  - assert (S1 : succeeds (quiet is_milestone) hideLoading) by succeed.
    destruct (succeeds_result S1 C) as ([] & s1 & R1).
    pose proof (result_on_complete R1 C) as C1.
    assert (S2 : succeeds (quiet is_milestone) hideError) by succeed.
    destruct (succeeds_result S2 C1) as ([] & s2 & R2).
    pose proof (result_on_complete R2 C1) as C2.
    assert (S3 : succeeds (quiet is_milestone) hideResult) by succeed.
    destruct (succeeds_result S3 C2) as ([] & s3 & R3).
    pose proof (result_on_complete R3 C2) as C3.
    destruct (succeeds_result loadHistory_succeeds C3) as ([] & s4 & R4).
    pose proof (result_on_complete R4 C3) as C4.
    destruct (updateStatistics_result s4 VUndefined C4) as (s5 & R5).
    destruct (result_on_state R1) as (St1 & _).
    destruct (result_on_state R2) as (St2 & _).
    destruct (result_on_state R3) as (St3 & _).
    destruct (result_on_state R4) as (St4 & _).
    destruct (result_on_state R5) as (St5 & _).
    simpl in St1, St2, St3, St4, St5.
    rewrite St4, St3, St2, St1 in St5.
    unfold initializePage, startup_tasks, try_catch, bind.
    rewrite (proj1 R1), (proj1 R2), (proj1 R3), (proj1 R4), (proj1 R5).
    assert (O6 : obeys not_stats checkAnnouncementBanner) by obey.
    pose proof (not_stats_keeps_statistics checkAnnouncementBanner s5 O6) as K.
    destruct (checkAnnouncementBanner s5) as [[[]|e] s6]; simpl in *;
      congruence.
  - intros e. rewrite Pg. apply C.
  - rewrite D. apply replay_dom_value. exact F.
Qed.

Lemma load_complete pg doc stored t :
  (forall e, pg e = true) ->
  statistics (heap (load pg doc stored t))
  = {| totalScans := 1; safeUrls := 1; phishingUrls := 0 |} /\
  complete (heap (load pg doc stored t)) /\
  field_value (dom (heap (load pg doc stored t)) urlInput)
  = field_value (doc urlInput).
Proof.
  intros C. unfold load, main, bind. simpl heap.
  destruct (register_listeners_complete (fresh pg doc stored t) C)
    as (s1 & E & Pg & D & St).
  rewrite E.
  assert (C1 : complete s1) by (intros e; rewrite Pg; apply C).
  destruct (initializePage_complete s1 C1) as (St' & C' & V').
  rewrite St', V', D, St. auto.
Qed.

Lemma successes_statistics bodies : forall s u,
  complete s ->
  validate (field_value (dom s urlInput)) = inr u ->
  totalScans (statistics (successes bodies s))
  = totalScans (statistics s) + Z.of_nat (List.length bodies) /\
  totalScans (statistics (successes bodies s))
  - safeUrls (statistics (successes bodies s))
  - phishingUrls (statistics (successes bodies s))
  = totalScans (statistics s) - safeUrls (statistics s)
    - phishingUrls (statistics s).
Proof.
  induction bodies as [|fields bodies IH]; intros s u C Hv.
  - simpl. lia.
  - destruct (lifecycle_success s u fields C Hv)
      as (t0 & item & s1 & s' & U & R1 & R2 & L).
    pose proof (result_on_complete R2 (result_on_complete R1 C)) as C'.
    destruct (result_on_state R1) as (St1 & _ & V1).
    destruct (result_on_state R2) as (St2 & _ & V2).
    simpl in St1, St2.
    assert (Hv' : validate (field_value (dom s' urlInput)) = inr u)
      by (rewrite V2, V1; exact Hv).
    destruct (IH s' u C' Hv') as [I1 I2].
    unfold successes in *. simpl fold_left. rewrite L. simpl snd.
    rewrite St2 in I1, I2. unfold count_scan in I1, I2. simpl in I1, I2.
    simpl List.length. rewrite Nat2Z.inj_succ.
    destruct (truthy (own_property (js "isPhishing") fields)); lia.
Qed.

(** C3, as the code has it.  On a complete page, after the page has
    loaded and N checks have each been answered with a success object,
    [totalScans] is N + 1, not N: [initializePage] calls
    [updateStatistics()] once with no verdict, which counts a safe scan.
    The counters still add up. *)
Theorem statistics_after_successes :
  forall (pg : elem -> bool) (doc : elem -> node)
         (stored : option (list (jsstring * jsstring))) (t : Z)
         (u : jsstring) (bodies : list (list (jsstring * value))),
    (forall e, pg e = true) ->
    validate (field_value (doc urlInput)) = inr u ->
    totalScans (statistics (successes bodies (heap (load pg doc stored t))))
    = Z.of_nat (List.length bodies) + 1 /\
    totalScans (statistics (successes bodies (heap (load pg doc stored t))))
    = safeUrls (statistics (successes bodies (heap (load pg doc stored t))))
      + phishingUrls
          (statistics (successes bodies (heap (load pg doc stored t)))).
Proof.
  intros pg doc stored t u bodies C Hv.
  destruct (load_complete pg doc stored t C) as (St & C0 & V).
  assert (Hv0 : validate (field_value (dom (heap (load pg doc stored t)) urlInput))
                = inr u) by (rewrite V; exact Hv).
  destruct (successes_statistics bodies _ u C0 Hv0) as [I1 I2].
  rewrite St in I1, I2. cbn [totalScans safeUrls phishingUrls] in I1, I2. lia.
Qed.

(** *** A failed check *)

Lemma not_update_keeps {A} (m : M A) s :
  obeys not_update m ->
  statistics (snd (m s)) = statistics s /\
  sessionHistory (snd (m s)) = sessionHistory s.
Proof.
  intros O. destruct (O s) as (evs & _ & F & _ & _ & _ & S & H).
  rewrite S, H. rewrite forallb_forall in F. split.
  - apply replay_statistics_frame. apply forallb_forall. intros ev Hin.
    specialize (F ev Hin). unfold not_update in F.
    apply andb_true_iff in F. tauto.
  - apply replay_history_frame. apply forallb_forall. intros ev Hin.
    specialize (F ev Hin). unfold not_update in F.
    apply andb_true_iff in F. tauto.
Qed.

Lemma replay_dom_message e evs n :
  e = errorContainer \/ e = errorMessage ->
  replay_dom e (filter is_message evs) n = replay_dom e evs n.
Proof.
  intros He. revert n; induction evs as [|ev evs IH]; intros n; simpl; auto.
  unfold replay_dom in *.
  destruct (is_message ev) eqn:M; simpl; rewrite IH; auto.
  f_equal. destruct ev as [e' m| | | | | | |]; auto.
  destruct He as [-> | ->]; destruct e'; simpl in *; auto; discriminate.
Qed.

Lemma showError_result s message :
  complete s ->
  exists s',
    result_on is_message s (showError message Danger) tt
      [Dom errorContainer (SetHidden false);
       Dom errorMessage (SetContent (Text message));
       Dom errorMessage (SetColour Danger)] s'.
Proof.
  intros C. unfold showError. set_then C. set_then C. set_then C.
  eexists. apply result_on_ret.
Qed.

(** The error branch on a complete page: the message area ends up
    showing the text derived from [detail]. *)
Lemma after_error_body_result s fields :
  complete s ->
  exists s',
    result_on is_message s (after_error_body (inr (VObject fields))) None
      [Dom errorContainer (SetHidden false);
       Dom errorMessage
         (SetContent (Text (error_text (own_property (js "detail") fields))));
       Dom errorMessage (SetColour Danger)] s'.
Proof.
  intros C.
  set (detail := own_property (js "detail") fields).
  set (error :=
         Exn Error (to_string (if truthy detail then detail
                               else VString (js "Failed to check URL")))).
  assert (X : exists s1,
             result_on is_message s
               (checkUrl_catch error ;; ret (@None task)) None
               [Dom errorContainer (SetHidden false);
                Dom errorMessage (SetContent (Text (error_text detail)));
                Dom errorMessage (SetColour Danger)] s1).
  { assert (Y : exists s1,
               result_on is_message s (checkUrl_catch error) tt
                 [Dom errorContainer (SetHidden false);
                  Dom errorMessage (SetContent (Text (error_text detail)));
                  Dom errorMessage (SetColour Danger)] s1).
    { unfold checkUrl_catch. quiet_then C.
      destruct (showError_result s0 (error_text detail) C) as (s1 & R1).
      after R1 C. quiet_end C. }
    destruct Y as (s1 & R1). after R1 C. exists s1. apply result_on_ret. }
  destruct X as (s1 & R1).
  pose proof (result_on_complete R1 C) as C1.
  assert (S : succeeds (quiet is_message) checkUrl_finally) by succeed.
  destruct (succeeds_result S C1) as ([] & s2 & R2).
  exists s2. destruct R1 as (E1 & evs1 & X1 & F1).
  destruct R2 as (E2 & evs2 & X2 & F2). split.
  - unfold after_error_body, in_try, unless_suspended, try_catch.
    change ((errorData <- lift (inr (VObject fields)) ;;
             detail <- lift (get_property errorData (js "detail")) ;;
             throw (Exn Error
                      (to_string
                         (if truthy detail then detail
                          else VString (js "Failed to check URL"))))) s)
      with (@Throw (option task) error, s).
    cbv beta iota. rewrite E1, E2. reflexivity.
  - exists (evs1 ++ evs2). split.
    + eapply extends_trans; eassumption.
    + rewrite filter_app, F1, F2. apply app_nil_r.
Qed.

(** C8, as the code has it.  When the classifier answers with a failure
    status and a JSON object, on a complete page the message shown is the
    [detail] text when that is a non-empty string, and the generic
    ["Failed to check URL"] when [detail] is absent, empty or otherwise
    falsy; the message is visible, the statistics and the history are
    what they were, and the input field and the trigger are enabled
    again. *)
Theorem service_error_shows_detail :
  forall (s : State) (u : jsstring) (fields : list (jsstring * value)),
    complete s ->
    validate (field_value (dom s urlInput)) = inr u ->
    (forall d, own_property (js "detail") fields = VString d -> d <> [] ->
       body (dom (snd (lifecycle (inr false) (inr (VObject fields)) s))
               errorMessage) = Text d) /\
    (truthy (own_property (js "detail") fields) = false ->
       body (dom (snd (lifecycle (inr false) (inr (VObject fields)) s))
               errorMessage) = Text (js "Failed to check URL")) /\
    hidden (dom (snd (lifecycle (inr false) (inr (VObject fields)) s))
              errorContainer) = false /\
    statistics (snd (lifecycle (inr false) (inr (VObject fields)) s))
    = statistics s /\
    sessionHistory (snd (lifecycle (inr false) (inr (VObject fields)) s))
    = sessionHistory s /\
    unlocked (snd (lifecycle (inr false) (inr (VObject fields)) s)).
Proof.
  intros s u fields C Hv.
  destruct (checkUrl_result s u C Hv) as (t0 & s1 & R1).
  pose proof (result_on_complete R1 C) as C1.
  destruct (result_on_state R1) as (St1 & Hi1 & _). simpl in St1, Hi1.
  assert (L : lifecycle (inr false) (inr (VObject fields)) s
              = after_error_body (inr (VObject fields)) s1).
  { unfold lifecycle. rewrite (proj1 R1).
    cbv beta iota delta [resume]. rewrite after_fetch_not_ok. reflexivity. }
  rewrite L.
  destruct (after_error_body_result s1 fields C1)
    as (s' & E & evs & (_ & _ & _ & _ & D & _) & F).
  assert (O : obeys not_update (after_error_body (inr (VObject fields))))
    by (unfold after_error_body; obey).
  destruct (not_update_keeps _ s1 O) as [St Hi].
  destruct (after_error_body_spec (inr (VObject fields)) s1
              (C1 urlInput) (C1 checkButton)) as (_ & _ & _ & U & _).
  rewrite St, Hi, St1, Hi1, E in *. simpl snd in *.
  assert (DM : dom s' errorMessage
               = mutate (SetColour Danger)
                   (mutate (SetContent
                              (Text (error_text
                                       (own_property (js "detail") fields))))
                      (dom s1 errorMessage))).
  { rewrite D, <- replay_dom_message, F; auto. }
  assert (DC : hidden (dom s' errorContainer) = false).
  { rewrite D, <- replay_dom_message, F; auto. }
  rewrite DM. simpl. unfold error_text. destruct U as (U1 & U2 & U3).
  repeat split; auto.
  - intros d Hd Hne. rewrite Hd. simpl.
    destruct d; [congruence|reflexivity].
  - intros Hf. rewrite Hf. reflexivity.
Qed.

(** *** Notifications and their timers *)

Lemma showError_shows s message type :
  page s errorContainer = true -> page s errorMessage = true ->
  timers (snd (showError message type s))
  = timers s ++ match type with
                | Success => [clock s + 3000]
                | Danger => []
                end /\
  clock (snd (showError message type s)) = clock s /\
  page (snd (showError message type s)) = page s /\
  hidden (dom (snd (showError message type s)) errorContainer) = false /\
  body (dom (snd (showError message type s)) errorMessage) = Text message.
Proof.
  destruct s as [pg d st h ls ck tm ln tr]. simpl. intros H1 H2.
  unfold showError, bind, set, setTimeout_hideError, ret. cbn.
  rewrite H1. cbn. rewrite H2. cbn. rewrite H2. cbn.
  destruct type; cbn; rewrite ?app_nil_r; repeat split.
Qed.

Lemma hideError_hides s :
  page s errorContainer = true ->
  hidden (dom (snd (hideError s)) errorContainer) = true /\
  dom (snd (hideError s)) errorMessage = dom s errorMessage /\
  page (snd (hideError s)) = page s /\
  timers (snd (hideError s)) = timers s /\
  clock (snd (hideError s)) = clock s.
Proof.
  destruct s as [pg d st h ls ck tm ln tr]. simpl. intros H1.
  unfold hideError, set. cbn. rewrite H1. cbn. repeat split.
Qed.

Lemma fire_hides (due : list Z) : forall s,
  page s errorContainer = true ->
  due <> [] \/ hidden (dom s errorContainer) = true ->
  hidden (dom (fold_left (fun s _ => snd (hideError s)) due s) errorContainer)
  = true /\
  dom (fold_left (fun s _ => snd (hideError s)) due s) errorMessage
  = dom s errorMessage /\
  page (fold_left (fun s _ => snd (hideError s)) due s) = page s /\
  timers (fold_left (fun s _ => snd (hideError s)) due s) = timers s /\
  clock (fold_left (fun s _ => snd (hideError s)) due s) = clock s.
Proof.
  induction due as [|d due IH]; intros s Hp H; simpl.
  - destruct H as [H|H]; [congruence|]. auto.
  - destruct (hideError_hides s Hp) as (A & B & Pg & T & K).
    destruct (IH (snd (hideError s))) as (A' & B' & Pg' & T' & K');
      [congruence | right; exact A |].
    rewrite A', B', Pg', T', K'. auto.
Qed.

Lemma fire_keeps (due : list Z) : forall s,
  dom (fold_left (fun s _ => snd (hideError s)) due s) errorMessage
  = dom s errorMessage /\
  page (fold_left (fun s _ => snd (hideError s)) due s) = page s /\
  timers (fold_left (fun s _ => snd (hideError s)) due s) = timers s /\
  clock (fold_left (fun s _ => snd (hideError s)) due s) = clock s.
Proof.
  induction due as [|d due IH]; intros s; simpl; auto.
  destruct (IH (snd (hideError s))) as (B' & Pg' & T' & K').
  rewrite B', Pg', T', K'.
  destruct s as [pg dm st h ls ck tm ln tr]. unfold hideError, set. cbn.
  destruct (pg errorContainer); cbn; auto.
Qed.

Lemma advance_spec t s :
  dom (advance t s) errorMessage = dom s errorMessage /\
  page (advance t s) = page s /\
  timers (advance t s)
  = filter (fun d => negb (d <=? Z.max (clock s) t)) (timers s) /\
  clock (advance t s) = Z.max (clock s) t /\
  (forall d, In d (timers s) -> d <= t -> page s errorContainer = true ->
     hidden (dom (advance t s) errorContainer) = true).
Proof.
  unfold advance.
  set (s0 := with_clock (Z.max (clock s) t) s).
  assert (K0 : clock s0 = Z.max (clock s) t) by (destruct s; reflexivity).
  assert (T0 : timers s0 = timers s) by (destruct s; reflexivity).
  rewrite K0, T0.
  set (s1 := with_timers _ s0).
  assert (F1 : dom s1 = dom s /\ page s1 = page s
               /\ timers s1
                  = filter (fun d => negb (d <=? Z.max (clock s) t)) (timers s)
               /\ clock s1 = Z.max (clock s) t)
    by (destruct s; repeat split).
  destruct F1 as (D1 & P1 & T1 & K1).
  destruct (fire_keeps (filter (fun d => d <=? Z.max (clock s) t) (timers s)) s1)
    as (B & Pg & T & K).
  rewrite B, Pg, T, K, D1, P1, T1, K1. repeat split.
  intros d Hin Hle Hp.
  apply fire_hides.
  - congruence.
  - left. intros E.
    assert (Hd : In d (filter (fun d => d <=? Z.max (clock s) t) (timers s))).
    { apply filter_In. split; auto. apply Z.leb_le. lia. }
    rewrite E in Hd. exact Hd.
Qed.

(** C6, as the code has it.  A success message shown at time T, on a page
    with the message area, is hidden once the clock has reached T + 3000.
    The script keeps no handle of the timer and never cancels it: when
    another message is shown before that, of either kind, the timer is
    still pending afterwards, and at T + 3000 it hides the newer message,
    an error included, although the script schedules the timer for
    success messages only (333-338). *)
Theorem success_message_timer_hides_whatever_is_shown :
  forall (s : State) (message : jsstring) (t : Z),
    page s errorContainer = true ->
    page s errorMessage = true ->
    clock s + 3000 <= t ->
    hidden (dom (snd (showError message Success s)) errorContainer) = false /\
    hidden (dom (advance t (snd (showError message Success s))) errorContainer)
    = true /\
    forall (newer : jsstring) (type : tone) (t1 : Z),
      clock s <= t1 < clock s + 3000 ->
      In (clock s + 3000)
        (timers (snd (showError newer type
                        (advance t1 (snd (showError message Success s)))))) /\
      body (dom (snd (showError newer type
                        (advance t1 (snd (showError message Success s)))))
              errorMessage) = Text newer /\
      hidden (dom (snd (showError newer type
                          (advance t1 (snd (showError message Success s)))))
                errorContainer) = false /\
      body (dom (advance t
                   (snd (showError newer type
                           (advance t1 (snd (showError message Success s))))))
              errorMessage) = Text newer /\
      hidden (dom (advance t
                     (snd (showError newer type
                             (advance t1 (snd (showError message Success s))))))
                errorContainer) = true.
Proof.
  intros s message t H1 H2 Ht.
  destruct (showError_shows s message Success H1 H2) as (T1 & K1 & P1 & V1 & B1).
  set (s1 := snd (showError message Success s)) in *.
  assert (In1 : In (clock s + 3000) (timers s1))
    by (rewrite T1; apply in_or_app; right; left; reflexivity).
  split; [exact V1|]. split.
  - destruct (advance_spec t s1) as (_ & _ & _ & _ & Hh).
    apply (Hh (clock s + 3000)); auto. congruence.
  - intros newer type t1 Ht1.
    destruct (advance_spec t1 s1) as (_ & P2 & T2 & K2 & _).
    set (s2 := advance t1 s1) in *.
    assert (H1' : page s2 errorContainer = true) by congruence.
    assert (H2' : page s2 errorMessage = true) by congruence.
    destruct (showError_shows s2 newer type H1' H2') as (T3 & K3 & P3 & V3 & B3).
    set (s3 := snd (showError newer type s2)) in *.
    assert (In3 : In (clock s + 3000) (timers s3)).
    { rewrite T3. apply in_or_app. left. rewrite T2. apply filter_In.
      split; auto. rewrite K1. apply negb_true_iff, Z.leb_gt. lia. }
    destruct (advance_spec t s3) as (B4 & _ & _ & _ & Hh).
    repeat split; auto.
    + rewrite B4. exact B3.
    + apply (Hh (clock s + 3000)); auto. congruence.
Qed.

(** *** Start-up *)

Lemma loadHistory_never_throws s : fst (loadHistory s) = Normal tt.
Proof.
  unfold loadHistory, try_catch.
  destruct ((history <- gets sessionHistory ;; displayHistory history) s)
    as [[[]|e] s1]; reflexivity.
Qed.

(** *** Trimming *)

Lemma drop_while_head p s :
  match drop_while p s with
  | [] => True
  | c :: _ => p c = false
  end.
Proof.
  induction s as [|x s IH]; simpl; auto.
  destruct (p x) eqn:E; simpl; auto.
Qed.

Lemma drop_while_fixed p s :
  match s with
  | [] => True
  | c :: _ => p c = false
  end -> drop_while p s = s.
Proof. destruct s as [|c s]; simpl; auto. intros ->. reflexivity. Qed.

Lemma drop_while_suffix p s : exists pre, s = pre ++ drop_while p s.
Proof.
  induction s as [|x s [pre IH]]; simpl.
  - exists []. reflexivity.
  - destruct (p x).
    + exists (x :: pre). simpl. f_equal. exact IH.
    + exists []. reflexivity.
Qed.

Lemma strip_ends p s :
  match strip p s with
  | [] => True
  | c :: _ => p c = false
  end /\
  match rev (strip p s) with
  | [] => True
  | c :: _ => p c = false
  end.
Proof.
  unfold strip. rewrite rev_involutive. split; [|apply drop_while_head].
  pose proof (drop_while_head p s) as H.
  destruct (drop_while_suffix p (rev (drop_while p s))) as [pre E].
  destruct (drop_while p (rev (drop_while p s))) as [|b bs] eqn:B;
    [exact I|].
  apply (f_equal (@rev N)) in E. rewrite rev_involutive, rev_app_distr in E.
  rewrite E in H.
  destruct (rev (b :: bs)) as [|c cs] eqn:C; [exact I|exact H].
Qed.

Lemma strip_fixed p s :
  match s with [] => True | c :: _ => p c = false end ->
  match rev s with [] => True | c :: _ => p c = false end ->
  strip p s = s.
Proof.
  intros H1 H2. unfold strip.
  rewrite (drop_while_fixed p s H1), (drop_while_fixed p (rev s) H2).
  apply rev_involutive.
Qed.

Lemma strip_idempotent p s : strip p (strip p s) = strip p s.
Proof. destruct (strip_ends p s). apply strip_fixed; assumption. Qed.

Lemma validate_checked raw u : validate raw = inr u -> checked u.
Proof.
  unfold validate, checked.
  destruct (is_empty (trim raw)) eqn:E; [discriminate|].
  destruct (isValidUrl (trim raw)) eqn:V; simpl; [|discriminate].
  intros H. injection H as <-. split; [apply strip_idempotent|].
  split; [|exact V]. destruct (trim raw); [discriminate|congruence].
Qed.

Lemma checked_validates u : checked u -> validate u = inr u.
Proof.
  intros (T & N & V). unfold validate. rewrite T, V.
  destruct u; [congruence|reflexivity].
Qed.

(** *** Relations kept by the blocks of the controller *)

Section Relates.
Variable R : State -> State -> Prop.
Hypothesis R_refl : forall s, R s s.
Hypothesis R_trans : forall s1 s2 s3, R s1 s2 -> R s2 s3 -> R s1 s3.

Lemma relates_ret A (a : A) : relates R (ret a).
Proof. intros s. apply R_refl. Qed.

Lemma relates_throw A (e : exn) : relates R (@throw A e).
Proof. intros s. apply R_refl. Qed.

Lemma relates_gets A (f : State -> A) : relates R (gets f).
Proof. intros s. apply R_refl. Qed.

Lemma relates_lift A (r : settled A) : relates R (lift r).
Proof. destruct r; [apply relates_throw | apply relates_ret]. Qed.

Lemma relates_get_value e : relates R (get_value e).
Proof. intros s. unfold get_value. destruct (page s e); apply R_refl. Qed.

Lemma relates_getItem key : relates R (getItem key).
Proof. intros s. unfold getItem. destruct (localStorage s); apply R_refl. Qed.

Lemma relates_bind A B (m : M A) (k : A -> M B) :
  relates R m -> (forall a, relates R (k a)) -> relates R (bind m k).
Proof.
  intros Hm Hk s. unfold bind. specialize (Hm s).
  destruct (m s) as [[a|e] s1]; simpl in *; auto.
  eapply R_trans; [exact Hm|apply Hk].
Qed.

Lemma relates_try_catch A (m : M A) (h : exn -> M A) :
  relates R m -> (forall e, relates R (h e)) -> relates R (try_catch m h).
Proof.
  intros Hm Hh s. unfold try_catch. specialize (Hm s).
  destruct (m s) as [[a|e] s1]; simpl in *; auto.
  eapply R_trans; [exact Hm|apply Hh].
Qed.

Lemma relates_for_each A (l : list A) (f : A -> M unit) :
  (forall a, relates R (f a)) -> relates R (for_each l f).
Proof.
  intros Hf. induction l as [|a l IH]; simpl.
  - apply relates_ret.
  - apply relates_bind; auto.
Qed.

Lemma relates_unless_suspended cleanup m :
  relates R cleanup -> relates R m -> relates R (unless_suspended cleanup m).
Proof.
  intros Hc Hm s. unfold unless_suspended. specialize (Hm s).
  destruct (m s) as [o s1]; simpl in *. specialize (Hc s1).
  destruct o as [[t|]|e]; simpl; auto;
    destruct (cleanup s1) as [[[]|e'] s2]; simpl in *;
    eapply R_trans; eassumption.
Qed.

Lemma relates_in_try segment :
  (forall e, relates R (checkUrl_catch e)) -> relates R checkUrl_finally ->
  relates R segment -> relates R (in_try segment).
Proof.
  intros Hc Hf Hs. unfold in_try. apply relates_unless_suspended; auto.
  apply relates_try_catch; auto. intros e.
  apply relates_bind; [apply Hc|intros _; apply relates_ret].
Qed.

End Relates.

(** *** The counters and the history over a whole session *)

Lemma updateStatistics_memory v s :
  memory (snd (updateStatistics v s))
  = (count_scan v (statistics s), sessionHistory s).
Proof.
  destruct s as [pg d st h ls ck tm ln tr].
  unfold updateStatistics, increment, count_scan, memory, bind, gets,
    assign_statistics, set.
  destruct (truthy v); on_page pg; reflexivity.
Qed.

Lemma addToSessionHistory_memory u v s :
  memory (snd (addToSessionHistory u v s))
  = (statistics s,
     push {| url := u; isPhishing := v; timestamp := clock s |}
       (sessionHistory s)).
Proof.
  unfold memory. f_equal.
  - apply not_stats_keeps_statistics. obey.
  - unfold addToSessionHistory, now, bind at 1 2 3, gets,
      assign_sessionHistory. simpl.
    match goal with
    | |- context [bind ?m ?k ?s0] =>
        assert (O : obeys not_history (bind m k));
        [ apply obeys_bind;
          [ apply obeys_gets
          | intros; apply displayHistory_obeys; reflexivity ]
        | destruct (O s0) as (evs & _ & F & _ & _ & _ & _ & H) ]
    end.
    rewrite H. apply replay_history_frame. exact F.
Qed.

Lemma returns_weaken A (Q Q' : A -> Prop) (m : M A) :
  (forall a, Q a -> Q' a) -> returns Q m -> returns Q' m.
Proof.
  intros QQ H s. specialize (H s). destruct (fst (m s)); auto.
Qed.

Lemma checkUrl_returns_checked :
  returns (fun o => forall t, o = Some t -> checked (task_url t)) checkUrl.
Proof.
  unfold checkUrl. apply returns_bind; intros raw.
  destruct (validate raw) as [[]|u] eqn:V.
  - apply returns_bind; intros _. apply returns_ret. discriminate.
  - apply returns_bind; intros _. apply returns_ret. discriminate.
  - apply returns_in_try; [discriminate|].
    repeat (apply returns_bind; intros ?). apply returns_ret.
    intros t [= <-]. simpl. eapply validate_checked. exact V.
Qed.

Lemma listener_returns_checked l key :
  returns (fun o => forall t, o = Some t -> checked (task_url t))
    (listener_body l key).
Proof.
  destruct l; simpl; try apply checkUrl_returns_checked;
    try (apply returns_bind; intros _; apply returns_ret; discriminate).
  destruct (str_eqb key (js "Enter")).
  - apply checkUrl_returns_checked.
  - apply returns_ret. discriminate.
Qed.

Lemma continuation_returns_checked t r m :
  checked (task_url t) -> continuation t r = Some m ->
  returns (fun o => forall t, o = Some t -> checked (task_url t)) m.
Proof.
  destruct t, r; simpl; intros C E; try discriminate E; injection E as <-.
  - unfold after_fetch. apply returns_in_try; [discriminate|].
    apply returns_bind; intros ok.
    destruct (negb ok); apply returns_ret; intros t [= <-]; exact C.
  - eapply returns_weaken; [|apply after_error_body_returns].
    intros [t|] H; [contradiction|discriminate].
  - eapply returns_weaken; [|apply after_data_returns].
    intros [t|] H; [contradiction|discriminate].
Qed.

Lemma call_tasks_checked m w :
  returns (fun o => forall t, o = Some t -> checked (task_url t)) m ->
  tasks_checked w -> tasks_checked (call m w).
Proof.
  intros H T. unfold call, tasks_checked in *. specialize (H (heap w)).
  destruct (m (heap w)) as [[[t|]|e] s']; simpl in *; auto.
  apply Forall_app. split; auto.
Qed.

Lemma dispatch_tasks_checked e click key w :
  tasks_checked w -> tasks_checked (dispatch e click key w).
Proof.
  intros T. unfold dispatch. destruct (page (heap w) e && _); auto.
  generalize (listeners_on e click (listeners (heap w))). intros ls.
  revert w T. induction ls as [|l ls IH]; intros w T; simpl; auto.
  apply IH. apply call_tasks_checked; auto. apply listener_returns_checked.
Qed.

Lemma step_tasks_checked w ev : tasks_checked w -> tasks_checked (step w ev).
Proof.
  intros T. destruct ev as [text|e|key|i r|t]; simpl.
  - destruct (page (heap w) urlInput && negb (disabled (dom (heap w) urlInput)));
      exact T.
  - apply dispatch_tasks_checked, T.
  - apply dispatch_tasks_checked, T.
  - unfold settle. destruct (nth_error (tasks w) i) as [t|] eqn:N; auto.
    destruct (continuation t r) as [m|] eqn:C; auto.
    apply call_tasks_checked.
    + eapply continuation_returns_checked; [|exact C].
      unfold tasks_checked in T. rewrite Forall_forall in T.
      apply T. eapply nth_error_In. exact N.
    + unfold tasks_checked in *. simpl. apply Forall_app. split.
      * apply Forall_forall. intros x Hx. rewrite Forall_forall in T.
        apply T. rewrite <- (firstn_skipn i (tasks w)). apply in_or_app.
        left. exact Hx.
      * apply Forall_forall. intros x Hx. rewrite Forall_forall in T.
        apply T. rewrite <- (firstn_skipn (S i) (tasks w)). apply in_or_app.
        right. exact Hx.
  - exact T.
Qed.

Lemma run_tasks_checked evs w : tasks_checked w -> tasks_checked (run w evs).
Proof.
  revert w; induction evs as [|ev evs IH]; intros w T; simpl; auto.
  apply IH, step_tasks_checked, T.
Qed.

Section Memory.
Variable Q :
  Statistics * list HistoryItem -> Statistics * list HistoryItem -> Prop.
Hypothesis Q_refl : forall x, Q x x.
Hypothesis Q_trans : forall x y z, Q x y -> Q y z -> Q x z.
Hypothesis Q_scan : forall st h v, Q (st, h) (count_scan v st, h).
Hypothesis Q_push :
  forall st h item, checked (url item) -> Q (st, h) (st, push item h).
Hypothesis Q_clear : forall st h, Q (st, h) (st, []).

Lemma remembers_refl s : remembers Q s s.
Proof. apply Q_refl. Qed.

Lemma remembers_trans s1 s2 s3 :
  remembers Q s1 s2 -> remembers Q s2 s3 -> remembers Q s1 s3.
Proof. apply Q_trans. Qed.

Lemma remembers_same s s' : memory s' = memory s -> remembers Q s s'.
Proof. unfold remembers. intros ->. apply Q_refl. Qed.

Lemma remembers_obeys A (m : M A) :
  obeys not_update m -> relates (remembers Q) m.
Proof.
  intros O s. apply remembers_same. unfold memory.
  destruct (not_update_keeps m s O) as [-> ->]. reflexivity.
Qed.

Lemma remembers_updateStatistics v : relates (remembers Q) (updateStatistics v).
Proof.
  intros s. unfold remembers. rewrite updateStatistics_memory. apply Q_scan.
Qed.

Lemma remembers_addToSessionHistory u v :
  checked u -> relates (remembers Q) (addToSessionHistory u v).
Proof.
  intros C s. unfold remembers. rewrite addToSessionHistory_memory.
  apply Q_push. exact C.
Qed.

Lemma remembers_addEventListener e l :
  relates (remembers Q) (addEventListener e l).
Proof.
  intros s. apply remembers_same. unfold addEventListener.
  destruct (page s e); destruct s; reflexivity.
Qed.

Lemma remembers_clear : relates (remembers Q) (assign_sessionHistory []).
Proof. intros s. unfold remembers. destruct s; simpl. apply Q_clear. Qed.

Ltac recall :=
  repeat first
    [ apply remembers_updateStatistics
    | apply remembers_clear
    | apply remembers_addToSessionHistory; assumption
    | apply remembers_addEventListener
    | apply remembers_obeys; solve [obey]
    | apply (relates_bind _ remembers_trans); [ | intros ? ]
    | apply (relates_try_catch _ remembers_trans); [ | intros ? ]
    | apply (relates_in_try _ remembers_refl remembers_trans); [ intros ? | | ]
    | match goal with
      | |- relates _ (if ?b then _ else _) => destruct b
      | |- relates _ (match ?x with _ => _ end) => destruct x
      end ].

Lemma listener_remembers l key : relates (remembers Q) (listener_body l key).
Proof. destruct l; simpl; recall. Qed.

Lemma continuation_remembers t r m :
  checked (task_url t) -> continuation t r = Some m ->
  relates (remembers Q) m.
Proof.
  destruct t, r; simpl; intros C E; try discriminate E; injection E as <-;
    [ | | unfold after_data ]; recall.
Qed.

Lemma call_remembers m w :
  relates (remembers Q) m -> remembers Q (heap w) (heap (call m w)).
Proof.
  intros H. unfold call. specialize (H (heap w)).
  destruct (m (heap w)) as [[[t|]|e] s']; exact H.
Qed.

Lemma dispatch_remembers e click key w :
  remembers Q (heap w) (heap (dispatch e click key w)).
Proof.
  unfold dispatch. destruct (page (heap w) e && _); [|apply remembers_refl].
  generalize (listeners_on e click (listeners (heap w))). intros ls.
  revert w. induction ls as [|l ls IH]; intros w; simpl.
  - apply remembers_refl.
  - eapply remembers_trans; [|apply IH].
    apply call_remembers, listener_remembers.
Qed.

Lemma advance_memory t s : memory (advance t s) = memory s.
Proof.
  unfold advance.
  set (s0 := with_timers _ _).
  change (memory s) with (memory s0).
  generalize (filter (fun d => d <=? clock (with_clock (Z.max (clock s) t) s))
                (timers (with_clock (Z.max (clock s) t) s))).
  intros due. generalize s0. clear.
  induction due as [|x due IH]; intros s0; simpl; auto.
  rewrite IH. unfold memory.
  assert (O : obeys not_update hideError) by obey.
  destruct (not_update_keeps hideError s0 O) as [-> ->]. reflexivity.
Qed.

Lemma step_remembers w ev :
  tasks_checked w -> remembers Q (heap w) (heap (step w ev)).
Proof.
  intros T. destruct ev as [text|e|key|i r|t]; simpl.
  - destruct (page (heap w) urlInput && negb (disabled (dom (heap w) urlInput)));
      simpl; apply remembers_same; reflexivity.
  - apply dispatch_remembers.
  - apply dispatch_remembers.
  - unfold settle. destruct (nth_error (tasks w) i) as [t|] eqn:N;
      [|apply remembers_refl].
    destruct (continuation t r) as [m|] eqn:C; [|apply remembers_refl].
    match goal with
    | |- remembers Q _ (heap (call m ?w')) =>
        change (heap w) with (heap w'); apply call_remembers
    end.
    eapply continuation_remembers; [|exact C].
    unfold tasks_checked in T. rewrite Forall_forall in T.
    apply T. eapply nth_error_In. exact N.
  - apply remembers_same, advance_memory.
Qed.

Lemma run_remembers evs : forall w,
  tasks_checked w -> remembers Q (heap w) (heap (run w evs)).
Proof.
  induction evs as [|ev evs IH]; intros w T; simpl.
  - apply remembers_refl.
  - eapply remembers_trans; [apply step_remembers, T|].
    apply IH, step_tasks_checked, T.
Qed.

Lemma load_remembers pg doc stored t :
  remembers Q (fresh pg doc stored t) (heap (load pg doc stored t)).
Proof.
  unfold load. simpl heap.
  assert (H : relates (remembers Q) main).
  { unfold main, register_listeners, initializePage, startup_tasks. recall. }
  apply H.
Qed.

(** From the variables as declared to any state of a session. *)
Lemma session_remembers pg doc stored t evs :
  Q ({| totalScans := 0; safeUrls := 0; phishingUrls := 0 |}, [])
    (memory (heap (run (load pg doc stored t) evs))).
Proof.
  eapply Q_trans; [apply (load_remembers pg doc stored t)|].
  apply run_remembers. constructor.
Qed.

End Memory.

Lemma counted_scan v st : counted st -> counted (count_scan v st).
Proof.
  unfold counted, count_scan. destruct (truthy v); simpl; lia.
Qed.

Lemma no_less_scan v st : no_less st (count_scan v st).
Proof.
  unfold no_less, count_scan. destruct (truthy v); simpl; lia.
Qed.

Lemma Forall_firstn_of A (P : A -> Prop) n (l : list A) :
  Forall P l -> Forall P (firstn n l).
Proof.
  intros H. revert n. induction H as [|x l Hx Hl IH]; intros [|n]; simpl;
    constructor; auto.
Qed.

Lemma history_checked_push item h :
  checked (url item) -> history_checked h -> history_checked (push item h).
Proof.
  intros C [F L]. rewrite push_firstn. split.
  - apply Forall_firstn_of. constructor; assumption.
  - apply firstn_le_length.
Qed.

Lemma run_app w evs more : run w (evs ++ more) = run (run w evs) more.
Proof. unfold run. apply fold_left_app. Qed.

(** X1. In every state of a session, on any page and after any
    sequence of events, [totalScans] is the sum of [safeUrls] and
    [phishingUrls], and neither of these is negative. *)
Theorem counters_add_up_in_every_state :
  forall (pg : elem -> bool) (doc : elem -> node)
         (stored : option (list (jsstring * jsstring))) (t : Z)
         (evs : list event),
    counted (statistics (heap (run (load pg doc stored t) evs))).
Proof.
  intros pg doc stored t evs.
  apply (session_remembers (fun x y => counted (fst x) -> counted (fst y)));
    simpl; auto.
  - intros; apply counted_scan; assumption.
  - unfold counted; simpl; lia.
Qed.

(** X2. No event ever lowers a counter: between any state of a
    session and any later one, each of the three counters has stayed or
    grown.  Nothing resets the statistics, clearing the history
    included. *)
Theorem counters_never_decrease :
  forall (pg : elem -> bool) (doc : elem -> node)
         (stored : option (list (jsstring * jsstring))) (t : Z)
         (evs more : list event),
    no_less (statistics (heap (run (load pg doc stored t) evs)))
      (statistics (heap (run (load pg doc stored t) (evs ++ more)))).
Proof.
  intros pg doc stored t evs more. rewrite run_app.
  apply (run_remembers (fun x y => no_less (fst x) (fst y))).
  - intros x. unfold no_less. lia.
  - intros x y z. unfold no_less. lia.
  - intros st h v. apply no_less_scan.
  - intros st h item _. unfold no_less. simpl. lia.
  - intros st h. unfold no_less. simpl. lia.
  - apply run_tasks_checked. constructor.
Qed.

(** X3. In every state of a session the history holds
    at most 10 entries, and each is for a string that passed the
    validation of [checkUrl]: trimmed, non-empty and accepted by
    [new URL]. *)
Theorem history_holds_checked_urls :
  forall (pg : elem -> bool) (doc : elem -> node)
         (stored : option (list (jsstring * jsstring))) (t : Z)
         (evs : list event),
    history_checked (sessionHistory (heap (run (load pg doc stored t) evs))).
Proof.
  intros pg doc stored t evs.
  apply (session_remembers
           (fun x y => history_checked (snd x) -> history_checked (snd y)));
    simpl; auto.
  - intros st h item C. apply history_checked_push. exact C.
  - intros st h _. split; [constructor|simpl; lia].
  - split; [constructor|simpl; lia].
Qed.

(** *** The start of a check *)

(** Symbolic execution on a state given by its fields, on the elements
    the context says the page has. *)
Ltac execute :=
  repeat (progress
            (cbn;
             repeat match goal with
                    | H : ?pg ?e = true |- context [?pg ?e] => rewrite H
                    | H : forall e, ?pg e = true |- context [?pg ?e] =>
                        rewrite H
                    end)).

Lemma filter_none A (p : A -> bool) l :
  forallb (fun x => negb (p x)) l = true -> filter p l = [].
Proof.
  induction l as [|x l IH]; simpl; auto.
  destruct (p x); simpl; [discriminate|exact IH].
Qed.

Lemma checkUrl_rejected s e :
  page s urlInput = true ->
  validate (field_value (dom s urlInput)) = inl e ->
  checkUrl s = (showError (validation_message e) Danger ;; ret None) s.
Proof.
  intros Hu Hv. unfold checkUrl at 1, bind at 1, get_value.
  rewrite Hu, Hv. destruct e; reflexivity.
Qed.

(** X4. When the text of the input field fails validation,
    [checkUrl] returns at once: it sends no request, leaves the counters
    and the history alone, does not touch the input field or the trigger,
    and schedules no timer; on a page that has the message area it shows
    the message of the failure, as an error. *)
Theorem rejected_input_sends_nothing :
  forall (s : State) (e : ValidationError),
    page s urlInput = true ->
    validate (field_value (dom s urlInput)) = inl e ->
    suspended (checkUrl s) = false /\
    requests (snd (checkUrl s)) = requests s /\
    memory (snd (checkUrl s)) = memory s /\
    dom (snd (checkUrl s)) urlInput = dom s urlInput /\
    dom (snd (checkUrl s)) checkButton = dom s checkButton /\
    timers (snd (checkUrl s)) = timers s /\
    (page s errorContainer = true -> page s errorMessage = true ->
     fst (checkUrl s) = Normal None /\
     hidden (dom (snd (checkUrl s)) errorContainer) = false /\
     body (dom (snd (checkUrl s)) errorMessage)
     = Text (validation_message e) /\
     colour (dom (snd (checkUrl s)) errorMessage) = Some Danger).
Proof.
  intros s e Hu Hv. rewrite (checkUrl_rejected s e Hu Hv).
  generalize (validation_message e). intros text. clear Hu Hv.
  destruct s as [pg d st h ls ck tm ln tr].
  unfold showError, bind, set, ret, requests, memory.
  on_page pg; rewrite ?filter_app; simpl; rewrite ?app_nil_r;
    repeat split; intros; try reflexivity; try discriminate.
Qed.

Lemma checkUrl_departs s u :
  page s urlInput = true ->
  page s checkButton = true ->
  page s loadingIndicator = true ->
  page s errorContainer = true ->
  page s resultContainer = true ->
  validate (field_value (dom s urlInput)) = inr u ->
  exists s',
    checkUrl s = (Normal (Some (AwaitFetch u (clock s))), s') /\
    extends scripted s s' (departure u).
Proof.
  intros H1 H2 H3 H4 H5 Hv.
  assert (O : obeys scripted checkUrl) by (unfold checkUrl; obey).
  destruct (O s) as (evs & X). revert X.
  rewrite (checkUrl_valid s u H1 Hv). clear Hv.
  match goal with
  | |- context [in_try ?seg s] =>
      assert (E : exists s',
                 seg s = (Normal (Some (AwaitFetch u (clock s))), s') /\
                 trace s' = trace s ++ departure u)
  end.
  { destruct s as [pg d st h ls ck tm ln tr]. simpl in H1, H2, H3, H4, H5.
    unfold showLoading, hideError, hideResult, now, bind, emit, set, gets,
      ret, departure.
    execute. eexists. split; [reflexivity|]. simpl.
    rewrite <- !app_assoc. reflexivity. }
  destruct E as (s' & E & T). rewrite (in_try_suspends _ _ _ _ E). simpl.
  intros X. exists s'. split; [reflexivity|].
  assert (evs = departure u) as ->; [|exact X].
  destruct X as (T' & _). rewrite T in T'. apply app_inv_head in T'. congruence.
Qed.

(** X5. On a page that has the elements, a check of a string
    that passes validation suspends on its request having done exactly
    this: disabled the input field and the trigger, put the progress
    label on the trigger, shown the loading indicator, hidden the message
    area and the previous result, and sent one request for the trimmed
    string; the counters and the history are as they were. *)
Theorem check_in_flight_shows_progress :
  forall (s : State) (u : jsstring),
    page s urlInput = true ->
    page s checkButton = true ->
    page s loadingIndicator = true ->
    page s errorContainer = true ->
    page s resultContainer = true ->
    validate (field_value (dom s urlInput)) = inr u ->
    fst (checkUrl s) = Normal (Some (AwaitFetch u (clock s))) /\
    trace (snd (checkUrl s)) = trace s ++ departure u /\
    locked (snd (checkUrl s)) /\
    body (dom (snd (checkUrl s)) checkButton) = Html checking_label /\
    hidden (dom (snd (checkUrl s)) loadingIndicator) = false /\
    hidden (dom (snd (checkUrl s)) errorContainer) = true /\
    hidden (dom (snd (checkUrl s)) resultContainer) = true /\
    memory (snd (checkUrl s)) = memory s.
Proof.
  intros s u H1 H2 H3 H4 H5 Hv.
  destruct (checkUrl_departs s u H1 H2 H3 H4 H5 Hv)
    as (s' & E & T & _ & _ & _ & D & St & Hi).
  rewrite E. simpl fst. simpl snd. unfold locked, memory.
  rewrite !D, St, Hi. repeat split; assumption.
Qed.

(** *** Running a block on a complete page *)

Lemma filter_every evs : filter every evs = evs.
Proof. induction evs as [|ev evs IH]; simpl; congruence. Qed.

Lemma result_on_every {A s} {m : M A} {a evs s'} :
  result_on every s m a evs s' ->
  m s = (Normal a, s') /\ extends scripted s s' evs.
Proof.
  intros (E & evs' & X & F). rewrite filter_every in F. subst evs'. auto.
Qed.

Lemma result_on_emit mark s ev :
  scripted ev = true ->
  match ev with
  | Dom _ _ | Stats _ | History _ => False
  | _ => True
  end ->
  result_on mark s (emit ev) tt (filter mark [ev]) (snd (emit ev s)).
Proof.
  intros S K.
  eapply result_on_intro;
    [apply obeys_emit; assumption|reflexivity|reflexivity|reflexivity].
Qed.

(** A sequence of writes, reads and blocks of them, on a complete page
    [C]: each statement contributes the effects the filter selects. *)
Ltac stride C :=
  lazymatch goal with
  | |- exists s2, result_on _ _ (bind (set _ _) _) _ _ s2 =>
      set_then C; stride C
  | |- exists s2, result_on _ _ (bind (gets _) _) _ _ s2 =>
      gets_then C; stride C
  | |- exists s2, result_on ?mark ?s (bind (emit ?ev) _) _ _ s2 =>
      let R := fresh "R" in
      pose proof (result_on_emit mark s ev eq_refl I) as R;
      simpl filter in R; after R C; stride C
  | |- exists s2, result_on ?mark ?s (bind (ret ?a) _) _ _ s2 =>
      let R := fresh "R" in
      pose proof (result_on_ret mark s a) as R; after R C; stride C
  | |- exists s2, result_on ?mark ?s (bind ?m _) _ _ s2 =>
      let R := fresh "R" in
      let s1 := fresh "s" in
      eassert (R : (fun a ms => exists s1, result_on mark s m a ms s1) _ _);
      [ cbv beta; stride C
      | cbv beta in R; destruct R as [s1 R]; after R C; stride C ]
  | |- exists s2, result_on ?mark ?s (set ?e ?m) _ _ s2 =>
      eexists; apply (result_on_set mark s e m C eq_refl)
  | |- exists s2, result_on ?mark ?s (emit ?ev) _ _ s2 =>
      eexists; apply (result_on_emit mark s ev eq_refl I)
  | |- exists s2, result_on ?mark ?s (gets ?f) _ _ s2 =>
      eexists; apply (result_on_gets mark s f)
  | |- exists s2, result_on ?mark ?s (ret ?a) _ _ s2 =>
      eexists; apply (result_on_ret mark s a)
  end.

(** *** A check that fails *)

Lemma in_try_recovers segment s e s1 evs :
  complete s -> segment s = (Throw e, s1) -> extends scripted s s1 evs ->
  exists s', in_try segment s = (Normal None, s') /\
    extends scripted s s' (evs ++ recovery e).
Proof.
  intros C Hseg X.
  assert (C1 : complete s1).
  { intros x. destruct X as (_ & _ & Pg & _). rewrite Pg. apply C. }
  assert (E : exists s',
             result_on every s1 (checkUrl_catch e ;; checkUrl_finally) tt
               (recovery e) s').
  { unfold recovery, cleanup. autounfold with controller. stride C1. }
  destruct E as (s' & E). apply result_on_every in E. destruct E as (E & X').
  exists s'. split; [|eapply extends_trans; eassumption].
  unfold in_try, unless_suspended, try_catch. rewrite Hseg.
  revert E. unfold bind.
  destruct (checkUrl_catch e s1) as [[[]|e'] s2]; [|discriminate].
  simpl. intros ->. reflexivity.
Qed.

Lemma bind_after {A B} (m : M A) (k : A -> M B) s a s1 :
  m s = (Normal a, s1) -> bind m k s = k a s1.
Proof. intros E. unfold bind. rewrite E. reflexivity. Qed.

Lemma bind_throws {A B} (m : M A) (k : A -> M B) s e s1 :
  m s = (Throw e, s1) -> bind m k s = (Throw e, s1).
Proof. intros E. unfold bind. rewrite E. reflexivity. Qed.

Lemma checkUrl_departs_complete s u :
  complete s ->
  validate (field_value (dom s urlInput)) = inr u ->
  exists s',
    checkUrl s = (Normal (Some (AwaitFetch u (clock s))), s') /\
    extends scripted s s' (departure u) /\ complete s'.
Proof.
  intros C Hv.
  destruct (checkUrl_departs s u (C _) (C _) (C _) (C _) (C _) Hv)
    as (s' & E & X).
  exists s'. split; [exact E|]. split; [exact X|].
  intros x. destruct X as (_ & _ & Pg & _). rewrite Pg. apply C.
Qed.

(** A lifecycle in which [fetch] or [response.json()] rejects. *)
Lemma lifecycle_rejected s u response body e :
  complete s ->
  validate (field_value (dom s urlInput)) = inr u ->
  rejection response body = Some e ->
  exists s',
    lifecycle response body s = (Normal None, s') /\
    extends scripted s s' (departure u ++ recovery e).
Proof.
  intros C Hv Hr.
  destruct (checkUrl_departs_complete s u C Hv) as (s1 & E1 & X1 & C1).
  unfold lifecycle. rewrite E1. cbv beta iota delta [resume].
  destruct response as [e0|ok].
  - injection Hr as ->. unfold after_fetch.
    match goal with
    | |- context [in_try ?seg s1] =>
        destruct (in_try_recovers seg s1 e s1 [] C1 eq_refl (extends_refl _ _))
          as (s' & E2 & X2)
    end.
    rewrite E2. exists s'. split; [reflexivity|].
    eapply extends_trans; eassumption.
  - destruct body as [e0|data]; [|discriminate]. injection Hr as ->.
    destruct ok.
    + rewrite after_fetch_ok. unfold after_data.
      match goal with
      | |- context [in_try ?seg s1] =>
          destruct (in_try_recovers seg s1 e s1 [] C1 eq_refl (extends_refl _ _))
            as (s' & E2 & X2)
      end.
      rewrite E2. exists s'. split; [reflexivity|].
      eapply extends_trans; eassumption.
    + rewrite after_fetch_not_ok. unfold after_error_body.
      match goal with
      | |- context [in_try ?seg s1] =>
          destruct (in_try_recovers seg s1 e s1 [] C1 eq_refl (extends_refl _ _))
            as (s' & E2 & X2)
      end.
      rewrite E2. exists s'. split; [reflexivity|].
      eapply extends_trans; eassumption.
Qed.

(** X6. When [fetch] rejects (the network is down), or
    reading the body of the response rejects (it is not JSON), whatever
    the status was, the check ends with the caught error's message in the
    message area, shown as an error, or the generic text when that
    message is empty; the loading indicator is cleared, the previous
    result stays hidden, the input field and the trigger are enabled
    again, and the counters and the history are as they were.  The
    effects of the whole check are those of its start followed by those
    of the [catch] and [finally] blocks. *)
Theorem rejected_promise_shows_its_message :
  forall (s : State) (u : jsstring) (response : settled bool)
         (json : settled value) (e : exn),
    complete s ->
    validate (field_value (dom s urlInput)) = inr u ->
    rejection response json = Some e ->
    fst (lifecycle response json s) = Normal None /\
    trace (snd (lifecycle response json s))
    = trace s ++ departure u ++ recovery e /\
    hidden (dom (snd (lifecycle response json s)) errorContainer) = false /\
    body (dom (snd (lifecycle response json s)) errorMessage)
    = Text (caught_text e) /\
    colour (dom (snd (lifecycle response json s)) errorMessage)
    = Some Danger /\
    loading_cleared (snd (lifecycle response json s)) /\
    hidden (dom (snd (lifecycle response json s)) resultContainer) = true /\
    unlocked (snd (lifecycle response json s)) /\
    memory (snd (lifecycle response json s)) = memory s.
Proof.
  intros s u response json e C Hv Hr.
  destruct (lifecycle_rejected s u response json e C Hv Hr)
    as (s' & E & T & _ & _ & _ & D & St & Hi).
  rewrite E. simpl fst. simpl snd.
  unfold loading_cleared, unlocked, memory.
  rewrite !D, St, Hi. repeat split. exact T.
Qed.

(** A success status with the body [null]: [displayResult] has made the
    result visible when reading [data.isPhishing] throws. *)
Lemma lifecycle_null s u :
  complete s ->
  validate (field_value (dom s urlInput)) = inr u ->
  exists s',
    lifecycle (inr true) (inr VNull) s = (Normal None, s') /\
    extends scripted s s'
      (departure u ++ arrival_of_null ++ recovery null_read).
Proof.
  intros C Hv.
  destruct (checkUrl_departs_complete s u C Hv) as (s1 & E1 & X1 & C1).
  unfold lifecycle. rewrite E1. cbv beta iota delta [resume].
  rewrite after_fetch_ok. unfold after_data.
  assert (P : exists s2,
             result_on every s1
               (hideLoading ;; set resultContainer (SetHidden false)) tt
               arrival_of_null s2).
  { unfold arrival_of_null. autounfold with controller. stride C1. }
  destruct P as (s2 & P). apply result_on_every in P. destruct P as (P & X2).
  match goal with
  | |- context [in_try ?seg s1] =>
      assert (Hseg : seg s1 = (Throw null_read, s2))
  end.
  { change (lift (inr VNull)) with (@ret value VNull).
    rewrite (bind_after (ret VNull) _ s1 VNull s1 eq_refl).
    unfold now. rewrite (bind_after (gets clock) _ s1 (clock s1) s1 eq_refl).
    revert P. unfold bind at 1.
    destruct (hideLoading s1) as [[[]|e0] sa] eqn:H; [|discriminate].
    intros P. rewrite (bind_after hideLoading _ s1 tt sa H).
    apply bind_throws. unfold displayResult.
    rewrite (bind_after _ _ sa tt s2 P). reflexivity. }
  match goal with
  | |- context [in_try ?seg s1] =>
      destruct (in_try_recovers seg s1 null_read s2 arrival_of_null C1 Hseg X2)
        as (s' & E2 & X3)
  end.
  rewrite E2. exists s'. split; [reflexivity|].
  eapply extends_trans; eassumption.
Qed.

(** X7. A success status whose body is [null] ends as a
    failure, but only after [displayResult] has un-hidden the result: on
    a complete page the result container is visible at the end although
    none of the four elements that carry a verdict was written, so they
    show what they showed before; the message area shows the error, and
    the counters and the history are as they were. *)
Theorem null_body_shows_the_stale_result :
  forall (s : State) (u : jsstring),
    complete s ->
    validate (field_value (dom s urlInput)) = inr u ->
    fst (lifecycle (inr true) (inr VNull) s) = Normal None /\
    hidden (dom (snd (lifecycle (inr true) (inr VNull) s)) resultContainer)
    = false /\
    (forall x, carries_verdict x = true ->
       dom (snd (lifecycle (inr true) (inr VNull) s)) x = dom s x) /\
    hidden (dom (snd (lifecycle (inr true) (inr VNull) s)) errorContainer)
    = false /\
    body (dom (snd (lifecycle (inr true) (inr VNull) s)) errorMessage)
    = Text (message null_read) /\
    unlocked (snd (lifecycle (inr true) (inr VNull) s)) /\
    memory (snd (lifecycle (inr true) (inr VNull) s)) = memory s.
Proof.
  intros s u C Hv.
  destruct (lifecycle_null s u C Hv) as (s' & E & T & _ & _ & _ & D & St & Hi).
  rewrite E. simpl fst. simpl snd. unfold unlocked, memory.
  rewrite !D, St, Hi. repeat split.
  intros x Hx. rewrite D. destruct x; try discriminate Hx; reflexivity.
Qed.

(** *** The loading indicator *)

Lemma replay_dom_not_loading evs n :
  forallb not_loading evs = true -> replay_dom loadingIndicator evs n = n.
Proof.
  revert n; induction evs as [|ev evs IH]; intros n H; simpl in *; auto.
  apply andb_true_iff in H. destruct H as [H1 H2].
  unfold replay_dom in *.
  replace (apply_effect loadingIndicator n ev) with n; [apply IH; auto|].
  destruct ev as [e' m| | | | | | |]; auto.
  destruct e'; simpl in *; auto; discriminate.
Qed.

Lemma not_loading_keeps {A} (m : M A) s :
  obeys not_loading m -> loading_cleared s -> loading_cleared (snd (m s)).
Proof.
  intros O [H1 H2]. destruct (O s) as (evs & _ & F & _ & _ & D & _).
  unfold loading_cleared. rewrite D, replay_dom_not_loading; auto.
Qed.

Lemma after_hideLoading {A} (rest : M A) s :
  obeys not_loading rest ->
  match (hideLoading ;; rest) s with
  | (Throw _, s') => page s loadingIndicator = true -> loading_cleared s'
  | (Normal _, s') => loading_cleared s'
  end.
Proof.
  intros O. pose proof (not_loading_keeps rest) as K. unfold bind.
  assert (H : match hideLoading s with
              | (Normal _, s1) => loading_cleared s1
              | (Throw _, _) => page s loadingIndicator = false
              end).
  { destruct s as [pg d st h ls ck tm ln tr]. unfold hideLoading, bind, set.
    on_page pg; first [congruence | split; reflexivity]. }
  destruct (hideLoading s) as [[[]|e] s1].
  - specialize (K s1 O H). destruct (rest s1) as [[a|e] s2]; simpl in K; auto.
  - intros E. congruence.
Qed.

(** A segment of the [try] statement that has not returned without
    clearing the indicator leaves it cleared, unless it suspends. *)
Lemma in_try_loading segment s :
  page s loadingIndicator = true ->
  obeys scripted segment ->
  match segment s with
  | (Normal None, s') => loading_cleared s'
  | _ => True
  end ->
  match in_try segment s with
  | (Normal (Some _), _) => True
  | (_, s') => loading_cleared s'
  end.
Proof.
  intros Hp O H. unfold in_try, unless_suspended, try_catch.
  assert (F : obeys not_loading checkUrl_finally) by obey.
  destruct (O s) as (evs & _ & _ & Pg & _).
  destruct (segment s) as [[[t|]|e] s1]; simpl in *; auto.
  - pose proof (not_loading_keeps _ s1 F H) as K.
    destruct (checkUrl_finally s1) as [[[]|e'] s2]; exact K.
  - assert (R : obeys not_loading
                  (showError
                     (if is_empty (message e)
                      then js "An error occurred while checking the URL"
                      else message e) Danger ;;
                   emit (Logged (js "Error:")))) by obey.
    pose proof (after_hideLoading _ s1 R) as K.
    unfold checkUrl_catch, bind at 1.
    match type of K with
    | match ?b s1 with _ => _ end =>
        destruct (b s1) as [[[]|e'] s2]
    end; simpl.
    + pose proof (not_loading_keeps _ s2 F K) as K2.
      destruct (checkUrl_finally s2) as [[[]|e''] s3]; exact K2.
    + assert (K1 : loading_cleared s2) by (apply K; congruence).
      pose proof (not_loading_keeps _ s2 F K1) as K2.
      destruct (checkUrl_finally s2) as [[[]|e''] s3]; exact K2.
Qed.

Lemma returns_some_not_none {A} (m : M (option A)) s :
  returns (fun o => o <> None) m ->
  match m s with
  | (Normal None, s') => loading_cleared s'
  | _ => True
  end.
Proof.
  intros R. specialize (R s). destruct (m s) as [[[a|]|e] s']; simpl in *; auto.
  congruence.
Qed.

(** X8. On a page that has the input field and the
    loading indicator, every check that passes validation ends with the
    indicator hidden and emptied, whatever the network answers and
    whichever step throws. *)
Theorem loading_indicator_is_cleared_at_the_end :
  forall (s : State) (u : jsstring) (response : settled bool)
         (json : settled value),
    page s urlInput = true ->
    page s loadingIndicator = true ->
    validate (field_value (dom s urlInput)) = inr u ->
    loading_cleared (snd (lifecycle response json s)).
Proof.
  intros s u response json Hu Hl Hv. unfold lifecycle.
  pose proof (checkUrl_returns s) as R1.
  assert (O1 : obeys scripted checkUrl) by (unfold checkUrl; obey).
  destruct (O1 s) as (evs1 & _ & _ & Pg1 & _).
  revert R1 Pg1. rewrite (checkUrl_valid s u Hu Hv).
  match goal with
  | |- context [in_try ?seg s] =>
      pose proof (in_try_loading seg s Hl) as L1
  end.
  match type of L1 with
  | ?P -> ?Q -> _ =>
      assert (HP : P) by obey;
      assert (HQ : Q)
        by (apply returns_some_not_none;
            repeat (apply returns_bind; intros ?);
            apply returns_ret; discriminate);
      specialize (L1 HP HQ); clear HP HQ
  end.
  match type of L1 with
  | match ?r with _ => _ end => destruct r as [[[t1|]|e1] s1]
  end; simpl; intros R1 Pg1; try exact L1.
  destruct t1 as [u1 t0|u1 t0|u1 t0]; try contradiction.
  cbv beta iota delta [resume].
  assert (Hl1 : page s1 loadingIndicator = true) by congruence.
  pose proof (after_fetch_returns u1 t0 response s1) as R2.
  pose proof (after_fetch_suspended_same u1 t0 response s1) as Same.
  revert R2 Same. unfold after_fetch.
  match goal with
  | |- context [in_try ?seg s1] =>
      pose proof (in_try_loading seg s1 Hl1) as L2
  end.
  match type of L2 with
  | ?P -> ?Q -> _ =>
      assert (HP : P) by obey;
      assert (HQ : Q)
        by (apply returns_some_not_none;
            apply returns_bind; intros ok;
            destruct (negb ok); apply returns_ret; discriminate);
      specialize (L2 HP HQ); clear HP HQ
  end.
  match type of L2 with
  | match ?r with _ => _ end => destruct r as [[[t2|]|e2] s2]
  end; simpl; intros R2 Same; try exact L2.
  specialize (Same eq_refl). subst s2.
  destruct t2 as [u2 t2|u2 t2|u2 t2]; try contradiction.
  - unfold after_error_body.
    match goal with
    | |- context [in_try ?seg s1] =>
        pose proof (in_try_loading seg s1 Hl1) as L3;
        pose proof (after_error_body_returns json s1) as R3
    end.
    unfold after_error_body in R3.
    match type of L3 with
    | ?P -> ?Q -> _ =>
        assert (HP : P) by obey;
        assert (HQ : Q)
          by (apply returns_some_not_none;
              repeat (apply returns_bind; intros ?); apply returns_throw);
        specialize (L3 HP HQ); clear HP HQ
    end.
    match type of L3 with
    | match ?r with _ => _ end => destruct r as [[[t3|]|e3] s3]
    end; simpl in *; try exact L3. contradiction.
  - unfold after_data.
    match goal with
    | |- context [in_try ?seg s1] =>
        pose proof (in_try_loading seg s1 Hl1) as L3;
        pose proof (after_data_returns u2 t2 json s1) as R3
    end.
    unfold after_data in R3.
    match type of L3 with
    | ?P -> ?Q -> _ =>
        assert (HP : P) by obey;
        assert (HQ : Q);
        [ | specialize (L3 HP HQ); clear HP HQ ]
    end.
    { destruct json as [e|data]; [exact I|].
      change (lift (inr data)) with (@ret value data).
      rewrite (bind_after (ret data) _ s1 data s1 eq_refl).
      unfold now. rewrite (bind_after (gets clock) _ s1 (clock s1) s1 eq_refl).
      match goal with
      | |- match (hideLoading ;; ?rest) s1 with _ => _ end =>
          pose proof (after_hideLoading rest s1) as K;
          assert (OR : obeys not_loading rest) by obey;
          specialize (K OR);
          destruct ((hideLoading ;; rest) s1) as [[[t|]|e] sx]; auto
      end. }
    match type of L3 with
    | match ?r with _ => _ end => destruct r as [[[t3|]|e3] s3]
    end; simpl in *; try exact L3. contradiction.
Qed.

(** *** The history panel *)

Lemma set_present s e m :
  page s e = true ->
  set e m s = (Normal tt, snd (set e m s)) /\
  page (snd (set e m s)) = page s /\
  dom (snd (set e m s)) = update e (mutate m (dom s e)) (dom s) /\
  memory (snd (set e m s)) = memory s /\
  clock (snd (set e m s)) = clock s.
Proof. unfold set. intros ->. destruct s; repeat split. Qed.

Lemma append_rows items : forall s acc,
  page s historyList = true ->
  body (dom s historyList) = Rows acc ->
  exists s',
    for_each items (fun item => set historyList (AppendRow (row_of item))) s
    = (Normal tt, s') /\
    body (dom s' historyList) = Rows (acc ++ map row_of items) /\
    page s' = page s /\
    (forall e, e <> historyList -> dom s' e = dom s e) /\
    memory s' = memory s.
Proof.
  induction items as [|item items IH]; intros s acc Hp Hb; simpl.
  - exists s. rewrite app_nil_r. repeat split; auto.
  - destruct (set_present s historyList (AppendRow (row_of item)) Hp)
      as (E & Pg & D & Me & _).
    rewrite (bind_after _ _ s tt _ E).
    destruct (IH (snd (set historyList (AppendRow (row_of item)) s))
                (acc ++ [row_of item])) as (s' & E' & B' & Pg' & D' & Me').
    + congruence.
    + rewrite D. unfold update. simpl. rewrite Hb. reflexivity.
    + exists s'. split; [exact E'|]. rewrite B', Pg', Me', <- app_assoc.
      repeat split; auto.
      intros e Ne. rewrite D'; auto. rewrite D. unfold update.
      destruct (elem_beq historyList e) eqn:Eq; auto.
      apply elem_beq_true in Eq. congruence.
Qed.

Lemma displayHistory_renders s history :
  page s historyList = true ->
  page s historyContainer = true ->
  history <> [] ->
  exists s',
    displayHistory history s = (Normal tt, s') /\
    body (dom s' historyList) = Rows (map row_of history) /\
    hidden (dom s' historyContainer) = false /\
    page s' = page s /\ memory s' = memory s.
Proof.
  intros Hl Hc Hn. unfold displayHistory.
  destruct history as [|item items]; [congruence|].
  change (List.length (item :: items) =? 0)%nat with false. cbv iota.
  destruct (set_present s historyList (SetContent (Rows [])) Hl)
    as (E1 & Pg1 & D1 & Me1 & _).
  rewrite (bind_after _ _ s tt _ E1).
  set (s1 := snd (set historyList (SetContent (Rows [])) s)) in *.
  destruct (append_rows (item :: items) s1 []) as (s2 & E2 & B2 & Pg2 & D2 & Me2).
  - congruence.
  - rewrite D1. reflexivity.
  - rewrite (bind_after _ _ s1 tt _ E2).
    assert (Hc2 : page s2 historyContainer = true) by congruence.
    destruct (set_present s2 historyContainer (SetHidden false) Hc2)
      as (E3 & Pg3 & D3 & Me3 & _).
    eexists. split; [exact E3|]. rewrite D3, Pg3, Me3. unfold update. simpl.
    rewrite B2, Pg2, Pg1, Me2, Me1. repeat split.
Qed.

(** X9. On a page with the history elements, [displayHistory]
    of a non-empty history replaces what the list showed by one row per
    entry, in the order of the entries, and makes the container visible;
    of an empty history it only hides the container, and the list keeps
    the rows it had. *)
Theorem displayHistory_shows_one_row_per_entry :
  forall (s : State) (history : list HistoryItem),
    page s historyList = true ->
    page s historyContainer = true ->
    fst (displayHistory history s) = Normal tt /\
    (history <> [] ->
     body (dom (snd (displayHistory history s)) historyList)
     = Rows (map row_of history) /\
     hidden (dom (snd (displayHistory history s)) historyContainer) = false) /\
    (history = [] ->
     dom (snd (displayHistory history s)) historyList = dom s historyList /\
     hidden (dom (snd (displayHistory history s)) historyContainer) = true).
Proof.
  intros s history Hl Hc. destruct history as [|item items].
  - unfold displayHistory.
    change (List.length (@nil HistoryItem) =? 0)%nat with true. cbv iota.
    destruct (set_present s historyContainer (SetHidden true) Hc)
      as (E & _ & D & _).
    rewrite E. simpl fst. simpl snd. rewrite D. unfold update. simpl.
    repeat split; congruence.
  - destruct (displayHistory_renders s (item :: items) Hl Hc)
      as (s' & E & B & H & _); [discriminate|].
    rewrite E. simpl fst. simpl snd. repeat split; auto; discriminate.
Qed.

(** X10. On a page with the history elements, after
    [addToSessionHistory] the list shows exactly the history, newest
    first: its first row is for the URL just checked, labelled by the
    truth of the verdict, and the container is visible.  A [loadHistory]
    after that shows the same rows. *)
Theorem history_panel_mirrors_the_history :
  forall (s : State) (u : jsstring) (v : value),
    page s historyList = true ->
    page s historyContainer = true ->
    body (dom (snd (addToSessionHistory u v s)) historyList)
    = Rows (map row_of (sessionHistory (snd (addToSessionHistory u v s)))) /\
    hd_error (map row_of (sessionHistory (snd (addToSessionHistory u v s))))
    = Some {| row_url := u; row_phishing := truthy v; row_time := clock s |} /\
    hidden (dom (snd (addToSessionHistory u v s)) historyContainer) = false /\
    body (dom (snd (loadHistory (snd (addToSessionHistory u v s)))) historyList)
    = Rows (map row_of (sessionHistory (snd (addToSessionHistory u v s)))) /\
    hidden (dom (snd (loadHistory (snd (addToSessionHistory u v s))))
              historyContainer) = false /\
    sessionHistory (snd (loadHistory (snd (addToSessionHistory u v s))))
    = sessionHistory (snd (addToSessionHistory u v s)).
Proof.
  intros s u v Hl Hc.
  pose proof (addToSessionHistory_memory u v s) as Me.
  set (item := {| url := u; isPhishing := v; timestamp := clock s |}) in *.
  assert (Hn : push item (sessionHistory s) <> []).
  { rewrite push_firstn. discriminate. }
  assert (E : exists s',
             addToSessionHistory u v s = (Normal tt, s') /\
             sessionHistory s' = push item (sessionHistory s) /\
             body (dom s' historyList) = Rows (map row_of (sessionHistory s')) /\
             hidden (dom s' historyContainer) = false /\
             page s' = page s).
  { unfold addToSessionHistory, now.
    rewrite (bind_after (gets clock) _ s (clock s) s eq_refl).
    rewrite (bind_after (gets sessionHistory) _ s (sessionHistory s) s eq_refl).
    fold item.
    set (s1 := snd (assign_sessionHistory (push item (sessionHistory s)) s)).
    rewrite (bind_after (assign_sessionHistory _) _ s tt s1 eq_refl).
    assert (H1 : sessionHistory s1 = push item (sessionHistory s))
      by (destruct s; reflexivity).
    assert (P1 : page s1 = page s) by (destruct s; reflexivity).
    rewrite (bind_after (gets sessionHistory) _ s1 (sessionHistory s1) s1 eq_refl).
    rewrite H1.
    destruct (displayHistory_renders s1 (push item (sessionHistory s)))
      as (s' & E & B & H & Pg & Me'); try congruence.
    exists s'. split; [exact E|].
    assert (H' : sessionHistory s' = push item (sessionHistory s)).
    { unfold memory in Me'. injection Me' as _ Hh. congruence. }
    rewrite H'. repeat split; auto; congruence. }
  destruct E as (s' & E & H' & B & Hd & Pg). rewrite E. simpl snd.
  split; [exact B|]. split; [rewrite H', push_firstn; reflexivity|].
  split; [exact Hd|].
  unfold loadHistory, try_catch.
  rewrite (bind_after (gets sessionHistory) _ s' (sessionHistory s') s' eq_refl).
  destruct (displayHistory_renders s' (sessionHistory s'))
    as (s2 & E2 & B2 & H2 & _ & Me2); try congruence.
  rewrite E2. simpl snd. unfold memory in Me2. injection Me2 as _ Hh.
  auto.
Qed.

(** *** The announcement banner *)

Lemma keeps_banner_refl s : keeps_banner s s.
Proof. repeat split. Qed.

Lemma keeps_banner_trans s1 s2 s3 :
  keeps_banner s1 s2 -> keeps_banner s2 s3 -> keeps_banner s1 s3.
Proof. unfold keeps_banner. intuition congruence. Qed.

(** A write, an assignment or a log entry, on a state given by its
    fields. *)
Ltac primitive :=
  intros [pg d st h ls ck tm ln tr];
  unfold set, emit, assign_statistics, assign_sessionHistory,
    addEventListener, setTimeout_hideError;
  cbn;
  repeat match goal with
         | |- context [if ?b then _ else _] => destruct b
         end;
  cbn; repeat split.

Ltac keep_banner :=
  repeat first
    [ apply (relates_ret _ keeps_banner_refl)
    | apply (relates_throw _ keeps_banner_refl)
    | apply (relates_gets _ keeps_banner_refl)
    | apply (relates_lift _ keeps_banner_refl)
    | apply (relates_bind _ keeps_banner_trans); [ | intros ? ]
    | apply (relates_try_catch _ keeps_banner_trans); [ | intros ? ]
    | apply (relates_for_each _ keeps_banner_refl keeps_banner_trans); intros ?
    | match goal with
      | |- relates _ (if ?b then _ else _) => destruct b
      end
    | solve [primitive]
    | progress autounfold with controller ].

Lemma startup_keeps_banner :
  relates keeps_banner register_listeners /\
  relates keeps_banner hideLoading /\
  relates keeps_banner hideError /\
  relates keeps_banner hideResult /\
  relates keeps_banner loadHistory /\
  relates keeps_banner (updateStatistics VUndefined).
Proof.
  repeat match goal with |- _ /\ _ => split end;
    try (unfold register_listeners); keep_banner.
Qed.

(** On a complete page the start-up sequence gets as far as reading the
    announcement flag, with the storage and the banner untouched. *)
Lemma load_reaches_banner pg doc stored t :
  (forall e, pg e = true) ->
  exists s5,
    heap (load pg doc stored t)
    = snd (try_catch checkAnnouncementBanner
             (fun error => emit (Logged (js "Error initializing page:"))) s5) /\
    complete s5 /\ localStorage s5 = stored /\
    dom s5 announcementBanner = doc announcementBanner.
Proof.
  intros C. unfold load, main. simpl heap.
  destruct startup_keeps_banner as (K0 & K1 & K2 & K3 & K4 & K5).
  set (s := fresh pg doc stored t).
  destruct (register_listeners_complete s C) as (s0 & E0 & Pg0 & _).
  assert (C0 : complete s0) by (intros e; rewrite Pg0; apply C).
  specialize (K0 s). rewrite E0 in K0. simpl in K0.
  rewrite (bind_after _ _ s tt s0 E0).
  assert (S1 : succeeds (quiet is_milestone) hideLoading) by succeed.
  destruct (succeeds_result S1 C0) as ([] & s1 & R1).
  pose proof (result_on_complete R1 C0) as C1.
  assert (S2 : succeeds (quiet is_milestone) hideError) by succeed.
  destruct (succeeds_result S2 C1) as ([] & s2 & R2).
  pose proof (result_on_complete R2 C1) as C2.
  assert (S3 : succeeds (quiet is_milestone) hideResult) by succeed.
  destruct (succeeds_result S3 C2) as ([] & s3 & R3).
  pose proof (result_on_complete R3 C2) as C3.
  destruct (succeeds_result loadHistory_succeeds C3) as ([] & s4 & R4).
  pose proof (result_on_complete R4 C3) as C4.
  destruct (updateStatistics_result s4 VUndefined C4) as (s5 & R5).
  pose proof (result_on_complete R5 C4) as C5.
  specialize (K1 s0). specialize (K2 s1). specialize (K3 s2).
  specialize (K4 s3). specialize (K5 s4).
  rewrite (proj1 R1) in K1. rewrite (proj1 R2) in K2. rewrite (proj1 R3) in K3.
  rewrite (proj1 R4) in K4. rewrite (proj1 R5) in K5. simpl in K1, K2, K3, K4, K5.
  exists s5. split.
  - unfold initializePage, startup_tasks, try_catch.
    rewrite (bind_after _ _ s0 tt s1 (proj1 R1)).
    rewrite (bind_after _ _ s1 tt s2 (proj1 R2)).
    rewrite (bind_after _ _ s2 tt s3 (proj1 R3)).
    rewrite (bind_after _ _ s3 tt s4 (proj1 R4)).
    rewrite (bind_after _ _ s4 tt s5 (proj1 R5)).
    reflexivity.
  - split; [exact C5|].
    pose proof (keeps_banner_trans _ _ _ K0
                  (keeps_banner_trans _ _ _ K1
                     (keeps_banner_trans _ _ _ K2
                        (keeps_banner_trans _ _ _ K3
                           (keeps_banner_trans _ _ _ K4 K5))))) as (L & D & _).
    rewrite L, D. split; reflexivity.
Qed.

Lemma checkAnnouncementBanner_reads s items :
  localStorage s = Some items ->
  page s announcementBanner = true ->
  checkAnnouncementBanner s
  = if announcement_closed items
    then set announcementBanner (SetHidden true) s
    else (Normal tt, s).
Proof.
  destruct s as [pg d st h ls ck tm ln tr]. simpl. intros -> Hp.
  unfold checkAnnouncementBanner, bind, getItem, gets, announcement_closed.
  cbn. rewrite Hp.
  destruct (find _ items) as [[k v]|]; cbn; [destruct (is_empty v)|];
    reflexivity.
Qed.

(** X11. On a complete page, loading hides the announcement
    banner exactly when storage holds a non-empty closed flag, and
    otherwise leaves the banner as the document has it; and closing the
    announcement, when storage is available, stores a flag with which
    every later load hides the banner. *)
Theorem closed_announcement_stays_closed :
  forall (pg : elem -> bool) (doc : elem -> node)
         (items : list (jsstring * jsstring)) (t : Z),
    (forall e, pg e = true) ->
    (announcement_closed items = true ->
     hidden (dom (heap (load pg doc (Some items) t)) announcementBanner)
     = true) /\
    (announcement_closed items = false ->
     dom (heap (load pg doc (Some items) t)) announcementBanner
     = doc announcementBanner) /\
    (forall s : State,
       localStorage s = Some items ->
       exists items',
         localStorage (snd (closeAnnouncement s)) = Some items' /\
         announcement_closed items' = true /\
         hidden (dom (heap (load pg doc (Some items') t)) announcementBanner)
         = true).
Proof.
  intros pg doc items t C.
  assert (H : forall items0,
             (announcement_closed items0 = true ->
              hidden (dom (heap (load pg doc (Some items0) t))
                        announcementBanner) = true) /\
             (announcement_closed items0 = false ->
              dom (heap (load pg doc (Some items0) t)) announcementBanner
              = doc announcementBanner)).
  { intros items0.
    destruct (load_reaches_banner pg doc (Some items0) t C)
      as (s5 & -> & C5 & L & D).
    unfold try_catch.
    rewrite (checkAnnouncementBanner_reads s5 items0 L (C5 announcementBanner)).
    destruct (announcement_closed items0).
    - destruct (set_present s5 announcementBanner (SetHidden true)
                  (C5 announcementBanner)) as (E & _ & D' & _).
      rewrite E. simpl snd. rewrite D'. unfold update. simpl.
      split; [reflexivity|discriminate].
    - simpl. split; [discriminate|]. intros _. exact D. }
  split; [apply H|]. split; [apply H|].
  intros s L.
  exists ((ANNOUNCEMENT_CLOSED, js "true")
          :: filter (fun kv => negb (str_eqb (fst kv) ANNOUNCEMENT_CLOSED)) items).
  assert (A : announcement_closed
                ((ANNOUNCEMENT_CLOSED, js "true")
                 :: filter (fun kv => negb (str_eqb (fst kv) ANNOUNCEMENT_CLOSED))
                      items) = true) by reflexivity.
  split; [|split; [exact A|apply H; exact A]].
  destruct s as [pg' d st h ls ck tm ln tr]. simpl in L. subst ls.
  unfold closeAnnouncement, bind, gets, set, setItem.
  on_page pg'; first [congruence | reflexivity].
Qed.

(** *** Start-up *)

Lemma register_listeners_outcome s :
  listeners s = [] ->
  if forallb (page s) required
  then register_listeners s
       = (Normal tt, with_listeners (registered (page s)) s)
  else exists e n,
         register_listeners s
         = (Throw e, with_listeners (firstn n installed) s) /\ (n < 4)%nat.
Proof.
  destruct s as [pg d st h ls ck tm ln tr]. simpl. intros ->.
  unfold register_listeners, registered, bind, addEventListener, gets, ret.
  cbn. destruct (pg checkButton) eqn:H1; cbn;
    [|eexists; exists 0%nat; split; [reflexivity|lia]].
  destruct (pg urlInput) eqn:H2; cbn;
    [|eexists; exists 1%nat; split; [reflexivity|lia]].
  destruct (pg reportButton) eqn:H3; cbn;
    [|eexists; exists 2%nat; split; [reflexivity|lia]].
  destruct (pg clearHistoryButton) eqn:H4; cbn;
    [|eexists; exists 3%nat; split; [reflexivity|lia]].
  destruct (pg closeBannerButton) eqn:H5; cbn; rewrite ?H5; reflexivity.
Qed.

Lemma initializePage_leaves_a_trace s :
  exists ev evs, trace (snd (initializePage s)) = trace s ++ ev :: evs.
Proof.
  unfold initializePage, try_catch.
  destruct (page s loadingIndicator) eqn:Hp.
  - destruct (set_present s loadingIndicator (SetHidden true) Hp)
      as (E & _).
    unfold hideLoading at 1.
    match goal with
    | |- context [bind (bind (set ?e ?m) ?k1) ?k2 s] =>
        assert (B : bind (bind (set e m) k1) k2 s
                    = bind (k1 tt) k2 (snd (set e m s)))
          by (unfold bind at 1 2; rewrite E; reflexivity);
        rewrite B; clear B;
        assert (O : obeys scripted
                      (try_catch (bind (k1 tt) k2)
                         (fun error =>
                            emit (Logged (js "Error initializing page:")))))
          by obey;
        destruct (O (snd (set e m s))) as (evs & T & _)
    end.
    unfold try_catch in T. rewrite T.
    exists (Dom loadingIndicator (SetHidden true)), evs.
    unfold set. rewrite Hp. destruct s; simpl. rewrite <- app_assoc. reflexivity.
  - assert (E : hideLoading s
                = (Throw (Exn TypeError (js "Cannot set properties of null")), s))
      by (unfold hideLoading, bind, set; rewrite Hp; reflexivity).
    rewrite (bind_throws _ _ s _ s E).
    exists (Logged (js "Error initializing page:")), [].
    destruct s; reflexivity.
Qed.

Lemma load_fixture pg doc stored t :
  forallb pg required = true ->
  page (heap (load pg doc stored t)) = pg /\
  listeners (heap (load pg doc stored t)) = registered pg /\
  dom (heap (load pg doc stored t)) reportButton = doc reportButton.
Proof.
  intros H. unfold load, main. simpl heap.
  pose proof (register_listeners_outcome (fresh pg doc stored t) eq_refl) as R.
  simpl page in R. rewrite H in R.
  rewrite (bind_after _ _ _ tt _ R).
  assert (O : obeys not_button initializePage) by obey.
  destruct (O (with_listeners (registered pg) (fresh pg doc stored t)))
    as (evs & _ & F & Pg & Ls & D & _).
  rewrite Pg, Ls, D. repeat split.
  clear - F. induction evs as [|ev evs IH]; simpl in *; auto.
  apply andb_true_iff in F. destruct F as [F1 F2].
  unfold replay_dom in *.
  replace (apply_effect reportButton (doc reportButton) ev)
    with (doc reportButton); [apply IH; auto|].
  destruct ev as [e' m| | | | | | |]; auto.
  destruct e'; simpl in *; auto; discriminate.
Qed.

(** X12. The listeners of the trigger, the input field,
    the report button and the clear button are registered without a
    guard: on a page that lacks one of the four, start-up stops there,
    with fewer than four listeners, before [initializePage] is called,
    so nothing is written to the page and the counters stay at zero.  On
    a page that has the four, start-up goes on to [initializePage], which
    always leaves a trace, whether or not the page has the button that
    closes the announcement. *)
Theorem missing_control_aborts_startup :
  forall (pg : elem -> bool) (doc : elem -> node)
         (stored : option (list (jsstring * jsstring))) (t : Z),
    (forallb pg required = false ->
     trace (heap (load pg doc stored t)) = [] /\
     dom (heap (load pg doc stored t)) = doc /\
     statistics (heap (load pg doc stored t))
     = {| totalScans := 0; safeUrls := 0; phishingUrls := 0 |} /\
     (List.length (listeners (heap (load pg doc stored t))) < 4)%nat) /\
    (forallb pg required = true ->
     trace (heap (load pg doc stored t)) <> [] /\
     listeners (heap (load pg doc stored t)) = registered pg).
Proof.
  intros pg doc stored t. split; intros H.
  - unfold load, main. simpl heap.
    pose proof (register_listeners_outcome (fresh pg doc stored t) eq_refl) as R.
    simpl page in R. rewrite H in R. destruct R as (e & n & R & Hn).
    rewrite (bind_throws _ _ _ _ _ R). simpl.
    repeat split. rewrite length_firstn. simpl. lia.
  - split; [|apply load_fixture; exact H].
    unfold load, main. simpl heap.
    pose proof (register_listeners_outcome (fresh pg doc stored t) eq_refl) as R.
    simpl page in R. rewrite H in R.
    rewrite (bind_after _ _ _ tt _ R).
    destruct (initializePage_leaves_a_trace
                (with_listeners (registered pg) (fresh pg doc stored t)))
      as (ev & evs & T).
    rewrite T. simpl. discriminate.
Qed.

(** *** What holds from one event to the next *)

Section Session.
Variable R : State -> State -> Prop.
Hypothesis R_refl : forall s, R s s.
Hypothesis R_trans : forall s1 s2 s3, R s1 s2 -> R s2 s3 -> R s1 s3.
Hypothesis R_listener : forall l key, relates R (listener_body l key).
Hypothesis R_continuation :
  forall t r m, continuation t r = Some m -> relates R m.
Hypothesis R_typed :
  forall s text,
    R s (with_dom (update urlInput (mutate (SetValue text) (dom s urlInput))
                     (dom s)) s).
Hypothesis R_advance : forall t s, R s (advance t s).





End Session.







(** *** The two controls between checks *)












(** *** The keyboard and the report button *)







(** *** Messages and time *)

Lemma advance_idle t s :
  clock s <= t -> (forall d, In d (timers s) -> t < d) ->
  dom (advance t s) = dom s /\ timers (advance t s) = timers s.
Proof.
  intros Hc Hd. unfold advance.
  assert (K : clock (with_clock (Z.max (clock s) t) s) = t)
    by (destruct s; simpl in *; lia).
  assert (T : timers (with_clock (Z.max (clock s) t) s) = timers s)
    by (destruct s; reflexivity).
  rewrite K, T.
  assert (F : filter (fun d => d <=? t) (timers s) = []).
  { apply filter_none. apply forallb_forall. intros d Hin.
    apply negb_true_iff, Z.leb_gt, Hd, Hin. }
  assert (G : filter (fun d => negb (d <=? t)) (timers s) = timers s).
  { clear - Hd. induction (timers s) as [|d l IH]; simpl; auto.
    assert (H : (d <=? t) = false)
      by (apply Z.leb_gt, Hd; left; reflexivity).
    rewrite H. simpl. f_equal. apply IH. intros d' Hin. apply Hd. right.
    exact Hin. }
  rewrite F, G. simpl. destruct s; split; reflexivity.
Qed.

(** X16. A message stays until a timer is due.  Shown at
    a time when every pending timer is due after [t], on a page with the
    message area, it is still visible at [t], with its text: always when
    it is an error, which schedules no timer, and for less than 3000
    milliseconds when it is a success message. *)
Theorem message_stays_until_a_timer_is_due :
  forall (s : State) (message : jsstring) (type : tone) (t : Z),
    page s errorContainer = true ->
    page s errorMessage = true ->
    clock s <= t ->
    (forall d, In d (timers s) -> t < d) ->
    (type = Success -> t < clock s + 3000) ->
    hidden (dom (advance t (snd (showError message type s))) errorContainer)
    = false /\
    body (dom (advance t (snd (showError message type s))) errorMessage)
    = Text message /\
    (type = Danger -> timers (snd (showError message type s)) = timers s).
Proof.
  intros s message type t H1 H2 Hc Hd Ht.
  destruct (showError_shows s message type H1 H2) as (T & K & _ & V & B).
  destruct (advance_idle t (snd (showError message type s))) as [D _].
  - rewrite K. exact Hc.
  - intros d Hin. rewrite T in Hin. apply in_app_or in Hin.
    destruct Hin as [Hin|Hin]; [apply Hd, Hin|].
    destruct type; simpl in Hin; [contradiction|].
    destruct Hin as [<-|[]]. apply Ht. reflexivity.
  - rewrite D. split; [exact V|]. split; [exact B|].
    intros ->. rewrite T. apply app_nil_r.
Qed.

(** *** The scheme *)

Lemma scheme_state_spec input : forall buffer,
  scheme_state buffer input
  = match drop_while is_scheme_char input with
    | d :: rest =>
        if N.eqb d (code ":")
        then Some (buffer ++ map to_lower (take_while is_scheme_char input),
                   rest)
        else None
    | [] => None
    end.
Proof.
  induction input as [|c rest IH]; intros buffer; simpl; [reflexivity|].
  destruct (is_scheme_char c) eqn:E.
  - rewrite IH. destruct (drop_while is_scheme_char rest) as [|d rest'];
      [reflexivity|].
    simpl. rewrite <- app_assoc. reflexivity.
  - simpl. rewrite app_nil_r. reflexivity.
Qed.

Lemma scheme_start_state_spec input :
  scheme_start_state input = scheme_of input.
Proof.
  destruct input as [|c r]; simpl; [reflexivity|].
  destruct (is_alpha c); [|reflexivity].
  rewrite scheme_state_spec. reflexivity.
Qed.

Lemma basic_url_parser_spec input :
  basic_url_parser input
  = match scheme_of (url_input input) with
    | None => false
    | Some (scheme, rest) =>
        if str_eqb scheme (js "file") then file_state rest
        else if is_special scheme then
          authority_state true (drop_while is_slash rest)
        else if starts_authority rest
             then authority_state false (tl (tl rest))
             else true
    end.
Proof.
  unfold basic_url_parser. fold (url_input input).
  rewrite scheme_start_state_spec.
  destruct (scheme_of (url_input input)) as [[scheme rest]|]; [|reflexivity].
  destruct (str_eqb scheme (js "file")); [reflexivity|].
  destruct (is_special scheme); [reflexivity|].
  destruct rest as [|c1 [|c2 rest]]; reflexivity.
Qed.

(** *** The authority *)

Lemma take_while_app (p : N -> bool) a b :
  forallb p a = true ->
  match b with [] => true | c :: _ => negb (p c) end = true ->
  take_while p (a ++ b) = a.
Proof.
  intros Ha Hb. induction a as [|x a IH]; simpl in *.
  - destruct b as [|c b]; [reflexivity|]. simpl.
    apply negb_true_iff in Hb. rewrite Hb. reflexivity.
  - apply andb_prop in Ha. destruct Ha as [Hx Ha]. rewrite Hx, IH; auto.
Qed.

Lemma after_last_at_plain input : forall seen buffer,
  forallb (fun c => negb (N.eqb c (code "@"))) input = true ->
  after_last_at seen buffer input = (seen, buffer ++ input).
Proof.
  induction input as [|c rest IH]; intros seen buffer H; simpl in *.
  - rewrite app_nil_r. reflexivity.
  - apply andb_prop in H. destruct H as [Hc H].
    apply negb_true_iff in Hc. rewrite Hc, IH by exact H.
    rewrite <- app_assoc. reflexivity.
Qed.

Lemma host_state_plain host port : forall buffer,
  forallb is_host_char host = true ->
  host_state true false buffer (authority_text host port)
  = negb (is_empty (buffer ++ host))
    && host_parser false (buffer ++ host)
    && match port with Some p => port_state p | None => true end.
Proof.
  unfold authority_text.
  induction host as [|c host IH]; intros buffer H.
  - rewrite app_nil_r. simpl.
    destruct port as [p|]; simpl.
    + destruct (is_empty buffer); reflexivity.
    + destruct (is_empty buffer); simpl; [reflexivity|].
      rewrite andb_true_r. reflexivity.
  - simpl in H. apply andb_prop in H. destruct H as [Hc H].
    unfold is_host_char in Hc. apply andb_prop in Hc. destruct Hc as [_ Hc].
    apply negb_true_iff in Hc. apply orb_false_iff in Hc.
    destruct Hc as [Hc H3]. apply orb_false_iff in Hc. destruct Hc as [H1 H2].
    simpl in H1, H2, H3, IH. simpl. rewrite H1, H2, H3. simpl.
    rewrite IH by exact H. rewrite <- app_assoc. reflexivity.
Qed.



Lemma authority_state_plain host port tail :
  forallb is_host_char host = true ->
  match port with Some p => forallb is_authority_char p | None => true end
  = true ->
  after_authority tail = true ->
  authority_state true (authority_text host port ++ tail)
  = negb (is_empty host) && host_parser false host
    && match port with Some p => port_state p | None => true end.
Proof.
  intros Hh Hp Ht. unfold authority_state.
  assert (A : forallb is_authority_char (authority_text host port) = true).
  { unfold authority_text. rewrite forallb_app. apply andb_true_intro. split.
    - rewrite forallb_forall in *. intros c Hc. specialize (Hh c Hc).
      unfold is_host_char in Hh. apply andb_prop in Hh. apply Hh.
    - destruct port as [p|]; [|reflexivity]. simpl. rewrite Hp.
      reflexivity. }
  rewrite take_while_app.
  - rewrite after_last_at_plain.
    + simpl. apply (host_state_plain host port []). exact Hh.
    + rewrite forallb_forall in *. intros c Hc. specialize (A c Hc).
      unfold is_authority_char in A. apply andb_prop in A. apply A.
  - rewrite forallb_forall in *. intros c Hc. specialize (A c Hc).
    unfold is_authority_char in A. apply andb_prop in A. apply A.
  - destruct tail as [|c tail]; [reflexivity|]. simpl in Ht. rewrite Ht.
    reflexivity.
Qed.

Lemma not_special_not_file scheme :
  is_special scheme = false -> str_eqb scheme (js "file") = false.
Proof.
  unfold is_special. simpl. intros H.
  repeat (apply orb_false_iff in H; destruct H as [? H]). assumption.
Qed.

(** C7, as the code has it.  Validation trims first; an empty result is
    [EmptyInputError]; otherwise the verdict is the URL parser's: what
    [new URL] rejects is [InvalidFormatError], what it accepts validates
    to the trimmed string.  The parser rejects every string that has no
    scheme, a string with no [":"] in particular.  It accepts every
    string whose scheme is not a special one and is not followed by two
    slashes, so a scheme alone is enough.  After [http], [https], [ftp],
    [ws] or [wss], any number of slashes, a host with no delimiter in it
    and possibly a port, the verdict is the host parser's on a
    non-empty host together with the port being a number up to 65535,
    so a string with scheme, authority and path can be rejected. *)
Theorem validate_follows_url_parser :
  forall raw : jsstring,
    (trim raw = [] -> validate raw = inl EmptyInputError) /\
    (trim raw <> [] -> basic_url_parser (trim raw) = false ->
     validate raw = inl InvalidFormatError) /\
    (trim raw <> [] -> basic_url_parser (trim raw) = true ->
     validate raw = inr (trim raw)) /\
    (trim raw <> [] -> ~ In 58%N (trim raw) ->
     validate raw = inl InvalidFormatError) /\
    (trim raw <> [] -> scheme_of (url_input (trim raw)) = None ->
     validate raw = inl InvalidFormatError) /\
    (forall scheme rest,
       scheme_of (url_input (trim raw)) = Some (scheme, rest) ->
       is_special scheme = false ->
       starts_authority rest = false ->
       validate raw = inr (trim raw)) /\
    (forall scheme rest host port tail,
       scheme_of (url_input (trim raw)) = Some (scheme, rest) ->
       is_special scheme = true ->
       str_eqb scheme (js "file") = false ->
       drop_while is_slash rest = authority_text host port ++ tail ->
       forallb is_host_char host = true ->
       match port with
       | Some p => forallb is_authority_char p
       | None => true
       end = true ->
       after_authority tail = true ->
       validate raw
       = if negb (is_empty host) && host_parser false host
            && match port with Some p => port_state p | None => true end
         then inr (trim raw)
         else inl InvalidFormatError).
Proof.
  intros raw.
  assert (Hs : forall scheme rest,
            scheme_of (url_input (trim raw)) = Some (scheme, rest) ->
            is_empty (trim raw) = false).
  { intros scheme rest H. destruct (trim raw); [discriminate H|reflexivity]. }
  unfold validate, isValidUrl.
  repeat split.
  - intros ->. reflexivity.
  - intros Hn ->. destruct (trim raw); [congruence|reflexivity].
  - intros Hn ->. destruct (trim raw); [congruence|reflexivity].
  - intros Hn Hc. rewrite basic_url_parser_needs_colon by exact Hc.
    destruct (trim raw); [congruence|reflexivity].
  - intros Hn H. rewrite basic_url_parser_spec, H.
    destruct (trim raw); [congruence|reflexivity].
  - intros scheme rest H Hsp Hau.
    rewrite (Hs _ _ H), basic_url_parser_spec, H.
    rewrite (not_special_not_file _ Hsp), Hsp, Hau. reflexivity.
  - intros scheme rest host port tail H Hsp Hf Hd Hh Hp Ht.
    rewrite (Hs _ _ H), basic_url_parser_spec, H, Hf, Hsp, Hd.
    rewrite (authority_state_plain host port tail Hh Hp Ht).
    match goal with
    | |- (if negb ?b then _ else _) = (if ?c then _ else _) =>
        change c with b; destruct b
    end; reflexivity.
Qed.

(** *** The start-up tasks, one by one *)

(** [initializePage] catches whatever its body throws. *)
Lemma initializePage_returns s : fst (initializePage s) = Normal tt.
Proof.
  unfold initializePage, try_catch.
  destruct ((hideLoading ;; hideError ;; hideResult ;; startup_tasks) s)
    as [[[]|e] s1]; reflexivity.
Qed.

Lemma outcome_of {A} (m : M A) s o :
  fst (m s) = o -> m s = (o, snd (m s)).
Proof. destruct (m s). simpl. intros ->. reflexivity. Qed.

Lemma skipn_prefix {A} (l r : list A) : skipn (List.length l) (l ++ r) = r.
Proof. induction l as [|x l IH]; [reflexivity|exact IH]. Qed.

Lemma writes_only_refl touched s : writes_only touched s s.
Proof. repeat split. Qed.

Lemma writes_only_trans touched s1 s2 s3 :
  writes_only touched s1 s2 -> writes_only touched s2 s3 ->
  writes_only touched s1 s3.
Proof.
  intros (P1 & L1 & D1) (P2 & L2 & D2). repeat split; try congruence.
  intros e He. rewrite D2, D1; auto.
Qed.

Lemma set_writes_only touched e m :
  touched e = true -> relates (writes_only touched) (set e m).
Proof.
  intros Ht [pg d st h ls ck tm ln tr]. unfold set. cbn.
  destruct (pg e); cbn; repeat split.
  intros e' He'. cbn. unfold update.
  destruct (elem_beq e e') eqn:E; [|reflexivity].
  apply elem_beq_true in E. congruence.
Qed.

Ltac only_writes :=
  repeat first
    [ apply (relates_ret _ (writes_only_refl _))
    | apply (relates_throw _ (writes_only_refl _))
    | apply (relates_gets _ (writes_only_refl _))
    | apply (relates_getItem _ (writes_only_refl _))
    | apply (relates_bind _ (writes_only_trans _)); [ | intros ? ]
    | apply (relates_try_catch _ (writes_only_trans _)); [ | intros ? ]
    | apply set_writes_only; reflexivity
    | match goal with
      | |- relates _ (if ?b then _ else _) => destruct b
      end
    | solve [intros [pg d st h ls ck tm ln tr]; repeat split]
    | progress autounfold with controller
    | progress unfold increment ].

Lemma updateStatistics_writes_only v :
  relates (writes_only is_counter) (updateStatistics v).
Proof. unfold updateStatistics. only_writes. Qed.

Lemma checkAnnouncementBanner_writes_only :
  relates (writes_only is_banner) checkAnnouncementBanner.
Proof. unfold checkAnnouncementBanner. only_writes. Qed.

Lemma effects_since_app s s' evs :
  trace s' = trace s ++ evs -> effects_since s s' = evs.
Proof.
  intros E. unfold effects_since. rewrite E. generalize (trace s).
  intros l. induction l as [|x l IH]; [reflexivity|exact IH].
Qed.

Lemma obeys_grows {A} P (m : M A) s :
  obeys P m ->
  exists evs, trace (snd (m s)) = trace s ++ evs /\ forallb P evs = true.
Proof.
  intros O. destruct (O s) as (evs & T & F & _). exists evs. split; assumption.
Qed.

(** The three calls that come before the tasks (108-110), on a page
    that has their elements. *)
Lemma startup_hides s :
  page s loadingIndicator = true ->
  page s errorContainer = true ->
  page s resultContainer = true ->
  exists s3,
    (forall k : M unit,
       (hideLoading ;; hideError ;; hideResult ;; k) s = k s3) /\
    keeps_banner s s3 /\
    memory s3 = memory s /\
    (forall e, is_counter e = true \/ e = historyList
               \/ e = historyContainer -> dom s3 e = dom s e) /\
    (exists evs, trace s3 = trace s ++ evs /\
                 forallb not_initializing_error evs = true).
Proof.
  destruct s as [pg d st h ls ck tm ln tr]. simpl. intros H1 H2 H3.
  eexists. split.
  - intros k. unfold hideLoading, hideError, hideResult, bind, set. cbn.
    rewrite H1. cbn. rewrite H1. cbn. rewrite H2. cbn. rewrite H3. cbn.
    reflexivity.
  - cbn. repeat split.
    + intros e [He|[->| ->]]; [destruct e; try discriminate He|..];
        reflexivity.
    + eexists. rewrite <- !app_assoc. split; reflexivity.
Qed.

(** [displayHistory] cannot do without the container. *)
Lemma displayHistory_needs_the_container history s :
  page s historyContainer = false ->
  exists e s', displayHistory history s = (Throw e, s').
Proof.
  intros Hc. unfold displayHistory.
  destruct history as [|item items].
  - simpl. unfold set. rewrite Hc. eauto.
  - change (List.length (item :: items) =? 0)%nat with false. cbv iota.
    destruct (page s historyList) eqn:Hl.
    + destruct (set_present s historyList (SetContent (Rows [])) Hl)
        as (E1 & Pg1 & D1 & _).
      rewrite (bind_after _ _ s tt _ E1).
      set (s1 := snd (set historyList (SetContent (Rows [])) s)) in *.
      destruct (append_rows (item :: items) s1 [])
        as (s2 & E2 & _ & Pg2 & _).
      * congruence.
      * rewrite D1. reflexivity.
      * rewrite (bind_after _ _ s1 tt _ E2).
        unfold set. replace (page s2 historyContainer) with false
          by congruence.
        eauto.
    + unfold bind at 1, set at 1. rewrite Hl. eauto.
Qed.

(** The history task: it returns whatever [displayHistory] does. *)
Lemma loadHistory_outcome s :
  fst (loadHistory s) = Normal tt /\
  (page s historyContainer = false ->
   In history_error (effects_since s (snd (loadHistory s)))) /\
  (page s historyList = true -> page s historyContainer = true ->
   hidden (dom (snd (loadHistory s)) historyContainer)
   = (List.length (sessionHistory s) =? 0)%nat /\
   (sessionHistory s <> [] ->
    body (dom (snd (loadHistory s)) historyList)
    = Rows (map row_of (sessionHistory s)))).
Proof.
  split; [apply loadHistory_never_throws|]. split.
  - intros Hc.
    destruct (displayHistory_needs_the_container (sessionHistory s) s Hc)
      as (e & s1 & E).
    assert (O : obeys scripted (displayHistory (sessionHistory s))) by obey.
    destruct (O s) as (evs & T & _). rewrite E in T. simpl in T.
    unfold loadHistory, try_catch, bind, gets. cbn. rewrite E.
    rewrite (effects_since_app s _ (evs ++ [history_error])).
    + apply in_or_app. right. left. reflexivity.
    + unfold emit. cbn. rewrite T, <- app_assoc. destruct s1; reflexivity.
  - intros Hl Hc. unfold loadHistory, try_catch, bind, gets. cbn.
    destruct (sessionHistory s) as [|item items] eqn:Eh.
    + unfold displayHistory. simpl.
      destruct (set_present s historyContainer (SetHidden true) Hc)
        as (E & _ & D & _).
      rewrite E. simpl. rewrite D. unfold update. simpl.
      split; [reflexivity|congruence].
    + destruct (displayHistory_renders s (item :: items) Hl Hc)
        as (s' & E & B & V & _); [discriminate|].
      rewrite E. simpl snd. split; [exact V|]. intros _. exact B.
Qed.

(** The statistics task: the counters are assigned before anything is
    displayed, and the display throws when one of its elements is
    missing. *)
Lemma updateStatistics_outcome s v :
  statistics (snd (updateStatistics v s)) = count_scan v (statistics s) /\
  sessionHistory (snd (updateStatistics v s)) = sessionHistory s /\
  (counters_on (page s) = true ->
   fst (updateStatistics v s) = Normal tt /\
   body (dom (snd (updateStatistics v s)) totalScansElement)
   = number_text (totalScans (count_scan v (statistics s))) /\
   body (dom (snd (updateStatistics v s)) safeUrlsElement)
   = number_text (safeUrls (count_scan v (statistics s))) /\
   body (dom (snd (updateStatistics v s)) phishingUrlsElement)
   = number_text (phishingUrls (count_scan v (statistics s)))) /\
  (counters_on (page s) = false ->
   exists e, fst (updateStatistics v s) = Throw e).
Proof.
  destruct s as [pg d st h ls ck tm ln tr]. unfold counters_on. simpl page.
  unfold updateStatistics, increment, count_scan, bind, gets,
    assign_statistics, set.
  destruct (truthy v); cbn;
    destruct (pg totalScansElement); cbn;
    destruct (pg safeUrlsElement); cbn;
    destruct (pg phishingUrlsElement); cbn;
    repeat split; try discriminate; eauto.
Qed.

(** The flag task: it reads the flag from storage, which throws when
    the browser denies access, and hides the banner when the flag is set
    and the banner exists. *)
Lemma checkAnnouncementBanner_outcome s :
  match localStorage s with
  | Some items =>
      checkAnnouncementBanner s
      = if announcement_closed items && page s announcementBanner
        then set announcementBanner (SetHidden true) s
        else (Normal tt, s)
  | None => exists e, checkAnnouncementBanner s = (Throw e, s)
  end.
Proof.
  destruct s as [pg d st h ls ck tm ln tr]. simpl localStorage.
  unfold checkAnnouncementBanner, bind, getItem, gets, announcement_closed.
  cbn. destruct ls as [items|]; [|eauto].
  destruct (find _ items) as [[k v]|]; cbn; [|reflexivity].
  destruct (is_empty v); cbn; [reflexivity|].
  destruct (pg announcementBanner); reflexivity.
Qed.

Lemma not_initializing_error_absent evs :
  forallb not_initializing_error evs = true -> ~ In initializing_error evs.
Proof.
  intros F Hin. rewrite forallb_forall in F. specialize (F _ Hin).
  discriminate F.
Qed.

Lemma startup_obeys_not_initializing_error :
  obeys not_initializing_error
    (hideLoading ;; hideError ;; hideResult ;; startup_tasks).
Proof. obey. Qed.

(** C9, as the code has it.  [initializePage] starts the three tasks one
    after the other inside one [try] block, after the three calls that
    hide the loading indicator, the message and the result.  On every
    page that has the elements of these three calls, and from every
    state: [initializePage] returns; the history task never fails
    outwards (without the history container [displayHistory] throws,
    [loadHistory] logs it, and the other two tasks still run), and with
    its two elements it shows the history whatever becomes of the other
    two; the scan is counted whatever the history task did; when the
    three counter elements exist the counters are displayed and the
    announcement flag is read: with storage available the banner is
    hidden exactly when the flag is set and the banner exists, and
    [initializePage] logs nothing, and with storage denied the flag task
    fails after the other two have completed, which [initializePage]
    logs.  But when one of the three counter elements is missing,
    [updateStatistics] throws and the flag is not read at all: the
    banner stays as it was, also when the flag is set, and
    [initializePage] logs the error. *)
Theorem startup_tasks_are_fail_fast :
  forall s : State,
    page s loadingIndicator = true ->
    page s errorContainer = true ->
    page s resultContainer = true ->
    fst (initializePage s) = Normal tt /\
    statistics (snd (initializePage s))
    = count_scan VUndefined (statistics s) /\
    (page s historyContainer = false ->
     In history_error (effects_since s (snd (initializePage s)))) /\
    (page s historyList = true -> page s historyContainer = true ->
     hidden (dom (snd (initializePage s)) historyContainer)
     = (List.length (sessionHistory s) =? 0)%nat /\
     (sessionHistory s <> [] ->
      body (dom (snd (initializePage s)) historyList)
      = Rows (map row_of (sessionHistory s)))) /\
    (counters_on (page s) = true ->
     body (dom (snd (initializePage s)) totalScansElement)
     = number_text (totalScans (statistics s) + 1) /\
     body (dom (snd (initializePage s)) safeUrlsElement)
     = number_text (safeUrls (statistics s) + 1) /\
     body (dom (snd (initializePage s)) phishingUrlsElement)
     = number_text (phishingUrls (statistics s)) /\
     (forall items,
        localStorage s = Some items ->
        dom (snd (initializePage s)) announcementBanner
        = (if announcement_closed items && page s announcementBanner
           then mutate (SetHidden true) (dom s announcementBanner)
           else dom s announcementBanner) /\
        ~ In initializing_error (effects_since s (snd (initializePage s)))) /\
     (localStorage s = None ->
      dom (snd (initializePage s)) announcementBanner
      = dom s announcementBanner /\
      In initializing_error (effects_since s (snd (initializePage s))))) /\
    (counters_on (page s) = false ->
     dom (snd (initializePage s)) announcementBanner
     = dom s announcementBanner /\
     localStorage (snd (initializePage s)) = localStorage s /\
     In initializing_error (effects_since s (snd (initializePage s)))).
Proof.
  intros s H1 H2 H3.
  split; [apply initializePage_returns|].
  destruct (startup_hides s H1 H2 H3)
    as (s3 & K & (L3 & B3 & P3) & M3 & D3 & (e3 & T3 & F3)).
  unfold memory in M3. injection M3 as St3 Hi3.
  (* the history task *)
  destruct (loadHistory_outcome s3) as (R4 & E4 & V4).
  destruct startup_keeps_banner as (_ & _ & _ & _ & KB4 & KB5).
  specialize (KB4 s3). destruct KB4 as (L4 & B4 & P4).
  assert (O4 : obeys not_update loadHistory) by obey.
  destruct (not_update_keeps loadHistory s3 O4) as [St4 Hi4].
  assert (O4' : obeys not_initializing_error loadHistory) by obey.
  destruct (obeys_grows _ _ s3 O4') as (e4 & T4 & F4).
  set (s4 := snd (loadHistory s3)) in *.
  assert (R4' : loadHistory s3 = (Normal tt, s4))
    by (apply outcome_of, R4).
  (* the statistics task *)
  destruct (updateStatistics_outcome s4 VUndefined) as (St5 & Hi5 & Ok5 & Ko5).
  specialize (KB5 s4). destruct KB5 as (L5 & B5 & P5).
  destruct (updateStatistics_writes_only VUndefined s4) as (_ & _ & D5).
  assert (O5 : obeys not_initializing_error (updateStatistics VUndefined))
    by obey.
  destruct (obeys_grows _ _ s4 O5) as (e5 & T5 & F5).
  set (s5 := snd (updateStatistics VUndefined s4)) in *.
  (* the flag task, and what becomes of the three *)
  assert (EF : initializePage s
               = if counters_on (page s) then
                   match localStorage s with
                   | Some items =>
                       if announcement_closed items
                          && page s announcementBanner
                       then set announcementBanner (SetHidden true) s5
                       else (Normal tt, s5)
                   | None => emit initializing_error s5
                   end
                 else emit initializing_error s5).
  { unfold initializePage, try_catch. rewrite (K startup_tasks).
    unfold startup_tasks. rewrite (bind_after _ _ s3 tt s4 R4').
    rewrite P4, P3 in Ok5, Ko5.
    destruct (counters_on (page s)).
    - destruct (Ok5 eq_refl) as (R5 & _).
      assert (R5' : updateStatistics VUndefined s4 = (Normal tt, s5))
        by (apply outcome_of, R5).
      rewrite (bind_after _ _ s4 tt s5 R5').
      pose proof (checkAnnouncementBanner_outcome s5) as C.
      rewrite L5, L4, L3, P5, P4, P3 in C.
      destruct (localStorage s) as [items|].
      + rewrite C.
        destruct (announcement_closed items); simpl andb; [|reflexivity].
        destruct (page s announcementBanner) eqn:Hb; [|reflexivity].
        unfold set. rewrite P5, P4, P3, Hb. reflexivity.
      + destruct C as [e ->]. reflexivity.
    - destruct (Ko5 eq_refl) as (e & R5).
      assert (R5' : updateStatistics VUndefined s4 = (Throw e, s5))
        by (apply outcome_of, R5).
      rewrite (bind_throws _ _ s4 e s5 R5'). reflexivity. }
  rewrite EF. clear EF K R4 R4' O4 O4' O5.
  (* the state the statistics task leaves, in terms of the first *)
  assert (T : trace s5 = trace s ++ e3 ++ e4 ++ e5)
    by (rewrite T5, T4, T3, <- !app_assoc; reflexivity).
  assert (E4' : page s historyContainer = false -> In history_error e4).
  { intros Hc. rewrite <- (effects_since_app s3 s4 e4 T4). apply E4.
    rewrite P3. exact Hc. }
  rewrite P3, Hi3 in V4. rewrite P4, P3 in Ok5, Ko5, P5.
  rewrite St4, St3 in St5, Ok5. rewrite L4, L3 in L5. rewrite B4, B3 in B5.
  assert (D : forall e, e = historyList \/ e = historyContainer ->
                        dom s5 e = dom s4 e).
  { intros e [-> | ->]; apply D5; reflexivity. }
  assert (Ok5' : counters_on (page s) = true ->
            body (dom s5 totalScansElement)
            = number_text (totalScans (statistics s) + 1) /\
            body (dom s5 safeUrlsElement)
            = number_text (safeUrls (statistics s) + 1) /\
            body (dom s5 phishingUrlsElement)
            = number_text (phishingUrls (statistics s)))
    by (intros Hco; apply (Ok5 Hco)).
  clearbody s5. clearbody s4.
  clear E4 T3 T4 T5 St3 St4 Hi3 Hi4 Hi5 L3 L4 B3 B4 P3 P4 D3 D5 Ko5 Ok5.
  destruct s5 as [pg5 d5 st5 h5 ls5 ck5 tm5 ln5 tr5].
  cbn [page dom statistics sessionHistory localStorage trace] in *. subst.
  assert (In4 : page s historyContainer = false ->
                forall more, In history_error (e3 ++ e4 ++ e5 ++ more)).
  { intros Hc more. apply in_or_app. right. apply in_or_app. left.
    apply E4', Hc. }
  assert (Out : forall more,
            forallb not_initializing_error more = true ->
            ~ In initializing_error (e3 ++ e4 ++ e5 ++ more)).
  { intros more Fm. apply not_initializing_error_absent.
    rewrite !forallb_app, F3, F4, F5, Fm. reflexivity. }
  assert (V : page s historyList = true -> page s historyContainer = true ->
              hidden (d5 historyContainer)
              = (List.length (sessionHistory s) =? 0)%nat /\
              (sessionHistory s <> [] ->
               body (d5 historyList) = Rows (map row_of (sessionHistory s)))).
  { intros Hl Hc. rewrite !D by auto. apply V4; assumption. }
  clear V4 D E4' F3 F4 F5.
  unfold effects_since.
  destruct (counters_on (page s)) eqn:Hco;
    [destruct (localStorage s) as [items|] eqn:Hls;
     [destruct (announcement_closed items) eqn:Hcl; simpl andb;
      [destruct (page s announcementBanner) eqn:Hb|]|]|];
    unfold set, emit; cbn; rewrite ?Hb; cbn;
    rewrite <- ?app_assoc, ?skipn_prefix.
  all: try (destruct (Ok5' eq_refl) as (A1 & A2 & A3)).
  all: repeat match goal with
              | |- _ /\ _ => split
              | |- _ -> _ => intro
              | |- forall _, _ => intro
              end;
    try discriminate; try assumption; try reflexivity;
    repeat match goal with
           | H : Some _ = Some _ |- _ => injection H as <-
           end.
  all: try solve [apply In4; assumption].
  all: try solve [match goal with
                  | Hc : page _ historyContainer = false |- _ =>
                      pose proof (In4 Hc []) as X;
                      rewrite !app_nil_r in X; exact X
                  end].
  all: try solve [apply V; assumption].
  all: try solve [match goal with
                  | Hl : page _ historyList = true,
                    Hc : page _ historyContainer = true |- _ =>
                      destruct (V Hl Hc) as [_ X]; apply X; assumption
                  end].
  all: try solve [rewrite ?Hcl, ?B5, ?Hb, ?andb_false_r; reflexivity].
  all: try solve [apply Out; reflexivity].
  all: try solve [intros X; apply (Out []);
                  [reflexivity|rewrite app_nil_r; exact X]].
  all: try solve [rewrite !app_assoc; apply in_or_app; right; left;
                  reflexivity].
Qed.

(** *** The FAQ accordion *)

Lemma distinct_app found x rest :
  distinct (found ++ Some x :: rest) = true ->
  (forall y, In y found -> exists z, y = Some z /\ z <> x) /\
  (forall y, In y rest -> y <> Some x) /\
  distinct rest = true.
Proof.
  induction found as [|y found IH]; simpl.
  - intros H. apply andb_prop in H. destruct H as [H D].
    split; [intros y []|]. split; [|exact D].
    intros y Hin ->. apply negb_true_iff in H.
    assert (E : existsb (fun y => match y with
                                  | Some z => (z =? x)%nat
                                  | None => false
                                  end) rest = true).
    { apply existsb_exists. exists (Some x). split; [exact Hin|].
      apply Nat.eqb_refl. }
    congruence.
  - destruct y as [y|]; [|discriminate].
    intros H. apply andb_prop in H. destruct H as [H D].
    destruct (IH D) as (B & A & D'). split; [|split; [exact A|exact D']].
    intros z [<-|Hin]; [|apply B, Hin].
    exists y. split; [reflexivity|]. intros ->.
    apply negb_true_iff in H.
    assert (E : existsb (fun y0 => match y0 with
                                   | Some z => (z =? x)%nat
                                   | None => false
                                   end) (found ++ Some x :: rest) = true).
    { apply existsb_exists. exists (Some x). split.
      - apply in_or_app. right. left. reflexivity.
      - apply Nat.eqb_refl. }
    congruence.
Qed.

Lemma distinct_present found :
  distinct found = true -> Forall (fun y => y <> None) found.
Proof.
  induction found as [|[y|] found IH]; simpl; intros H.
  - constructor.
  - apply andb_prop in H. constructor; [discriminate|apply IH, H].
  - discriminate.
Qed.

Lemma distinct_nth found : forall i j x,
  distinct found = true ->
  nth_error found i = Some (Some x) ->
  nth_error found j = Some (Some x) ->
  i = j.
Proof.
  induction found as [|y found IH]; intros i j x D Hi Hj.
  - destruct i; discriminate.
  - assert (Hin : forall k, nth_error found k = Some (Some x) ->
                            y <> Some x).
    { intros k Hk ->. simpl in D. apply andb_prop in D. destruct D as [D _].
      apply negb_true_iff in D.
      assert (E : existsb (fun y => match y with
                                    | Some z => (z =? x)%nat
                                    | None => false
                                    end) found = true).
      { apply existsb_exists. exists (Some x).
        split; [eapply nth_error_In, Hk|apply Nat.eqb_refl]. }
      congruence. }
    assert (D' : distinct found = true).
    { simpl in D. destruct y; [|discriminate].
      apply andb_prop in D. apply D. }
    destruct i as [|i], j as [|j]; simpl in Hi, Hj.
    + reflexivity.
    + exfalso. apply (Hin j Hj). congruence.
    + exfalso. apply (Hin i Hi). congruence.
    + f_equal. apply (IH i j x D' Hi Hj).
Qed.

(** What the inner loop leaves: the items of its range other than the
    one clicked are closed, and an answer is written to exactly when its
    item was open. *)
Lemma close_others_effect item others : forall index s,
  Forall (fun o => faq_answer o <> None) others ->
  exists s',
    close_others item index others s = (Normal tt, s') /\
    (forall j,
       active s' j
       = if (index <=? j)%nat && (j <? index + List.length others)%nat
            && negb (j =? item)%nat
         then false else active s j) /\
    (forall b, maxHeight s' b = Some 0 \/ maxHeight s' b = maxHeight s b) /\
    (forall k other b,
       nth_error others k = Some other -> faq_answer other = Some b ->
       (index + k)%nat <> item -> active s (index + k)%nat = true ->
       maxHeight s' b = Some 0) /\
    (forall b,
       (forall k other,
          nth_error others k = Some other -> faq_answer other = Some b ->
          (index + k)%nat = item \/ active s (index + k)%nat = false) ->
       maxHeight s' b = maxHeight s b).
Proof.
  induction others as [|o rest IH]; intros index s HF.
  - exists s. split; [reflexivity|]. split.
    { intros j. simpl.
      destruct (Nat.leb_spec index j), (Nat.ltb_spec j (index + 0));
        simpl; try reflexivity; lia. }
    split; [intros b; right; reflexivity|]. split.
    { intros [|k] other b Hk; discriminate. }
    intros b _. reflexivity.
  - inversion HF as [|? ? Ho HF']; subst.
    destruct (faq_answer o) as [a|] eqn:Ea; [clear Ho|congruence].
    simpl close_others.
    destruct (negb (index =? item)%nat && active s index) eqn:Ec.
    + apply andb_prop in Ec. destruct Ec as [Ei Eact].
      apply negb_true_iff, Nat.eqb_neq in Ei.
      rewrite Ea. simpl set_maxHeight. cbv iota beta.
      match goal with
      | |- context [close_others item (S index) rest ?s1] =>
          destruct (IH (S index) s1 HF') as (s' & R & A & M0 & M1 & M2)
      end.
      exists s'. split; [exact R|]. split.
      { intros j. rewrite A. cbn [active set_active]. simpl List.length.
        destruct (Nat.leb_spec (S index) j), (Nat.leb_spec index j),
          (Nat.ltb_spec j (S index + List.length rest)),
          (Nat.ltb_spec j (index + S (List.length rest))),
          (Nat.eqb_spec j item), (Nat.eqb_spec j index);
          simpl; try reflexivity; try lia. }
      split.
      { intros b. destruct (M0 b) as [E|E]; [left; exact E|].
        rewrite E. simpl. destruct (b =? a)%nat; [left|right]; reflexivity. }
      split.
      { intros [|k] other b Hk Hb Hne Hact; simpl in Hk.
        - injection Hk as <-. assert (b = a) by congruence. subst b.
          destruct (M0 a) as [E|E]; [exact E|].
          rewrite E. simpl. rewrite Nat.eqb_refl. reflexivity.
        - apply (M1 k other b Hk Hb).
          + lia.
          + cbn [active set_active].
            destruct (Nat.eqb_spec (S index + k) index); [lia|].
            replace (S index + k)%nat with (index + S k)%nat by lia.
            exact Hact. }
      intros b Hb.
      destruct (Nat.eqb_spec b a) as [->|Hne].
      * exfalso. destruct (Hb 0%nat o eq_refl Ea) as [E|E].
        -- apply Ei. lia.
        -- rewrite Nat.add_0_r in E. congruence.
      * rewrite M2.
        -- simpl. destruct (Nat.eqb_spec b a); [contradiction|reflexivity].
        -- intros k other Hk Hkb.
           destruct (Hb (S k) other Hk Hkb) as [E|E]; [left; lia|right].
           cbn [active set_active].
           destruct (Nat.eqb_spec (S index + k) index); [lia|].
           replace (S index + k)%nat with (index + S k)%nat by lia.
           exact E.
    + destruct (IH (S index) s HF') as (s' & R & A & M0 & M1 & M2).
      exists s'. split; [exact R|]. split.
      { intros j. rewrite A. simpl List.length.
        apply andb_false_iff in Ec.
        destruct (Nat.leb_spec (S index) j), (Nat.leb_spec index j),
          (Nat.ltb_spec j (S index + List.length rest)),
          (Nat.ltb_spec j (index + S (List.length rest))),
          (Nat.eqb_spec j item);
          simpl; try reflexivity; try lia.
        assert (j = index) by lia. subst j.
        destruct Ec as [Ec|Ec]; [|congruence].
        apply negb_false_iff, Nat.eqb_eq in Ec. contradiction. }
      split; [exact M0|]. split.
      { intros [|k] other b Hk Hb Hne Hact; simpl in Hk.
        - exfalso. rewrite Nat.add_0_r in Hne, Hact.
          apply andb_false_iff in Ec. destruct Ec as [Ec|Ec]; [|congruence].
          apply negb_false_iff, Nat.eqb_eq in Ec. contradiction.
        - apply (M1 k other b Hk Hb).
          + lia.
          + replace (S index + k)%nat with (index + S k)%nat by lia.
            exact Hact. }
      intros b Hb. apply M2. intros k other Hk Hkb.
      destruct (Hb (S k) other Hk Hkb) as [E|E]; [left; lia|right].
      replace (S index + k)%nat with (index + S k)%nat by lia. exact E.
Qed.

(** The handler of an item that has an answer of its own, on a page
    whose items all have one. *)
Lemma faq_toggle_effect faqItems scrollHeight s i item a :
  distinct (map faq_answer faqItems) = true ->
  nth_error faqItems i = Some item ->
  faq_answer item = Some a ->
  exists s',
    faq_toggle faqItems scrollHeight i (Some a) s = (Normal tt, s') /\
    active s' i = negb (active s i) /\
    (forall j, (j < List.length faqItems)%nat -> j <> i ->
               active s' j = false) /\
    maxHeight s' a = Some (if active s i then 0 else scrollHeight a) /\
    (forall j other b,
       nth_error faqItems j = Some other -> j <> i ->
       faq_answer other = Some b ->
       maxHeight s' b = if active s j then Some 0 else maxHeight s b).
Proof.
  intros D Hi Ha.
  assert (HF : Forall (fun o => faq_answer o <> None) faqItems).
  { apply distinct_present in D. rewrite Forall_forall in *.
    intros o Ho. apply D, in_map, Ho. }
  assert (Hsep : forall j other b,
            nth_error faqItems j = Some other -> faq_answer other = Some b ->
            forall k other', nth_error faqItems k = Some other' ->
                             faq_answer other' = Some b -> k = j).
  { intros j other b Hj Hb k other' Hk Hb'.
    apply (distinct_nth (map faq_answer faqItems) k j b D).
    - rewrite nth_error_map, Hk. simpl. congruence.
    - rewrite nth_error_map, Hj. simpl. congruence. }
  destruct (close_others_effect i faqItems 0 s HF)
    as (s1 & R & A & M0 & M1 & M2).
  unfold faq_toggle. rewrite R. cbv zeta.
  assert (Ai : active s1 i = active s i).
  { rewrite A. rewrite Nat.eqb_refl, andb_false_r. reflexivity. }
  cbn [active set_active]. rewrite Nat.eqb_refl, Ai.
  assert (Hact : forall j, (j < List.length faqItems)%nat -> j <> i ->
                           active s1 j = false).
  { intros j Hj Hne. rewrite A. simpl.
    destruct (Nat.ltb_spec j (List.length faqItems)); [|lia].
    destruct (Nat.eqb_spec j i); [contradiction|reflexivity]. }
  assert (Hother : forall j other b,
            nth_error faqItems j = Some other -> j <> i ->
            faq_answer other = Some b ->
            b <> a /\
            maxHeight s1 b = if active s j then Some 0 else maxHeight s b).
  { intros j other b Hj Hne Hb. split.
    - intros ->. apply Hne. apply (Hsep i item a Hi Ha j other Hj Hb).
    - destruct (active s j) eqn:Ej.
      + apply (M1 j other b Hj Hb); simpl; assumption.
      + apply M2. intros k other' Hk Hb'. right. simpl.
        rewrite (Hsep j other b Hj Hb k other' Hk Hb'). exact Ej. }
  destruct (active s i) eqn:Ei; simpl negb; cbv iota; cbn [set_maxHeight];
    (eexists; split; [reflexivity|]); cbn [active maxHeight set_active];
    (split; [rewrite Nat.eqb_refl; reflexivity|]);
    (split;
     [intros j Hj Hne; destruct (Nat.eqb_spec j i); [contradiction|];
      apply Hact; assumption|]);
    (split; [rewrite Nat.eqb_refl; reflexivity|]);
    intros j other b Hj Hne Hb;
    destruct (Hother j other b Hj Hne Hb) as [Hba E];
    (destruct (Nat.eqb_spec b a); [contradiction|exact E]).
Qed.

Lemma faq_register_cons index item rest :
  snd (faq_register index (item :: rest))
  = match faq_question item with
    | Some q =>
        {| on_question := q; of_item := index; of_answer := faq_answer item |}
        :: snd (faq_register (S index) rest)
    | None => []
    end.
Proof.
  simpl. destruct (faq_question item); [|reflexivity].
  destruct (faq_register (S index) rest). reflexivity.
Qed.

(** The listeners of other questions do nothing at a click. *)
Lemma faq_register_skip faqItems scrollHeight q rest : forall index s,
  (forall item, In item rest -> faq_question item <> Some q) ->
  fold_left (faq_dispatch faqItems scrollHeight q)
    (snd (faq_register index rest)) s = s.
Proof.
  induction rest as [|item rest IH]; intros index s H; [reflexivity|].
  rewrite faq_register_cons.
  destruct (faq_question item) as [q'|] eqn:E; [|reflexivity].
  simpl. unfold faq_dispatch at 2. simpl.
  destruct (Nat.eqb_spec q' q) as [->|_].
  - exfalso. apply (H item); [left; reflexivity|exact E].
  - apply IH. intros it Hin. apply H. right. exact Hin.
Qed.

Lemma faq_register_app faqItems scrollHeight q rest : forall before index s,
  (forall item, In item before ->
                exists q', faq_question item = Some q' /\ q' <> q) ->
  fold_left (faq_dispatch faqItems scrollHeight q)
    (snd (faq_register index (before ++ rest))) s
  = fold_left (faq_dispatch faqItems scrollHeight q)
      (snd (faq_register (List.length before + index) rest)) s.
Proof.
  induction before as [|item before IH]; intros index s H; [reflexivity|].
  rewrite <- app_comm_cons, faq_register_cons.
  destruct (H item (or_introl eq_refl)) as (q' & E & Hne). rewrite E.
  simpl. unfold faq_dispatch at 2. simpl.
  destruct (Nat.eqb_spec q' q); [contradiction|].
  rewrite IH by (intros it Hin; apply H; right; exact Hin).
  replace (List.length before + S index)%nat
    with (S (List.length before + index)) by lia.
  reflexivity.
Qed.

(** [main] returns exactly on the pages that have the four controls
    whose listeners it registers without a guard. *)
Lemma main_returns s :
  forallb (page s) required = true <-> fst (main s) = Normal tt.
Proof.
  assert (R : forall s,
            if forallb (page s) required
            then fst (register_listeners s) = Normal tt
            else exists e, fst (register_listeners s) = Throw e).
  { clear s. intros [pg d st h ls ck tm ln tr].
    unfold register_listeners, bind, addEventListener, gets, ret. cbn.
    destruct (pg checkButton); cbn; [|eexists; reflexivity].
    destruct (pg urlInput); cbn; [|eexists; reflexivity].
    destruct (pg reportButton); cbn; [|eexists; reflexivity].
    destruct (pg clearHistoryButton); cbn; [|eexists; reflexivity].
    destruct (pg closeBannerButton) eqn:H5; cbn; rewrite ?H5; reflexivity. }
  specialize (R s). unfold main, bind.
  destruct (forallb (page s) required).
  - destruct (register_listeners s) as [[[]|e] s1]; simpl in R;
      [|discriminate].
    split; [intros _; apply initializePage_returns|reflexivity].
  - destruct R as [e R].
    destruct (register_listeners s) as [[[]|e'] s1]; simpl in R;
      [discriminate|].
    split; discriminate.
Qed.

Lemma faq_listeners_started start faqItems :
  forallb (page start) required = true ->
  faq_listeners start faqItems = snd (faq_register 0 faqItems).
Proof.
  intros H. apply main_returns in H. unfold faq_listeners. rewrite H.
  reflexivity.
Qed.

Lemma faq_listeners_aborted start faqItems :
  forallb (page start) required = false ->
  faq_listeners start faqItems = [].
Proof.
  intros H. unfold faq_listeners.
  destruct (fst (main start)) as [[]|e] eqn:E; [|reflexivity].
  apply main_returns in E. congruence.
Qed.

(** On a page whose items have a question of their own, a click on the
    question of an item runs the handler of that item and no other. *)
Lemma faq_click_single start faqItems scrollHeight s i item q :
  forallb (page start) required = true ->
  distinct (map faq_question faqItems) = true ->
  nth_error faqItems i = Some item ->
  faq_question item = Some q ->
  faq_click start faqItems scrollHeight q s
  = snd (faq_toggle faqItems scrollHeight i (faq_answer item) s).
Proof.
  intros Hp D Hi Hq.
  destruct (nth_error_split faqItems i Hi) as (before & rest & E & L).
  unfold faq_click. rewrite (faq_listeners_started _ _ Hp). rewrite E at 2.
  rewrite E, map_app in D. simpl in D. rewrite Hq in D.
  destruct (distinct_app _ _ _ D) as (B & A & _).
  rewrite faq_register_app.
  - rewrite faq_register_cons, Hq. simpl.
    rewrite faq_register_skip.
    + unfold faq_dispatch. simpl. rewrite Nat.eqb_refl, L, Nat.add_0_r.
      reflexivity.
    + intros it Hin. apply A. apply in_map, Hin.
  - intros it Hin. destruct (B _ (in_map faq_question _ _ Hin)) as (z & Ez & Hz).
    exists z. split; assumption.
Qed.

(** The whole of a click, on a page whose items have a question and an
    answer of their own. *)
Lemma faq_click_effect start faqItems scrollHeight s i item q a :
  forallb (page start) required = true ->
  separate faqItems ->
  nth_error faqItems i = Some item ->
  faq_question item = Some q ->
  faq_answer item = Some a ->
  active (faq_click start faqItems scrollHeight q s) i = negb (active s i) /\
  (forall j, (j < List.length faqItems)%nat -> j <> i ->
             active (faq_click start faqItems scrollHeight q s) j = false) /\
  maxHeight (faq_click start faqItems scrollHeight q s) a
  = Some (if active s i then 0 else scrollHeight a) /\
  (forall j other b,
     nth_error faqItems j = Some other -> j <> i ->
     faq_answer other = Some b ->
     maxHeight (faq_click start faqItems scrollHeight q s) b
     = if active s j then Some 0 else maxHeight s b).
Proof.
  intros Hp [Dq Da] Hi Hq Ha.
  rewrite (faq_click_single start faqItems scrollHeight s i item q Hp Dq Hi Hq),
    Ha.
  destruct (faq_toggle_effect faqItems scrollHeight s i item a Da Hi Ha)
    as (s' & R & H). rewrite R. exact H.
Qed.

Lemma faq_click_elsewhere start faqItems scrollHeight q s :
  ~ In (Some q) (map faq_question faqItems) ->
  faq_click start faqItems scrollHeight q s = s.
Proof.
  intros H. unfold faq_click, faq_listeners.
  destruct (fst (main start)); [|reflexivity].
  apply faq_register_skip. intros item Hin E.
  apply H. rewrite <- E. apply in_map, Hin.
Qed.

Lemma faq_click_one_open start faqItems scrollHeight q s :
  forallb (page start) required = true ->
  separate faqItems ->
  In (Some q) (map faq_question faqItems) ->
  one_open faqItems (faq_click start faqItems scrollHeight q s).
Proof.
  intros Hp Hs Hin. apply in_map_iff in Hin. destruct Hin as (item & Hq & Hin).
  destruct (In_nth_error _ _ Hin) as [k Hk].
  assert (Ha : exists a, faq_answer item = Some a).
  { destruct Hs as [_ Da]. apply distinct_present in Da.
    rewrite Forall_forall in Da.
    destruct (faq_answer item) as [a|] eqn:E; [exists a; reflexivity|].
    exfalso. apply (Da None); [|reflexivity].
    rewrite <- E. apply in_map, Hin. }
  destruct Ha as [a Ha].
  destruct (faq_click_effect start faqItems scrollHeight s k item q a
              Hp Hs Hk Hq Ha)
    as (_ & C & _).
  intros i j Hi Hj Ai Aj.
  destruct (Nat.eq_dec i k) as [->|Ni], (Nat.eq_dec j k) as [->|Nj];
    try reflexivity.
  - rewrite (C j Hj Nj) in Aj. discriminate.
  - rewrite (C i Hi Ni) in Ai. discriminate.
  - rewrite (C i Hi Ni) in Ai. discriminate.
Qed.

(** X17. On a page that has the four controls start-up
    depends on, so that the set-up of the accordion is reached, and
    whose FAQ items each have a question and an answer of their own, a
    click on the question of an item toggles that item and closes every
    other one: the item is open after the click exactly when it was
    closed before, its answer gets the height of its content when it
    opens and the height zero when it closes, every other item is
    closed, and the answer of another item gets the height zero when
    that item was open and is left alone when it was not. *)
Theorem faq_click_toggles_one_and_closes_the_rest :
  forall (start : State) (faqItems : list FaqItem) (scrollHeight : nat -> Z)
         (s : Accordion) (i : nat) (item : FaqItem) (q a : nat),
    forallb (page start) required = true ->
    separate faqItems ->
    nth_error faqItems i = Some item ->
    faq_question item = Some q ->
    faq_answer item = Some a ->
    active (faq_click start faqItems scrollHeight q s) i = negb (active s i) /\
    (forall j, (j < List.length faqItems)%nat -> j <> i ->
               active (faq_click start faqItems scrollHeight q s) j = false) /\
    maxHeight (faq_click start faqItems scrollHeight q s) a
    = Some (if active s i then 0 else scrollHeight a) /\
    (forall j other b,
       nth_error faqItems j = Some other -> j <> i ->
       faq_answer other = Some b ->
       maxHeight (faq_click start faqItems scrollHeight q s) b
       = if active s j then Some 0 else maxHeight s b).
Proof.
  intros start faqItems scrollHeight s i item q a Hp Hs Hi Hq Ha.
  apply (faq_click_effect start faqItems scrollHeight s i item q a
           Hp Hs Hi Hq Ha).
Qed.

(** X18. On a page whose FAQ items each have a question and
    an answer of their own: when the page has the four controls start-up
    depends on, at most one item is open in every state of a session of
    clicks, provided at most one is open in the document or one of the
    clicks was on the question of an item, and a click on the question
    of the item that is open leaves none open; when the page lacks one
    of the four controls, start-up stops before the accordion is set up
    and no click changes anything. *)
Theorem faq_has_one_answer_open_at_most :
  forall (start : State) (faqItems : list FaqItem)
         (clicks : list (nat * (nat -> Z))) (s : Accordion),
    separate faqItems ->
    (forallb (page start) required = true ->
     one_open faqItems s \/
     (exists c, In c clicks /\ In (Some (fst c)) (map faq_question faqItems)) ->
     one_open faqItems (faq_session start faqItems clicks s) /\
     (forall i item q scrollHeight,
        nth_error faqItems i = Some item ->
        faq_question item = Some q ->
        active (faq_session start faqItems clicks s) i = true ->
        forall j, (j < List.length faqItems)%nat ->
          active (faq_click start faqItems scrollHeight q
                    (faq_session start faqItems clicks s)) j = false)) /\
    (forallb (page start) required = false ->
     faq_session start faqItems clicks s = s).
Proof.
  intros start faqItems clicks s Hs. split.
  - intros Hp H.
    assert (Hone : one_open faqItems (faq_session start faqItems clicks s)).
    { revert s H. unfold faq_session.
      induction clicks as [|[q h] clicks IH]; intros s H.
      - destruct H as [H|(c & [] & _)]. exact H.
      - simpl. apply IH.
        assert (Dq : {In (Some q) (map faq_question faqItems)}
                     + {~ In (Some q) (map faq_question faqItems)})
          by (apply in_dec; decide equality; apply Nat.eq_dec).
        destruct Dq as [Hin|Hout].
        + left. apply faq_click_one_open; assumption.
        + rewrite (faq_click_elsewhere _ _ _ _ _ Hout).
          destruct H as [H|(c & [<-|Hc] & Hq)].
          * left. exact H.
          * contradiction.
          * right. exists c. split; assumption. }
    split; [exact Hone|].
    intros i item q scrollHeight Hi Hq Ai j Hj.
    assert (Ha : exists a, faq_answer item = Some a).
    { destruct Hs as [_ Da]. apply distinct_present in Da.
      rewrite Forall_forall in Da.
      destruct (faq_answer item) as [a|] eqn:E; [exists a; reflexivity|].
      exfalso. apply (Da None); [|reflexivity].
      rewrite <- E. eapply in_map, nth_error_In, Hi. }
    destruct Ha as [a Ha].
    destruct (faq_click_effect start faqItems scrollHeight
                (faq_session start faqItems clicks s) i item q a
                Hp Hs Hi Hq Ha)
      as (T & C & _).
    destruct (Nat.eq_dec j i) as [->|Hne].
    + rewrite T, Ai. reflexivity.
    + apply C; assumption.
  - intros Hp. unfold faq_session, faq_click.
    rewrite (faq_listeners_aborted _ _ Hp).
    induction clicks as [|c clicks IH]; [reflexivity|exact IH].
Qed.

(** X19. The set-up of the accordion stops at the first item
    that has no question: it throws there, the items before it have
    their listener, and on no page does a click on a question that is
    not theirs do anything, also on the question of an item that comes
    later. *)
Theorem faq_item_without_question_stops_the_setup :
  forall (before rest : list FaqItem) (item : FaqItem),
    Forall (fun it => faq_question it <> None) before ->
    faq_question item = None ->
    fst (faq_register 0 (before ++ item :: rest)) = Throw null_read /\
    map of_item (snd (faq_register 0 (before ++ item :: rest)))
    = seq 0 (List.length before) /\
    (forall start scrollHeight q s,
       ~ In (Some q) (map faq_question before) ->
       faq_click start (before ++ item :: rest) scrollHeight q s = s).
Proof.
  intros before rest item HF Hq.
  assert (G : forall index,
            fst (faq_register index (before ++ item :: rest))
            = Throw null_read /\
            map of_item (snd (faq_register index (before ++ item :: rest)))
            = seq index (List.length before) /\
            (forall l,
               In l (snd (faq_register index (before ++ item :: rest))) ->
               In (Some (on_question l)) (map faq_question before))).
  { induction HF as [|it before Hit HF IH]; intros index.
    - simpl. rewrite Hq. repeat split. intros l [].
    - rewrite <- app_comm_cons. simpl faq_register.
      destruct (faq_question it) as [q'|] eqn:E; [|congruence].
      destruct (IH (S index)) as (F & S' & L).
      destruct (faq_register (S index) (before ++ item :: rest)) as [o ls].
      simpl in *. rewrite E. split; [exact F|]. split; [f_equal; exact S'|].
      intros l [<-|Hin]; [left; reflexivity|right; apply L, Hin]. }
  destruct (G 0%nat) as (F & S' & L).
  split; [exact F|]. split; [exact S'|].
  intros start scrollHeight q s Hout. unfold faq_click, faq_listeners.
  destruct (fst (main start)); [|reflexivity].
  revert L. generalize (snd (faq_register 0 (before ++ item :: rest))).
  intros ls. revert s.
  induction ls as [|l ls IH]; intros s L; [reflexivity|].
  simpl. unfold faq_dispatch at 2.
  destruct (Nat.eqb_spec (on_question l) q) as [E|_].
  - exfalso. apply Hout. rewrite <- E. apply L. left. reflexivity.
  - apply IH. intros l' Hin. apply L. right. exact Hin.
Qed.

(** *** The testimonials *)

Lemma show_cards_narrow innerWidth c shown : forall index,
  innerWidth < 768 ->
  show_cards innerWidth (Some c) index shown
  = map (fun i => Some (if (i =? c)%nat then Block else Unshown))
      (seq index (List.length shown)).
Proof.
  induction shown as [|x shown IH]; intros index H; [reflexivity|].
  simpl. rewrite (IH (S index) H).
  destruct (Z.ltb_spec innerWidth 768); [reflexivity|lia].
Qed.

Lemma show_cards_wide innerWidth current shown : forall index,
  768 <= innerWidth ->
  show_cards innerWidth current index shown
  = repeat (Some Block) (List.length shown).
Proof.
  induction shown as [|x shown IH]; intros index H; [reflexivity|].
  simpl. rewrite (IH (S index) H).
  destruct (Z.ltb_spec innerWidth 768); [lia|reflexivity].
Qed.

Lemma show_cards_length innerWidth current shown : forall index,
  List.length (show_cards innerWidth current index shown) = List.length shown.
Proof.
  induction shown as [|x shown IH]; intros index; [reflexivity|].
  simpl. rewrite IH. reflexivity.
Qed.

(** The counter goes round the cards, whatever the widths are. *)
Lemma rotate_counter ticks : forall s k,
  cards s <> [] ->
  currentTestimonial s = Some k ->
  (k < List.length (cards s))%nat ->
  List.length (cards (fold_left (fun s w => rotateTestimonials w s) ticks s))
  = List.length (cards s) /\
  currentTestimonial (fold_left (fun s w => rotateTestimonials w s) ticks s)
  = Some ((k + List.length ticks) mod List.length (cards s))%nat.
Proof.
  induction ticks as [|w ticks IH]; intros s k Hn Hc Hk.
  - simpl. rewrite Nat.add_0_r, Nat.mod_small by exact Hk.
    split; [reflexivity|exact Hc].
  - simpl fold_left.
    assert (L : List.length (cards (rotateTestimonials w s))
                = List.length (cards s)) by apply show_cards_length.
    assert (Hpos : (0 < List.length (cards s))%nat).
    { destruct (cards s); [contradiction|simpl; lia]. }
    assert (C : currentTestimonial (rotateTestimonials w s)
                = Some ((k + 1) mod List.length (cards s))%nat).
    { unfold rotateTestimonials. simpl. rewrite Hc.
      destruct (List.length (cards s)); [lia|reflexivity]. }
    destruct (IH (rotateTestimonials w s)
                ((k + 1) mod List.length (cards s))%nat) as [L' C'].
    + intros E. rewrite E in L. simpl in L. lia.
    + exact C.
    + rewrite L. apply Nat.mod_upper_bound. lia.
    + rewrite L in L', C'. split; [exact L'|]. rewrite C'. f_equal.
      rewrite Nat.Div0.add_mod_idemp_l. f_equal. simpl. lia.
Qed.

Lemma reaches_testimonials_iff start faqItems controls :
  reaches_testimonials start faqItems controls = true <->
  forallb (page start) required = true /\
  Forall (fun it => faq_question it <> None) faqItems /\
  (forall c, controls c = true).
Proof.
  assert (Q : forall items index,
            fst (faq_register index items) = Normal tt <->
            Forall (fun it => faq_question it <> None) items).
  { induction items as [|it items IH]; intros index; simpl.
    - split; [constructor|reflexivity].
    - destruct (faq_question it) as [q|] eqn:E.
      + specialize (IH (S index)).
        destruct (faq_register (S index) items) as [o ls]. simpl in *.
        rewrite IH. split.
        * intros H. constructor; [congruence|exact H].
        * intros H. inversion H. assumption.
      + simpl. split; [discriminate|].
        intros H. inversion H. congruence. }
  assert (C : forallb controls share_controls = true <->
              (forall c, controls c = true)).
  { unfold share_controls. simpl. rewrite !andb_true_iff. split.
    - intros (H1 & H2 & H3 & H4 & H5 & _) []; assumption.
    - intros H. repeat split; apply H. }
  unfold reaches_testimonials. rewrite main_returns, <- (Q faqItems 0%nat), <- C.
  destruct (fst (main start)) as [[]|e];
    destruct (fst (faq_register 0 faqItems)) as [[]|e'];
    intuition congruence.
Qed.

(** X20. The testimonials go round when start-up gets as
    far as them on a narrow window, that is on a page that has the four
    controls start-up depends on, a question in every FAQ item and the
    five controls of the screenshot overlay: with [n] cards, [n]
    positive, after start-up and any number [k] of ticks the counter is
    at [(k + 1) mod n] whatever the widths of the window were at the
    ticks, and the cards are as the last rotation left them, the card
    [k mod n] alone on display when the window was narrow then, and all
    of them when it was wide; with no card the counter is not a number.
    On a window that is wide at start-up, and on a page where start-up
    stops before the testimonials, nothing ever rotates. *)
Theorem testimonials_go_round :
  forall (start : State) (faqItems : list FaqItem)
         (controls : share_control -> bool)
         (shown : list (option display)) (innerWidth : Z) (ticks : list Z),
    (forallb (page start) required = true ->
     Forall (fun it => faq_question it <> None) faqItems ->
     (forall c, controls c = true) ->
     innerWidth < 768 ->
     (shown <> [] ->
      currentTestimonial
        (testimonials_run start faqItems controls innerWidth ticks shown)
      = Some (S (List.length ticks) mod List.length shown)%nat /\
      cards (testimonials_run start faqItems controls innerWidth ticks shown)
      = if last (innerWidth :: ticks) innerWidth <? 768
        then only_card (List.length shown)
               (List.length ticks mod List.length shown)
        else repeat (Some Block) (List.length shown)) /\
     (shown = [] ->
      currentTestimonial
        (testimonials_run start faqItems controls innerWidth ticks shown)
      = None)) /\
    (forallb (page start) required = false \/
     Exists (fun it => faq_question it = None) faqItems \/
     (exists c, controls c = false) \/
     768 <= innerWidth ->
     testimonials_run start faqItems controls innerWidth ticks shown
     = testimonials_start shown).
Proof.
  intros start faqItems controls shown innerWidth ticks.
  unfold testimonials_run. split.
  2:{ intros H.
      destruct (reaches_testimonials start faqItems controls) eqn:R;
        [|reflexivity].
      apply reaches_testimonials_iff in R. destruct R as (Hp & Hq & Hc).
      destruct H as [H|[H|[[c H]|H]]].
      - congruence.
      - exfalso. apply Exists_exists in H. destruct H as (it & Hin & E).
        rewrite Forall_forall in Hq. apply (Hq it Hin E).
      - rewrite Hc in H. discriminate.
      - simpl. destruct (Z.ltb_spec innerWidth 768); [lia|reflexivity]. }
  intros Hp Hq Hc Hw.
  assert (R : reaches_testimonials start faqItems controls = true)
    by (apply reaches_testimonials_iff; auto).
  rewrite R. simpl andb.
  destruct (Z.ltb_spec innerWidth 768) as [_|Hge]; [|lia].
  split; [intros Hn|intros ->].
  - assert (E : exists init l,
              innerWidth :: ticks = init ++ [l] /\
              List.length init = List.length ticks /\
              last (innerWidth :: ticks) innerWidth = l).
    { exists (removelast (innerWidth :: ticks)),
             (last (innerWidth :: ticks) innerWidth).
      assert (E : innerWidth :: ticks
                  = removelast (innerWidth :: ticks)
                    ++ [last (innerWidth :: ticks) innerWidth])
        by (apply app_removelast_last; discriminate).
      split; [exact E|]. split; [|reflexivity].
      apply (f_equal (@List.length Z)) in E.
      rewrite length_app in E. cbn [List.length] in E. lia. }
    destruct E as (init & l & E & Llen & Hl). rewrite Hl, E.
    rewrite fold_left_app. cbn [fold_left].
    destruct (rotate_counter init (testimonials_start shown) 0%nat)
      as [L C].
    + exact Hn.
    + reflexivity.
    + simpl. destruct shown; [contradiction|simpl; lia].
    + rewrite Llen in C. cbn [testimonials_start cards] in L, C.
      set (s1 := fold_left (fun s w => rotateTestimonials w s) init
                   (testimonials_start shown)) in *.
      split.
      * unfold rotateTestimonials. cbn [currentTestimonial]. rewrite C, L.
        destruct (List.length shown) eqn:En.
        { destruct shown; [contradiction|discriminate]. }
        f_equal. rewrite Nat.Div0.add_mod_idemp_l. f_equal. lia.
      * unfold rotateTestimonials. cbn [cards]. rewrite C.
        destruct (Z.ltb_spec l 768) as [Hlt|Hge].
        -- rewrite show_cards_narrow, L by exact Hlt. reflexivity.
        -- rewrite show_cards_wide, L by exact Hge. reflexivity.
  - revert Hw. generalize innerWidth at 1 2. intros w0 _. simpl.
    assert (G : forall ws s, cards s = [] ->
                currentTestimonial s = None ->
                currentTestimonial
                  (fold_left (fun s w => rotateTestimonials w s) ws s) = None).
    { induction ws as [|w ws IH]; intros s Hcs Hns; [exact Hns|].
      simpl. apply IH.
      - simpl. rewrite Hcs. reflexivity.
      - simpl. rewrite Hns. reflexivity. }
    apply G; reflexivity.
Qed.
End Platform.

(** ** The model at work

    The properties above applied to sample inputs, and the runs in which
    the controller departs from the specification's wording. *)



(** C2: a check answered with a phishing verdict. *)
Lemma checkUrl_cleanup_exactly_once_witness :
  page sample_loaded urlInput = true /\
  page sample_loaded checkButton = true /\
  validate sample_host_parser (field_value (dom sample_loaded urlInput))
  = inr (js "https://example.com") /\
  unlocked
    (snd (lifecycle sample_host_parser (inr true)
            (inr (VObject [(js "isPhishing", VBool true)])) sample_loaded)).
Proof.
  split; [reflexivity|]. split; [reflexivity|]. split; [reflexivity|].
  exact (proj1 (proj2
           (checkUrl_cleanup_exactly_once sample_host_parser sample_loaded
              (js "https://example.com") (inr true)
              (inr (VObject [(js "isPhishing", VBool true)]))
              eq_refl eq_refl eq_refl))).
Defined.

(** C3: two successful checks after loading leave [totalScans] at 3. *)
Lemma statistics_after_successes_witness :
  validate sample_host_parser
    (field_value (document_with (js "https://example.com") urlInput))
  = inr (js "https://example.com") /\
  totalScans
    (statistics
       (successes sample_host_parser
          [[(js "isPhishing", VBool false)]; [(js "isPhishing", VBool true)]]
          (heap (load every_element
                   (document_with (js "https://example.com")) (Some []) 0))))
  = 3.
Proof.
  split; [reflexivity|].
  exact (proj1
           (statistics_after_successes sample_host_parser every_element
              (document_with (js "https://example.com")) (Some []) 0
              (js "https://example.com")
              [[(js "isPhishing", VBool false)];
               [(js "isPhishing", VBool true)]]
              (fun e => eq_refl) eq_refl)).
Defined.

(** C3: right after loading, with no check made, one scan is counted. *)
Lemma statistics_count_one_scan_after_loading :
  statistics sample_loaded
  = {| totalScans := 1; safeUrls := 1; phishingUrls := 0 |}.
Proof. reflexivity. Qed.

(** C4: eleven records pushed on an empty buffer. *)
Lemma history_newest_first_at_most_10_witness :
  List.length sample_records = 11%nat /\
  NoDup sample_records /\
  fold_left (fun h r => push r h) sample_records [] = rev (tl sample_records) /\
  ~ In (hd {| url := []; isPhishing := VNull; timestamp := 0 |} sample_records)
      (fold_left (fun h r => push r h) sample_records []).
Proof.
  assert (L : List.length sample_records = 11%nat) by reflexivity.
  assert (N : NoDup sample_records).
  { unfold sample_records. simpl.
    repeat constructor; simpl; intuition discriminate. }
  split; [exact L|]. split; [exact N|].
  destruct (proj2 (proj2 (proj2
              (history_newest_first_at_most_10 []
                 {| url := []; isPhishing := VNull; timestamp := 0 |})))
              sample_records L) as (E & _ & A).
  split; [exact E|]. exact (A N).
Defined.

(** C5: a successful check, milestone by milestone. *)
Lemma verdict_rendered_then_history_then_statistics_witness :
  complete sample_loaded /\
  exists before after item t0,
    trace (snd (checkUrl sample_host_parser sample_loaded))
    = trace sample_loaded ++ before /\
    filter is_milestone before = [] /\
    lifecycle sample_host_parser (inr true)
      (inr (VObject [(js "isPhishing", VBool true)])) sample_loaded
    = after_data (js "https://example.com") t0
        (inr (VObject [(js "isPhishing", VBool true)]))
        (snd (checkUrl sample_host_parser sample_loaded)) /\
    trace (snd (lifecycle sample_host_parser (inr true)
                  (inr (VObject [(js "isPhishing", VBool true)]))
                  sample_loaded))
    = trace sample_loaded ++ before ++ after /\
    url item = js "https://example.com" /\
    filter is_milestone after =
    [Dom resultTitle (SetContent (Text (js "Phishing URL Detected!")));
     History (push item (sessionHistory sample_loaded));
     Stats {| totalScans := 2; safeUrls := 1; phishingUrls := 0 |};
     Stats {| totalScans := 2; safeUrls := 1; phishingUrls := 1 |}].
Proof.
  assert (C : complete sample_loaded) by (intros e; reflexivity).
  split; [exact C|].
  exact (verdict_rendered_then_history_then_statistics sample_host_parser
           sample_loaded (js "https://example.com")
           [(js "isPhishing", VBool true)] C eq_refl).
Defined.

(** C5: in the effects of a successful check the verdict is written
    (effect 13) before the history and the statistics are assigned (from
    effect 16 on). *)
Lemma verdict_is_rendered_before_the_updates :
  first_index is_verdict
    (effects_since sample_loaded
       (snd (lifecycle sample_host_parser (inr true)
               (inr (VObject [(js "isPhishing", VBool true)])) sample_loaded)))
  = Some 13%nat /\
  first_index is_update
    (effects_since sample_loaded
       (snd (lifecycle sample_host_parser (inr true)
               (inr (VObject [(js "isPhishing", VBool true)])) sample_loaded)))
  = Some 16%nat.
Proof. vm_compute. split; reflexivity. Qed.

(** C6: a success message shown at time 0 is hidden at time 3000. *)
Lemma success_message_timer_hides_whatever_is_shown_witness :
  page sample_loaded errorContainer = true /\
  page sample_loaded errorMessage = true /\
  clock sample_loaded + 3000 <= 3000 /\
  hidden (dom (advance 3000
                 (snd (showError (js "History cleared successfully") Success
                         sample_loaded)))
            errorContainer) = true.
Proof.
  assert (H : clock sample_loaded + 3000 <= 3000)
    by (vm_compute; discriminate).
  split; [reflexivity|]. split; [reflexivity|]. split; [exact H|].
  exact (proj1 (proj2
           (success_message_timer_hides_whatever_is_shown
              sample_loaded (js "History cleared successfully") 3000
              eq_refl eq_refl H))).
Defined.

(** C6: the history is cleared at time 0, which shows the success
    message; at time 1000 an empty field is checked, which shows an error;
    at time 3000 the timer of the first message hides that error. *)
Lemma stale_timer_hides_the_newer_message :
  hidden (dom (heap (run sample_host_parser
                       (load every_element (document_with []) (Some []) 0)
                       [Clicked clearHistoryButton; TimePassed 1000;
                        Clicked checkButton]))
            errorContainer) = false /\
  timers (heap (run sample_host_parser
                  (load every_element (document_with []) (Some []) 0)
                  [Clicked clearHistoryButton; TimePassed 1000;
                   Clicked checkButton])) = [3000] /\
  body (dom (heap (run sample_host_parser
                     (load every_element (document_with []) (Some []) 0)
                     [Clicked clearHistoryButton; TimePassed 1000;
                      Clicked checkButton; TimePassed 3000]))
          errorMessage) = Text (js "Please enter a URL to check") /\
  hidden (dom (heap (run sample_host_parser
                       (load every_element (document_with []) (Some []) 0)
                       [Clicked clearHistoryButton; TimePassed 1000;
                        Clicked checkButton; TimePassed 3000]))
            errorContainer) = true.
Proof. vm_compute. repeat split. Qed.

(** C7: two strings with a colon and no scheme, and a port out of
    range. *)
Lemma validate_follows_url_parser_witness :
  trim (js " //example.com:8080/path ") <> [] /\
  scheme_of (url_input (trim (js " //example.com:8080/path "))) = None /\
  validate sample_host_parser (js " //example.com:8080/path ")
  = inl InvalidFormatError /\
  validate sample_host_parser (js "1:2") = inl InvalidFormatError /\
  validate sample_host_parser (js "http://a:99999/") = inl InvalidFormatError.
Proof.
  assert (H1 : trim (js " //example.com:8080/path ") <> [])
    by (vm_compute; discriminate).
  assert (H2 : trim (js "1:2") <> []) by (vm_compute; discriminate).
  split; [exact H1|]. split; [reflexivity|]. split; [|split].
  - exact (proj1 (proj2 (proj2 (proj2 (proj2
             (validate_follows_url_parser sample_host_parser
                (js " //example.com:8080/path "))))))
             H1 eq_refl).
  - exact (proj1 (proj2 (proj2 (proj2 (proj2
             (validate_follows_url_parser sample_host_parser (js "1:2"))))))
             H2 eq_refl).
  - exact (proj2 (proj2 (proj2 (proj2 (proj2 (proj2
             (validate_follows_url_parser sample_host_parser
                (js "http://a:99999/")))))))
             (js "http") (js "//a:99999/") (js "a") (Some (js "99999"))
             (js "/")
             eq_refl eq_refl eq_refl eq_refl eq_refl eq_refl eq_refl).
Defined.

(** C7: whatever the host parser, a scheme with no authority validates,
    and a URL with scheme, authority and path but a port above 65535 does
    not. *)
Lemma validation_is_not_the_scheme_authority_grammar :
  (forall hp, validate hp (js "mailto:a") = inr (js "mailto:a")) /\
  spec_scheme_authority (js "mailto:a") = false /\
  (forall hp, validate hp (js "http://a:99999/") = inl InvalidFormatError) /\
  spec_scheme_authority (js "http://a:99999/") = true.
Proof.
  split; [intros hp; reflexivity|]. split; [reflexivity|].
  split; [|reflexivity].
  intros hp. unfold validate, isValidUrl.
  replace (basic_url_parser hp (trim (js "http://a:99999/"))) with false;
    [reflexivity|].
  cbv. destruct (hp false [97%N]); reflexivity.
Qed.

(** C8: the error body of the specification's scenario. *)
Lemma service_error_shows_detail_witness :
  complete sample_loaded /\
  validate sample_host_parser (field_value (dom sample_loaded urlInput))
  = inr (js "https://example.com") /\
  own_property (js "detail") [(js "detail", VString (js "rate limited"))]
  = VString (js "rate limited") /\
  js "rate limited" <> [] /\
  body (dom (snd (lifecycle sample_host_parser (inr false)
                    (inr (VObject
                            [(js "detail", VString (js "rate limited"))]))
                    sample_loaded))
          errorMessage) = Text (js "rate limited").
Proof.
  assert (C : complete sample_loaded) by (intros e; reflexivity).
  assert (N : js "rate limited" <> []) by (vm_compute; discriminate).
  split; [exact C|]. split; [reflexivity|]. split; [reflexivity|].
  split; [exact N|].
  exact (proj1 (service_error_shows_detail sample_host_parser sample_loaded
                  (js "https://example.com")
                  [(js "detail", VString (js "rate limited"))] C eq_refl)
           (js "rate limited") eq_refl N).
Defined.

(** C8: an error body whose [detail] is the empty string: the field is
    there and textual, and the generic message is shown. *)
Lemma empty_detail_shows_the_fallback :
  own_property (js "detail") [(js "detail", VString [])] = VString [] /\
  body (dom (snd (lifecycle sample_host_parser (inr false)
                    (inr (VObject [(js "detail", VString [])]))
                    sample_loaded))
          errorMessage) = Text (js "Failed to check URL").
Proof. vm_compute. split; reflexivity. Qed.

(** C9: on the page without the [totalScans] element, with the flag
    set. *)
Lemma startup_tasks_are_fail_fast_witness :
  page sample_broken loadingIndicator = true /\
  page sample_broken errorContainer = true /\
  page sample_broken resultContainer = true /\
  counters_on (page sample_broken) = false /\
  announcement_closed [(ANNOUNCEMENT_CLOSED, js "true")] = true /\
  dom (snd (initializePage sample_broken)) announcementBanner
  = dom sample_broken announcementBanner.
Proof.
  split; [reflexivity|]. split; [reflexivity|]. split; [reflexivity|].
  split; [reflexivity|]. split; [reflexivity|].
  exact (proj1
           (proj2 (proj2 (proj2 (proj2 (proj2
              (startup_tasks_are_fail_fast sample_broken
                 eq_refl eq_refl eq_refl)))))
              eq_refl)).
Defined.

(** C9: on that page [updateStatistics] throws, and the banner, whose
    flag is set and which [checkAnnouncementBanner] alone would hide,
    stays visible after loading. *)
Lemma statistics_failure_keeps_the_banner :
  fst (updateStatistics VUndefined (snd (loadHistory sample_broken)))
  = Throw (Exn TypeError (js "Cannot set properties of null")) /\
  hidden (dom (snd (checkAnnouncementBanner sample_broken)) announcementBanner)
  = true /\
  hidden (dom (snd (initializePage sample_broken)) announcementBanner) = false /\
  hidden (dom (heap (load (every_element_but totalScansElement)
                       (document_with [])
                       (Some [(ANNOUNCEMENT_CLOSED, js "true")]) 0))
            announcementBanner) = false.
Proof. vm_compute. repeat split. Qed.

(** C10: clearing on the loaded sample page. *)
Lemma clearHistory_empties_history_only_witness :
  page sample_loaded historyContainer = true /\
  hidden (dom (snd (loadHistory (snd (clearHistory sample_loaded))))
            historyContainer) = true.
Proof.
  split; [reflexivity|].
  exact (proj2 (proj2 (proj2 (proj2 (proj2 (proj2
           (clearHistory_empties_history_only sample_loaded))))))
           eq_refl).
Defined.

(** ** More of the model at work *)

(** A string with no scheme in the input field. *)
Lemma rejected_input_sends_nothing_witness :
  page sample_mistyped urlInput = true /\
  validate sample_host_parser (field_value (dom sample_mistyped urlInput))
  = inl InvalidFormatError /\
  requests (snd (checkUrl sample_host_parser sample_mistyped))
  = requests sample_mistyped.
Proof.
  split; [reflexivity|]. split; [reflexivity|].
  exact (proj1 (proj2
           (rejected_input_sends_nothing sample_host_parser sample_mistyped
              InvalidFormatError eq_refl eq_refl))).
Defined.

(** The start of a check on the loaded sample page. *)
Lemma check_in_flight_shows_progress_witness :
  validate sample_host_parser (field_value (dom sample_loaded urlInput))
  = inr (js "https://example.com") /\
  hidden (dom (snd (checkUrl sample_host_parser sample_loaded))
            loadingIndicator) = false.
Proof.
  split; [reflexivity|].
  exact (proj1 (proj2 (proj2 (proj2 (proj2
           (check_in_flight_shows_progress sample_host_parser sample_loaded
              (js "https://example.com")
              eq_refl eq_refl eq_refl eq_refl eq_refl eq_refl)))))).
Defined.

(** The network is down. *)
Lemma rejected_promise_shows_its_message_witness :
  complete sample_loaded /\
  rejection (inl failed_to_fetch) (inr VNull) = Some failed_to_fetch /\
  body (dom (snd (lifecycle sample_host_parser (inl failed_to_fetch)
                    (inr VNull) sample_loaded))
          errorMessage) = Text (caught_text failed_to_fetch).
Proof.
  assert (C : complete sample_loaded) by (intros e; reflexivity).
  split; [exact C|]. split; [reflexivity|].
  exact (proj1 (proj2 (proj2 (proj2
           (rejected_promise_shows_its_message sample_host_parser
              sample_loaded (js "https://example.com")
              (inl failed_to_fetch) (inr VNull) failed_to_fetch
              C eq_refl eq_refl))))).
Defined.

(** A success status with the body [null]. *)
Lemma null_body_shows_the_stale_result_witness :
  complete sample_loaded /\
  hidden (dom (snd (lifecycle sample_host_parser (inr true) (inr VNull)
                      sample_loaded))
            resultContainer) = false.
Proof.
  assert (C : complete sample_loaded) by (intros e; reflexivity).
  split; [exact C|].
  exact (proj1 (proj2
           (null_body_shows_the_stale_result sample_host_parser sample_loaded
              (js "https://example.com") C eq_refl))).
Defined.

(** A check answered with a failure status and a body that is no JSON. *)
Lemma loading_indicator_is_cleared_at_the_end_witness :
  page sample_loaded urlInput = true /\
  page sample_loaded loadingIndicator = true /\
  loading_cleared
    (snd (lifecycle sample_host_parser (inr false)
            (inl (Exn SyntaxError (js "Unexpected token"))) sample_loaded)).
Proof.
  split; [reflexivity|]. split; [reflexivity|].
  exact (loading_indicator_is_cleared_at_the_end sample_host_parser
           sample_loaded (js "https://example.com") (inr false)
           (inl (Exn SyntaxError (js "Unexpected token")))
           eq_refl eq_refl eq_refl).
Defined.

(** Eleven entries shown on the loaded sample page. *)
Lemma displayHistory_shows_one_row_per_entry_witness :
  page sample_loaded historyList = true /\
  page sample_loaded historyContainer = true /\
  sample_records <> [] /\
  body (dom (snd (displayHistory sample_records sample_loaded)) historyList)
  = Rows (map row_of sample_records).
Proof.
  assert (N : sample_records <> []) by discriminate.
  split; [reflexivity|]. split; [reflexivity|]. split; [exact N|].
  exact (proj1 (proj1 (proj2
           (displayHistory_shows_one_row_per_entry sample_loaded
              sample_records eq_refl eq_refl)) N)).
Defined.

(** A phishing verdict recorded on the loaded sample page. *)
Lemma history_panel_mirrors_the_history_witness :
  page sample_loaded historyList = true /\
  page sample_loaded historyContainer = true /\
  hidden (dom (snd (addToSessionHistory (js "https://example.com")
                      (VBool true) sample_loaded))
            historyContainer) = false.
Proof.
  split; [reflexivity|]. split; [reflexivity|].
  exact (proj1 (proj2 (proj2
           (history_panel_mirrors_the_history sample_loaded
              (js "https://example.com") (VBool true) eq_refl eq_refl)))).
Defined.

(** A visit after the announcement was closed. *)
Lemma closed_announcement_stays_closed_witness :
  (forall e, every_element e = true) /\
  announcement_closed [(ANNOUNCEMENT_CLOSED, js "true")] = true /\
  hidden (dom (heap (load every_element (document_with [])
                       (Some [(ANNOUNCEMENT_CLOSED, js "true")]) 0))
            announcementBanner) = true.
Proof.
  split; [intros e; reflexivity|]. split; [reflexivity|].
  exact (proj1
           (closed_announcement_stays_closed every_element (document_with [])
              [(ANNOUNCEMENT_CLOSED, js "true")] 0 (fun e => eq_refl))
           eq_refl).
Defined.

(** A page without the report button. *)
Lemma missing_control_aborts_startup_witness :
  forallb (every_element_but reportButton) required = false /\
  trace (heap (load (every_element_but reportButton) (document_with [])
                 (Some []) 0)) = [].
Proof.
  split; [reflexivity|].
  exact (proj1
           (proj1
              (missing_control_aborts_startup (every_element_but reportButton)
                 (document_with []) (Some []) 0)
              eq_refl)).
Defined.




(** An error shown on the loaded sample page, a minute later. *)
Lemma message_stays_until_a_timer_is_due_witness :
  page sample_loaded errorContainer = true /\
  page sample_loaded errorMessage = true /\
  clock sample_loaded <= 60000 /\
  hidden (dom (advance 60000
                 (snd (showError (js "Please enter a valid URL") Danger
                         sample_loaded)))
            errorContainer) = false.
Proof.
  assert (H : clock sample_loaded <= 60000) by (vm_compute; discriminate).
  assert (T : forall d, In d (timers sample_loaded) -> 60000 < d)
    by (vm_compute; intros d []).
  assert (S : Danger = Success -> 60000 < clock sample_loaded + 3000)
    by discriminate.
  split; [reflexivity|]. split; [reflexivity|]. split; [exact H|].
  exact (proj1
           (message_stays_until_a_timer_is_due sample_loaded
              (js "Please enter a valid URL") Danger 60000
              eq_refl eq_refl H T S)).
Defined.

(** A click on the third question while the first two items are open. *)
Lemma faq_click_toggles_one_and_closes_the_rest_witness :
  forallb (page sample_start) required = true /\
  separate sample_faq /\
  active (faq_click sample_start sample_faq sample_heights 2 sample_accordion) 2%nat
  = true /\
  maxHeight (faq_click sample_start sample_faq sample_heights 2 sample_accordion) 12%nat
  = Some 120.
Proof.
  assert (P : forallb (page sample_start) required = true) by reflexivity.
  assert (S : separate sample_faq) by (split; reflexivity).
  split; [exact P|]. split; [exact S|].
  split.
  - exact (proj1
             (faq_click_toggles_one_and_closes_the_rest sample_start
                sample_faq sample_heights sample_accordion 2
                {| faq_question := Some 2%nat; faq_answer := Some 12%nat |}
                2 12 P S eq_refl eq_refl eq_refl)).
  - exact (proj1 (proj2 (proj2
             (faq_click_toggles_one_and_closes_the_rest sample_start
                sample_faq sample_heights sample_accordion 2
                {| faq_question := Some 2%nat; faq_answer := Some 12%nat |}
                2 12 P S eq_refl eq_refl eq_refl)))).
Defined.

(** Two items open in the document, and one click. *)
Lemma faq_has_one_answer_open_at_most_witness :
  forallb (page sample_start) required = true /\
  separate sample_faq /\
  one_open sample_faq
    (faq_session sample_start sample_faq [(0%nat, sample_heights)] sample_accordion).
Proof.
  assert (P : forallb (page sample_start) required = true) by reflexivity.
  assert (S : separate sample_faq) by (split; reflexivity).
  split; [exact P|]. split; [exact S|].
  exact (proj1
           (proj1
              (faq_has_one_answer_open_at_most sample_start sample_faq
                 [(0%nat, sample_heights)] sample_accordion S)
              P
              (or_intror
                 (ex_intro _ (0%nat, sample_heights)
                    (conj (or_introl eq_refl) (or_introl eq_refl)))))).
Defined.

(** The second of three items has no question. *)
Lemma faq_item_without_question_stops_the_setup_witness :
  fst (faq_register 0
         ([{| faq_question := Some 0%nat; faq_answer := Some 10%nat |}]
          ++ {| faq_question := None; faq_answer := Some 11%nat |}
          :: [{| faq_question := Some 2%nat; faq_answer := Some 12%nat |}]))
  = Throw null_read.
Proof.
  assert (F : Forall (fun it => faq_question it <> None)
                [{| faq_question := Some 0%nat; faq_answer := Some 10%nat |}])
    by (repeat constructor; discriminate).
  exact (proj1
           (faq_item_without_question_stops_the_setup
              [{| faq_question := Some 0%nat; faq_answer := Some 10%nat |}]
              [{| faq_question := Some 2%nat; faq_answer := Some 12%nat |}]
              {| faq_question := None; faq_answer := Some 11%nat |}
              F eq_refl)).
Defined.

(** Three cards on a phone that is turned on its side before the third
    tick. *)
Lemma testimonials_go_round_witness :
  forallb (page sample_start) required = true /\
  Forall (fun it => faq_question it <> None) sample_faq /\
  375 < 768 /\
  sample_cards <> [] /\
  currentTestimonial
    (testimonials_run sample_start sample_faq every_control 375
       [375; 375; 1024] sample_cards)
  = Some 1%nat /\
  cards
    (testimonials_run sample_start sample_faq every_control 375
       [375; 375; 1024] sample_cards)
  = [Some Block; Some Block; Some Block].
Proof.
  assert (P : forallb (page sample_start) required = true) by reflexivity.
  assert (Q : Forall (fun it => faq_question it <> None) sample_faq)
    by (repeat constructor; discriminate).
  assert (W : 375 < 768) by reflexivity.
  assert (N : sample_cards <> []) by discriminate.
  split; [exact P|]. split; [exact Q|]. split; [exact W|]. split; [exact N|].
  exact (proj1
           (proj1
              (testimonials_go_round sample_start sample_faq every_control
                 sample_cards 375 [375; 375; 1024])
              P Q (fun c => eq_refl) W)
           N).
Defined.
